(** * AIO analyzer: the rate-limited SERP client and the staged pipeline

    A shallow embedding of
    - [src/utils/serp_handler.py]  (class [SERPHandler]),
    - [backend/aio_analyzer/apps/analysis/tasks.py] (the Celery stage tasks and
      [run_complete_analysis]),
    - [src/aio_analyzer.py] ([AIOAnalyzer.run_full_analysis]),
    together with the properties the specification states about them.

    Conventions.  Wall-clock values and durations are exact rationals ([Q])
    standing for Python floats; percentages are IEEE binary64 values
    ([PrimFloat]), as Python computes them; Python [int]s are [Z]; [dict]s keyed
    by keyword are [gmap string _]; Django [CharField]s are strings. *)

From Stdlib Require Import QArith Lqa Floats Uint63 Ascii.
From stdpp Require Import gmap strings list.

Open Scope Z_scope.

(** ** serp_handler.py *)

Module SerpHandler.

(** [@dataclass SERPResult].  The [error] text is kept structured: the two
    f-strings of the module are [RequestFailed n] (line 182, "request failed,
    retried n times") and [ParseError msg] (line 274). *)
Inductive ErrorText :=
| RequestFailed (retry_attempts : Z)
| ParseError (msg : string)
| OtherError (msg : string).

Record SERPResult := {
  keyword : string;
  has_aio : bool;
  aio_content : option string;
  total_results : Z;
  error : option ErrorText
}.

Inductive Provider := serper | other_provider.

(** The attributes [SERPHandler.__init__] reads from the configuration. *)
Record SERPHandler := {
  api_provider : Provider;
  concurrent_requests : Z;
  rate_limit : Q;
  timeout : Q;
  retry_attempts : Z;
  retry_delay : Q
}.

(** The [Retry-After] header of a 429 response, as [int(...)] sees it:
    absent (the default [self.retry_delay] is used), an integer literal, or
    text on which [int] raises [ValueError]. *)
Inductive RetryAfter :=
| NoHeader
| HeaderInt (seconds : Z)
| HeaderNotInt.

Section Client.

(** The decoded JSON body of a 200 response, and [_parse_serp_response]
    (lines 185-275), which maps it to a [SERPResult]; the function catches
    its own exceptions (lines 196 and 269), so it is total. *)
Context {Data : Type}.
Variable _parse_serp_response : string -> Data -> SERPResult.

(** What one [session.post] / [session.get] inside the [try] of the retry
    loop can amount to. *)
Inductive Response :=
| Status200 (body : option Data)      (* [None]: [response.json()] raised *)
| Status429 (hint : RetryAfter)
| StatusOther (status : Z)
| RaisedTimeout                       (* [asyncio.TimeoutError] *)
| RaisedOther.                        (* any other [Exception] *)

(** What a call of [_make_serp_request] does besides returning: the HTTP
    requests it sends and the [asyncio.sleep]s of its retry loop. *)
Inductive Event :=
| Request (kw : string) (attempt : nat)
| Sleep (seconds : Q).

(** [int(x)] on a number: truncation towards zero. *)
Definition py_int (x : Q) : Z := Z.quot (Qnum x) (Zpos (Qden x)).

(** Lines 129-135 / 164-169 and the two [except] clauses: the sleep done
    inside the [try] after a response that is not a parsed 200. *)
Definition hint_sleep (h : SERPHandler) (r : Response) : list Event :=
  match r with
  | Status429 NoHeader => [Sleep (inject_Z (py_int (retry_delay h)))]
  | Status429 (HeaderInt n) => [Sleep (inject_Z n)]
  | _ => []
  end.

(** Lines 141-142 / 176-177: [if attempt < self.retry_attempts - 1:
    await asyncio.sleep(self.retry_delay * (attempt + 1))]. *)
Definition backoff_sleep (h : SERPHandler) (attempt : nat) : list Event :=
  if bool_decide (Z.of_nat attempt < retry_attempts h - 1)
  then [Sleep (retry_delay h * inject_Z (Z.of_nat attempt + 1))%Q]
  else [].

(** [for attempt in range(self.retry_attempts)] with [remaining] iterations
    left; [responses attempt] is what the request of that iteration meets.
    [Some r]: the loop returned [r]; [None]: the loop ran out. *)
Fixpoint retry_loop (h : SERPHandler) (kw : string) (responses : nat -> Response)
    (remaining attempt : nat) : option SERPResult * list Event :=
  match remaining with
  | O => (None, [])
  | S remaining' =>
    match responses attempt with
    | Status200 (Some data) =>
        (Some (_parse_serp_response kw data), [Request kw attempt])
    | r =>
        let rest := retry_loop h kw responses remaining' (S attempt) in
        (rest.1, Request kw attempt :: hint_sleep h r ++ backoff_sleep h attempt ++ rest.2)
    end
  end.

(** Lines 179-183. *)
Definition request_failed (h : SERPHandler) (kw : string) : SERPResult :=
  {| keyword := kw; has_aio := false; aio_content := None; total_results := 0;
     error := Some (RequestFailed (retry_attempts h)) |}.

(** [_make_serp_request] (lines 89-183): the value it returns and what it
    sends and sleeps.  Both provider branches run the same loop.  Taking the
    semaphore and [_rate_limit_delay] change when the requests happen, not
    what is returned; module [EventLoop] below has them. *)
Definition _make_serp_request (h : SERPHandler) (kw : string)
    (responses : nat -> Response) : SERPResult * list Event :=
  let r := retry_loop h kw responses (Z.to_nat (retry_attempts h)) 0 in
  (default (request_failed h kw) r.1, r.2).

(** An element of [completed_tasks]: with [return_exceptions=True],
    [asyncio.gather] hands back either the exception a task raised or the
    pair it returned. *)
Definition TaskResult : Type := string + (string * bool).

(** The inner coroutine [process_keyword] (lines 298-313), for the task
    whose requests meet [responses].  The two progress counters feed the log
    only. *)
Definition process_keyword (h : SERPHandler) (responses : nat -> Response)
    (kw : string) : TaskResult * (string * list Event) :=
  let r := _make_serp_request h kw responses in
  (inr (kw, has_aio r.1), (kw, r.2)).

(** Lines 331-336: one step of the loop over [completed_tasks]. *)
Definition collect (results : gmap string bool) (task_result : TaskResult)
    : gmap string bool :=
  match task_result with
  | inl _ => results
  | inr (kw, b) => <[kw := b]> results
  end.

(** [batch_validate_aio] (lines 277-350).  [oracle i] is what the requests
    of the [i]-th task meet.  Returns the dictionary and, per task in input
    order, the keyword it probed with its events. *)
Definition batch_validate_aio (h : SERPHandler) (oracle : nat -> nat -> Response)
    (keywords : list string) : gmap string bool * list (string * list Event) :=
  match keywords with
  | [] => (∅, [])
  | _ =>
    let tasks := imap (fun i kw => process_keyword h (oracle i) kw) keywords in
    (foldl collect ∅ (tasks.*1), tasks.*2)
  end.

(** [validate_single_keyword] (lines 352-381) and [test_api_connection]
    (lines 383-404). *)
Definition validate_single_keyword (h : SERPHandler) (responses : nat -> Response)
    (kw : string) : SERPResult :=
  (_make_serp_request h kw responses).1.

Definition test_api_connection (h : SERPHandler) (responses : nat -> Response) : bool :=
  match error (validate_single_keyword h responses "test") with
  | Some _ => false
  | None => true
  end.

(** An attempt that does not end in a decoded 200 response. *)
Definition failed_attempt (r : Response) : bool :=
  match r with
  | Status200 (Some _) => false
  | _ => true
  end.

(** The flag task [i] reports for keyword [kw]. *)
Definition flag (h : SERPHandler) (oracle : nat -> nat -> Response)
    (i : nat) (kw : string) : bool :=
  has_aio (_make_serp_request h kw (oracle i)).1.

(** The responses a task has met so far, as the function of the attempt
    that [_make_serp_request] takes. *)
Definition answers (rs : list (Response)) (attempt : nat) : Response :=
  default RaisedOther (rs !! attempt).

End Client.

(** The requests among the events of a probe, and the time it slept. *)
Definition is_request (e : Event) : bool :=
  match e with
  | Request _ _ => true
  | Sleep _ => false
  end.

Definition requests (events : list Event) : list Event :=
  filter (fun e => is_request e = true) events.

Fixpoint slept (events : list Event) : Q :=
  match events with
  | [] => 0
  | Sleep seconds :: rest => seconds + slept rest
  | Request _ _ :: rest => slept rest
  end.

End SerpHandler.

(** ** The asyncio event loop running the tasks of [batch_validate_aio]

    [asyncio.gather] runs one [process_keyword] coroutine per list element on
    a single thread; a coroutine runs without interruption from one [await]
    that suspends it to the next.  The machine below has one transition per
    such segment of [_make_serp_request] (lines 102-183) and
    [_rate_limit_delay] (lines 76-87); which suspended task the loop resumes
    next, and how much time passes meanwhile, is left to the schedule. *)

Module EventLoop.
Import SerpHandler.

(** Where a task is suspended. *)
Inductive Coroutine :=
| WaitSlot                                (* line 102, before the semaphore is taken *)
| Pacing (wake : Q)                       (* line 85, [asyncio.sleep(sleep_time)] *)
| InFlight (attempt : nat)                (* line 119 / 155, awaiting the response *)
| HintSleep (attempt : nat) (wake : Q)    (* line 132 / 167, [asyncio.sleep(retry_after)] *)
| Backoff (attempt : nat) (wake : Q)      (* line 142 / 177 *)
| Finished (r : SERPResult).

(** The loop's clock, the two attributes of the handler the tasks share
    ([_semaphore._value], [_last_request_time]), the tasks, and a record of
    every request start as (task, attempt, time). *)
Record State := {
  now : Q;
  _value : nat;
  _last_request_time : Q;
  tasks : list Coroutine;
  starts : list (nat * nat * Q)
}.

Definition set_task (i : nat) (c : Coroutine) (s : State) : State :=
  {| now := now s; _value := _value s; _last_request_time := _last_request_time s;
     tasks := <[i := c]> (tasks s); starts := starts s |}.

Definition set_value (v : nat) (s : State) : State :=
  {| now := now s; _value := v; _last_request_time := _last_request_time s;
     tasks := tasks s; starts := starts s |}.

Definition set_last_request_time (t : Q) (s : State) : State :=
  {| now := now s; _value := _value s; _last_request_time := t;
     tasks := tasks s; starts := starts s |}.

Definition set_now (t : Q) (s : State) : State :=
  {| now := t; _value := _value s; _last_request_time := _last_request_time s;
     tasks := tasks s; starts := starts s |}.

Definition log_start (i attempt : nat) (s : State) : State :=
  {| now := now s; _value := _value s; _last_request_time := _last_request_time s;
     tasks := tasks s; starts := starts s ++ [(i, attempt, now s)] |}.

(** Leaving [async with self._semaphore]. *)
Definition release (s : State) : State := set_value (S (_value s)) s.

Definition Qlt_bool (x y : Q) : bool := negb (Qle_bool y x).

Section Machine.

Context {Data : Type}.

(** What the loop does next. *)
Inductive Action :=
| Elapse (d : Q)                      (* time passes *)
| Resume (i : nat)                    (* a slot is free, or the sleep of task [i] is over *)
| Reply (i : nat) (r : @Response Data).   (* the request of task [i] completes *)

Variable _parse_serp_response : string -> Data -> SERPResult.
Variable h : SERPHandler.
Variable keywords : list string.

(** The head of iteration [attempt] of the retry loop: the request is sent
    (lines 119 / 155), or [range] is exhausted and line 179 returns. *)
Definition enter_attempt (i : nat) (kw : string) (attempt : nat) (s : State) : State :=
  if bool_decide (Z.of_nat attempt < retry_attempts h)
  then log_start i attempt (set_task i (InFlight attempt) s)
  else release (set_task i (Finished (request_failed h kw)) s).

(** Lines 141-142 / 176-177, reached after a failed attempt. *)
Definition after_failure (i : nat) (kw : string) (attempt : nat) (s : State) : State :=
  if bool_decide (Z.of_nat attempt < retry_attempts h - 1)
  then set_task i (Backoff attempt (now s + retry_delay h * inject_Z (Z.of_nat attempt + 1))%Q) s
  else enter_attempt i kw (S attempt) s.

(** [_rate_limit_delay] (lines 76-87) up to its [await]: nothing protects
    [_last_request_time] between the read of line 80 and the write of
    line 87, which happens only after the sleep. *)
Definition _rate_limit_delay (i : nat) (kw : string) (s : State) : State :=
  if Qlt_bool 0 (rate_limit h) then
    let current_time := now s in
    let time_since_last := (current_time - _last_request_time s)%Q in
    let min_interval := (1 / rate_limit h)%Q in
    if Qlt_bool time_since_last min_interval
    then set_task i (Pacing (now s + (min_interval - time_since_last))%Q) s
    else enter_attempt i kw 0 (set_last_request_time (now s) s)
  else enter_attempt i kw 0 s.

(** Line 87 after the sleep of line 85, then on to the retry loop. *)
Definition after_pacing (i : nat) (kw : string) (s : State) : State :=
  enter_attempt i kw 0 (set_last_request_time (now s) s).

(** What the response [r] to attempt [attempt] leads to (lines 126-139). *)
Definition on_response (i : nat) (kw : string) (attempt : nat) (r : @Response Data)
    (s : State) : State :=
  match r with
  | Status200 (Some data) =>
      release (set_task i (Finished (_parse_serp_response kw data)) s)
  | Status429 NoHeader =>
      set_task i (HintSleep attempt (now s + inject_Z (py_int (retry_delay h)))%Q) s
  | Status429 (HeaderInt n) =>
      set_task i (HintSleep attempt (now s + inject_Z n)%Q) s
  | _ => after_failure i kw attempt s
  end.

Definition step (s : State) (a : Action) : option State :=
  match a with
  | Elapse d => if Qle_bool 0 d then Some (set_now (now s + d)%Q s) else None
  | Resume i =>
      match keywords !! i, tasks s !! i with
      | Some kw, Some WaitSlot =>
          match _value s with
          | S v => Some (_rate_limit_delay i kw (set_value v s))
          | O => None
          end
      | Some kw, Some (Pacing wake) =>
          if Qle_bool wake (now s) then Some (after_pacing i kw s) else None
      | Some kw, Some (HintSleep attempt wake) =>
          if Qle_bool wake (now s) then Some (after_failure i kw attempt s) else None
      | Some kw, Some (Backoff attempt wake) =>
          if Qle_bool wake (now s) then Some (enter_attempt i kw (S attempt) s) else None
      | _, _ => None
      end
  | Reply i r =>
      match keywords !! i, tasks s !! i with
      | Some kw, Some (InFlight attempt) => Some (on_response i kw attempt r s)
      | _, _ => None
      end
  end.

Fixpoint run (s : State) (schedule : list Action) : option State :=
  match schedule with
  | [] => Some s
  | a :: schedule' =>
      match step s a with
      | Some s' => run s' schedule'
      | None => None
      end
  end.

(** [__init__] (lines 66-67) and the tasks [gather] is given (line 325),
    with the clock at [t0]. *)
Definition initial (t0 : Q) : State :=
  {| now := t0;
     _value := Z.to_nat (concurrent_requests h);
     _last_request_time := 0;
     tasks := (fun _ => WaitSlot) <$> keywords;
     starts := [] |}.

(** Where [enter_attempt] leaves the task. *)
Definition entered (kw : string) (attempt : nat) : Coroutine :=
  if bool_decide (Z.of_nat attempt < retry_attempts h)
  then InFlight attempt
  else Finished (request_failed h kw).

(** The replies task [i] is given in a schedule, oldest first. *)
Fixpoint replies_to (i : nat) (schedule : list Action) : list (@Response Data) :=
  match schedule with
  | [] => []
  | Reply j r :: rest =>
      if decide (i = j) then r :: replies_to i rest else replies_to i rest
  | _ :: rest => replies_to i rest
  end.

(** What the place a task is suspended at says about the replies [rs] it
    has had. *)
Definition task_inv (kw : string) (c : Coroutine) (rs : list (@Response Data)) : Prop :=
  match c with
  | WaitSlot | Pacing _ => rs = []
  | InFlight attempt =>
      length rs = attempt /\ Z.of_nat attempt < retry_attempts h
      /\ Forall (fun r => failed_attempt r = true) rs
  | HintSleep attempt _ | Backoff attempt _ =>
      length rs = S attempt /\ Forall (fun r => failed_attempt r = true) rs
  | Finished r => r = (_make_serp_request _parse_serp_response h kw (answers rs)).1
  end.

Definition tasks_inv (s : State) (hist : nat -> list (@Response Data)) : Prop :=
  forall i kw c, keywords !! i = Some kw -> tasks s !! i = Some c -> task_inv kw c (hist i).

End Machine.

(** A task holds a slot of the semaphore from the moment it took it until
    it returns; its request is in flight while the response is awaited. *)
Definition holds_slot (c : Coroutine) : bool :=
  match c with
  | WaitSlot | Finished _ => false
  | _ => true
  end.

Definition is_in_flight (c : Coroutine) : bool :=
  match c with
  | InFlight _ => true
  | _ => false
  end.

Definition holding (s : State) : nat := length (filter (fun c => holds_slot c = true) (tasks s)).
Definition in_flight (s : State) : nat := length (filter (fun c => is_in_flight c = true) (tasks s)).

(** One when the task does not hold a slot. *)
Definition free (c : Coroutine) : nat := if holds_slot c then 0%nat else 1%nat.

(** The slots given out and the slots left. *)
Definition slots (s : State) : nat := (holding s + _value s)%nat.

(** The differences between consecutive request starts, and whether each
    is at least [1 / rate_limit]. *)
Fixpoint gaps (times : list Q) : list Q :=
  match times with
  | t1 :: (t2 :: _) as rest => (t2 - t1)%Q :: gaps rest
  | _ => []
  end.

Definition paced (h : SERPHandler) (s : State) : bool :=
  forallb (fun g => Qle_bool (1 / rate_limit h)%Q g) (gaps ((starts s).*2)).

(** The times at which the first attempts of the tasks were sent, and
    whether consecutive ones are at least [1 / rate_limit] apart. *)
Definition first_starts (s : State) : list Q :=
  (filter (fun e => e.1.2 = 0%nat) (starts s)).*2.

Definition first_requests_paced (h : SERPHandler) (s : State) : bool :=
  forallb (fun g => Qle_bool (1 / rate_limit h)%Q g) (gaps (first_starts s)).

(** What the pacing gate keeps when one task at a time is let through:
    the first attempts so far are spaced, none is later than
    [_last_request_time], and a task sleeping at the gate wakes a full
    interval after it. *)
Definition pacing_inv (h : SERPHandler) (s : State) : Prop :=
  Forall (fun g => (1 / rate_limit h <= g)%Q) (gaps (first_starts s))
  /\ (forall t, last (first_starts s) = Some t -> (t <= _last_request_time s)%Q)
  /\ (forall i wake, tasks s !! i = Some (Pacing wake) ->
        (_last_request_time s + 1 / rate_limit h <= wake)%Q).

Definition is_pacing (c : Coroutine) : bool :=
  match c with
  | Pacing _ => true
  | _ => false
  end.

End EventLoop.

(** ** Python numbers and the percentage formula

    [(aio_count / verified_count * 100) if verified_count > 0 else 0] occurs
    in [tasks.py] (lines 445, 467), [report_generator.py] (line 132) and
    [aio_analyzer.py] (line 269).  [/] on two [int]s is the correctly rounded
    binary64 quotient; the [else] branch is the [int] 0. *)

Inductive PyNum :=
| PyInt (z : Z)
| PyFloat (f : float).

Definition float_of_int (z : Z) : float := PrimFloat.of_uint63 (Uint63.of_Z z).

Definition percentage (count total : Z) : PyNum :=
  if bool_decide (0 < total)
  then PyFloat (float_of_int count / float_of_int total * 100)%float
  else PyInt 0.

(** What an external call comes to. *)
Inductive Call (A : Type) :=
| Returns (a : A)
| Raises (exc : string).
Arguments Returns {A} a.
Arguments Raises {A} exc.

(** A row of the frame [GSCHandler.get_search_analytics_data] returns, and
    of the frame [AdsHandler.generate_keyword_ideas] returns. *)
Record GscRow := {
  query : string;
  clicks : Z;
  impressions : Z;
  ctr : float;
  position : float
}.

Record AdsRow := {
  keyword_idea : string;
  search_volume : Z;
  competition_level : string;
  competition_index : Z;
  low_top_of_page_bid_usd : float;
  high_top_of_page_bid_usd : float
}.

(** ** apps/analysis/models.py and apps/analysis/tasks.py *)

Module Tasks.
Import SerpHandler.

(** [AnalysisProject] (models.py lines 19-91), without its timestamps,
    name and analysis parameters. *)
Record AnalysisProject := {
  status : string;
  total_steps : Z;
  completed_steps : Z;
  current_step : string;
  total_keywords : Z;
  aio_keywords : Z;
  completion_percentage : float;
  error_message : string
}.

(** The field defaults of the model: a project as the caller creates it. *)
Definition new_project : AnalysisProject :=
  {| status := "created"; total_steps := 4; completed_steps := 0; current_step := "";
     total_keywords := 0; aio_keywords := 0; completion_percentage := 0;
     error_message := "" |}.

(** [AnalysisTask.result_data], a JSON object.  The pandas aggregates
    ([gsc_stats], [ads_stats]) are left out. *)
Inductive ResultData :=
| NoData
| Message (message : string)
| GscData (total_keywords new_keywords : Z)
| AdsData (total_expanded new_keywords : Z)
| ValidationData (total_verified aio_triggers : Z) (aio_percentage : PyNum)
    (api_calls_made : Z).

(** [AnalysisTask] (models.py lines 94-153), without timestamps, the Celery
    id and the free-text [current_operation]. *)
Record AnalysisTask := {
  task_type : string;
  task_status : string;
  result_data : ResultData;
  result_count : Z;
  progress_percentage : float;
  task_error_message : string
}.

(** [KeywordData] (models.py lines 156-233); [unique_together] is
    (project, keyword). *)
Record KeywordData := {
  kd_keyword : string;
  source_type : string;
  gsc_clicks : option Z;
  gsc_impressions : option Z;
  gsc_ctr : option float;
  gsc_position : option float;
  ads_search_volume : option Z;
  ads_competition_level : string;
  ads_competition_index : option Z;
  ads_low_bid : option float;
  ads_high_bid : option float;
  aio_verified : option bool;
  aio_triggers : option bool
}.

(** What the run leaves behind besides the rows: the stage tasks the
    orchestrator dispatched and the external calls the stages made. *)
Inductive Trace :=
| Delayed (task : string)
| GscQueried
| AdsQueried (seed_keywords : list string)
| SerpTested
| SerpBatch (keywords_list : list string).

(** The rows of one project: its [AnalysisProject] row, its tasks (the id of
    a task is its index) and its keywords, in creation order.  [saves] lists
    every value the project row was given by a [project.save()], oldest
    first; [trace] is the record above. *)
Record DB := {
  project : AnalysisProject;
  tasks : list AnalysisTask;
  keywords : list KeywordData;
  saves : list AnalysisProject;
  trace : list Trace
}.

Definition new_db : DB :=
  {| project := new_project; tasks := []; keywords := []; saves := []; trace := [] |}.

(** [project.save()]: every field of the in-memory object is written. *)
Definition save_project (p : AnalysisProject) (db : DB) : DB :=
  {| project := p; tasks := tasks db; keywords := keywords db;
     saves := saves db ++ [p]; trace := trace db |}.

Definition set_tasks (ts : list AnalysisTask) (db : DB) : DB :=
  {| project := project db; tasks := ts; keywords := keywords db;
     saves := saves db; trace := trace db |}.

Definition set_keywords (ks : list KeywordData) (db : DB) : DB :=
  {| project := project db; tasks := tasks db; keywords := ks;
     saves := saves db; trace := trace db |}.

Definition traced (t : Trace) (db : DB) : DB :=
  {| project := project db; tasks := tasks db; keywords := keywords db;
     saves := saves db; trace := trace db ++ [t] |}.

(** Changing fields of the task row [task_id] and saving it. *)
Definition update_task (task_id : nat) (f : AnalysisTask -> AnalysisTask) (db : DB) : DB :=
  set_tasks (alter f task_id (tasks db)) db.

(** [AnalysisTask.objects.create(project=project, task_type=...)]. *)
Definition create_task (ty : string) (db : DB) : DB * nat :=
  (set_tasks (tasks db ++ [{| task_type := ty; task_status := "pending";
                              result_data := NoData; result_count := 0;
                              progress_percentage := 0; task_error_message := "" |}]) db,
   length (tasks db)).

Definition task_running (t : AnalysisTask) : AnalysisTask :=
  {| task_type := task_type t; task_status := "running"; result_data := result_data t;
     result_count := result_count t; progress_percentage := progress_percentage t;
     task_error_message := task_error_message t |}.

Definition task_progress (pct : float) (t : AnalysisTask) : AnalysisTask :=
  {| task_type := task_type t; task_status := task_status t; result_data := result_data t;
     result_count := result_count t; progress_percentage := pct;
     task_error_message := task_error_message t |}.

(** The early returns on an empty input (lines 88-92, 199-203, 240-244,
    360-364). *)
Definition task_completed_empty (msg : string) (t : AnalysisTask) : AnalysisTask :=
  {| task_type := task_type t; task_status := "completed"; result_data := Message msg;
     result_count := 0; progress_percentage := progress_percentage t;
     task_error_message := task_error_message t |}.

(** The regular end of a stage (lines 118-132, 280-293, 441-451). *)
Definition task_completed (data : ResultData) (count : Z) (t : AnalysisTask) : AnalysisTask :=
  {| task_type := task_type t; task_status := "completed"; result_data := data;
     result_count := count; progress_percentage := 100;
     task_error_message := task_error_message t |}.

Definition task_failed (exc : string) (t : AnalysisTask) : AnalysisTask :=
  {| task_type := task_type t; task_status := "failed"; result_data := result_data t;
     result_count := result_count t; progress_percentage := progress_percentage t;
     task_error_message := exc |}.

Definition set_status (st : string) (p : AnalysisProject) : AnalysisProject :=
  {| status := st; total_steps := total_steps p; completed_steps := completed_steps p;
     current_step := current_step p; total_keywords := total_keywords p;
     aio_keywords := aio_keywords p; completion_percentage := completion_percentage p;
     error_message := error_message p |}.

Definition set_current_step (step : string) (p : AnalysisProject) : AnalysisProject :=
  {| status := status p; total_steps := total_steps p; completed_steps := completed_steps p;
     current_step := step; total_keywords := total_keywords p;
     aio_keywords := aio_keywords p; completion_percentage := completion_percentage p;
     error_message := error_message p |}.

(** [project.completed_steps += 1]. *)
Definition step_completed (p : AnalysisProject) : AnalysisProject :=
  {| status := status p; total_steps := total_steps p;
     completed_steps := completed_steps p + 1;
     current_step := current_step p; total_keywords := total_keywords p;
     aio_keywords := aio_keywords p; completion_percentage := completion_percentage p;
     error_message := error_message p |}.

Definition set_total_keywords (n : Z) (p : AnalysisProject) : AnalysisProject :=
  {| status := status p; total_steps := total_steps p; completed_steps := completed_steps p;
     current_step := current_step p; total_keywords := n;
     aio_keywords := aio_keywords p; completion_percentage := completion_percentage p;
     error_message := error_message p |}.

Definition set_aio_keywords (n : Z) (p : AnalysisProject) : AnalysisProject :=
  {| status := status p; total_steps := total_steps p; completed_steps := completed_steps p;
     current_step := current_step p; total_keywords := total_keywords p;
     aio_keywords := n; completion_percentage := completion_percentage p;
     error_message := error_message p |}.

Definition set_completion_percentage (x : float) (p : AnalysisProject) : AnalysisProject :=
  {| status := status p; total_steps := total_steps p; completed_steps := completed_steps p;
     current_step := current_step p; total_keywords := total_keywords p;
     aio_keywords := aio_keywords p; completion_percentage := x;
     error_message := error_message p |}.

Definition set_error_message (e : string) (p : AnalysisProject) : AnalysisProject :=
  {| status := status p; total_steps := total_steps p; completed_steps := completed_steps p;
     current_step := current_step p; total_keywords := total_keywords p;
     aio_keywords := aio_keywords p; completion_percentage := completion_percentage p;
     error_message := e |}.

(** The dictionary a stage task returns. *)
Inductive StageReturn :=
| GscDone (keywords_count : Z) (total_keywords : option Z)
| ExpansionDone (expanded_count : Z) (total_expanded : option Z)
| ValidationDone (verified_count : Z) (aio : option (Z * PyNum))
| ReportDone (report : string).

(** How one execution of a Celery task ends: it returns, it asks for a
    retry ([raise self.retry(exc=exc, countdown=...)]) or it raises. *)
Inductive Outcome :=
| Success (r : StageReturn)
| Retry (exc : string) (countdown : Z)
| Failure (exc : string).

Inductive Result (A : Type) :=
| Ok (a : A)
| Raised (exc : string).
Arguments Ok {A} a.
Arguments Raised {A} exc.

(** [KeywordData.objects.get_or_create(project=project, keyword=kw,
    defaults=...)]: the row of that keyword if there is one, else a new row
    built from the defaults.  Returns the index of the row and [created]. *)
Definition get_or_create (kw : string) (fresh : KeywordData) (db : DB) : DB * (nat * bool) :=
  match list_find (fun kd => kd_keyword kd = kw) (keywords db) with
  | Some (i, _) => (db, (i, false))
  | None => (set_keywords (keywords db ++ [fresh]) db, (length (keywords db), true))
  end.

(** The [except] block of a stage task (lines 147-161, 308-322, 470-484). *)
Definition on_failure (max_retries countdown : Z) (retries task_id : nat) (exc : string)
    (db : DB) : DB * Outcome :=
  let db := update_task task_id (task_failed exc) db in
  if bool_decide (Z.of_nat retries < max_retries)
  then (db, Retry exc (countdown * (Z.of_nat retries + 1)))
  else (db, Failure exc).

(** [task.delay(...)] followed by [.get()]: the worker executes the task,
    again after each [Retry] with [self.request.retries] one higher, and
    [get] hands back the value or raises the exception of the last
    execution.  Celery itself refuses a retry beyond [max_retries]. *)
Fixpoint delay_get (body : nat -> DB -> DB * Outcome) (max_retries retries : nat) (db : DB)
    : DB * Result StageReturn :=
  match body retries db with
  | (db', Success r) => (db', Ok r)
  | (db', Failure exc) => (db', Raised exc)
  | (db', Retry exc _) =>
      match max_retries with
      | O => (db', Raised exc)
      | S n => delay_get body n (S retries) db'
      end
  end.

(** *** M1 *)

Definition gsc_defaults (row : GscRow) : KeywordData :=
  {| kd_keyword := query row; source_type := "gsc";
     gsc_clicks := Some (clicks row); gsc_impressions := Some (impressions row);
     gsc_ctr := Some (ctr row); gsc_position := Some (position row);
     ads_search_volume := None; ads_competition_level := "";
     ads_competition_index := None; ads_low_bid := None; ads_high_bid := None;
     aio_verified := None; aio_triggers := None |}.

(** Lines 102-115: the body of the loop over the rows, on the pair of the
    database and [keywords_created]. *)
Definition store_gsc_row (acc : DB * Z) (row : GscRow) : DB * Z :=
  let r := get_or_create (query row) (gsc_defaults row) acc.1 in
  (r.1, if r.2.2 then acc.2 + 1 else acc.2).

(** What the stage tasks read from outside the database, per execution
    ([retries] = 0, 1, ...): the answers of Search Console and of Google Ads,
    the user's customer id and SERP key, and the responses the SERP requests
    meet (for the connection test; for the batch, per task and attempt). *)
Record Env {Data : Type} := {
  gsc : nat -> Call (list GscRow);
  google_ads_customer_id : string;
  ads : nat -> Call (list AdsRow);
  serp_api_key : string;
  serp_test : nat -> nat -> @Response Data;
  serp_batch : nat -> nat -> nat -> @Response Data
}.
Arguments Env : clear implicits.

Section Stages.

Context {Data : Type}.
Variable _parse_serp_response : string -> Data -> SERPResult.

(** [extract_gsc_data] (lines 30-161), one execution. *)
Definition extract_gsc_data (env : Env Data) (retries task_id : nat) (db : DB)
    : DB * Outcome :=
  let db := update_task task_id task_running db in
  let project := set_current_step "M1: GSC 數據擷取" (project db) in
  let db := save_project project db in
  let db := traced GscQueried db in
  match gsc env retries with
  | Raises exc => on_failure 3 60 retries task_id exc db
  | Returns [] =>
      let db := update_task task_id (task_completed_empty "未找到符合條件的關鍵字") db in
      (db, Success (GscDone 0 None))
  | Returns gsc_data =>
      let db := update_task task_id (task_progress 50) db in
      let stored := foldl store_gsc_row (db, 0) gsc_data in
      let db := stored.1 in
      let keywords_created := stored.2 in
      let db := update_task task_id
                  (task_completed (GscData (Z.of_nat (length gsc_data)) keywords_created)
                     keywords_created) db in
      let project := step_completed project in
      let project := set_total_keywords (Z.of_nat (length (keywords db))) project in
      let db := save_project project db in
      (db, Success (GscDone keywords_created (Some (Z.of_nat (length gsc_data)))))
  end.

(** *** M2 *)

Definition ads_defaults (row : AdsRow) : KeywordData :=
  {| kd_keyword := keyword_idea row; source_type := "ads_expansion";
     gsc_clicks := None; gsc_impressions := None; gsc_ctr := None; gsc_position := None;
     ads_search_volume := Some (search_volume row);
     ads_competition_level := competition_level row;
     ads_competition_index := Some (competition_index row);
     ads_low_bid := Some (low_top_of_page_bid_usd row);
     ads_high_bid := Some (high_top_of_page_bid_usd row);
     aio_verified := None; aio_triggers := None |}.

(** Lines 269-275: the Ads fields of an existing row are overwritten. *)
Definition update_ads (row : AdsRow) (kd : KeywordData) : KeywordData :=
  {| kd_keyword := kd_keyword kd; source_type := source_type kd;
     gsc_clicks := gsc_clicks kd; gsc_impressions := gsc_impressions kd;
     gsc_ctr := gsc_ctr kd; gsc_position := gsc_position kd;
     ads_search_volume := Some (search_volume row);
     ads_competition_level := competition_level row;
     ads_competition_index := Some (competition_index row);
     ads_low_bid := Some (low_top_of_page_bid_usd row);
     ads_high_bid := Some (high_top_of_page_bid_usd row);
     aio_verified := aio_verified kd; aio_triggers := aio_triggers kd |}.

(** Lines 254-277. *)
Definition store_ads_row (acc : DB * Z) (row : AdsRow) : DB * Z :=
  let r := get_or_create (keyword_idea row) (ads_defaults row) acc.1 in
  if r.2.2 then (r.1, acc.2 + 1)
  else (set_keywords (alter (update_ads row) r.2.1 (keywords r.1)) r.1, acc.2).

(** [expand_keywords] (lines 164-322), one execution. *)
Definition expand_keywords (env : Env Data) (retries task_id : nat) (db : DB)
    : DB * Outcome :=
  let db := update_task task_id task_running db in
  let project := set_current_step "M2: 關鍵字擴展" (project db) in
  let db := save_project project db in
  let seed_keywords :=
    kd_keyword <$> filter (fun kd => source_type kd = "gsc") (keywords db) in
  match seed_keywords with
  | [] =>
      let db := update_task task_id (task_completed_empty "沒有種子關鍵字可供擴展") db in
      (db, Success (ExpansionDone 0 None))
  | _ =>
      if bool_decide (google_ads_customer_id env = "")
      then on_failure 3 60 retries task_id "用戶未設置 Google Ads 客戶 ID" db
      else
        let db := traced (AdsQueried (take 20 seed_keywords)) db in
        match ads env retries with
        | Raises exc => on_failure 3 60 retries task_id exc db
        | Returns [] =>
            let db := update_task task_id (task_completed_empty "關鍵字擴展未產生結果") db in
            (db, Success (ExpansionDone 0 None))
        | Returns expanded_data =>
            let db := update_task task_id (task_progress 50) db in
            let stored := foldl store_ads_row (db, 0) expanded_data in
            let db := stored.1 in
            let keywords_created := stored.2 in
            let db := update_task task_id
                        (task_completed
                           (AdsData (Z.of_nat (length expanded_data)) keywords_created)
                           keywords_created) db in
            let project := step_completed project in
            let project := set_total_keywords (Z.of_nat (length (keywords db))) project in
            let db := save_project project db in
            (db, Success (ExpansionDone keywords_created
                            (Some (Z.of_nat (length expanded_data)))))
        end
  end.

(** *** M3 *)

(** The configuration of lines 372-386 ([provider] is not given, so it is
    the default, serper). *)
Definition serp_config : SERPHandler :=
  {| api_provider := serper; concurrent_requests := 3; rate_limit := 1 # 2;
     timeout := 30; retry_attempts := 2; retry_delay := 2 |}.

(** Lines 431-434. *)
Definition set_verified (has_aio : bool) (kd : KeywordData) : KeywordData :=
  {| kd_keyword := kd_keyword kd; source_type := source_type kd;
     gsc_clicks := gsc_clicks kd; gsc_impressions := gsc_impressions kd;
     gsc_ctr := gsc_ctr kd; gsc_position := gsc_position kd;
     ads_search_volume := ads_search_volume kd;
     ads_competition_level := ads_competition_level kd;
     ads_competition_index := ads_competition_index kd;
     ads_low_bid := ads_low_bid kd; ads_high_bid := ads_high_bid kd;
     aio_verified := Some true; aio_triggers := Some has_aio |}.

(** The query of lines 353-356. *)
Definition unverified (kd : KeywordData) : bool :=
  match aio_verified kd with
  | None => true
  | Some _ => false
  end.

(** Lines 423-438: the loop over [keywords_to_verify], run over the table;
    returns the table with [verified_count] and [aio_count]. *)
Fixpoint save_outcomes (validation_results : gmap string bool) (ks : list KeywordData)
    : list KeywordData * (Z * Z) :=
  match ks with
  | [] => ([], (0, 0))
  | keyword_data :: rest =>
      let r := save_outcomes validation_results rest in
      if unverified keyword_data then
        let has_aio := default false (validation_results !! kd_keyword keyword_data) in
        (set_verified has_aio keyword_data :: r.1,
         (r.2.1 + 1, if has_aio then r.2.2 + 1 else r.2.2))
      else (keyword_data :: r.1, r.2)
  end.

(** [validate_aio_triggers] (lines 325-484), one execution. *)
Definition validate_aio_triggers (env : Env Data) (retries task_id : nat) (db : DB)
    : DB * Outcome :=
  let db := update_task task_id task_running db in
  let project := set_current_step "M3: AIO 驗證" (project db) in
  let db := save_project project db in
  let keywords_to_verify := filter (fun kd => unverified kd = true) (keywords db) in
  match keywords_to_verify with
  | [] =>
      let db := update_task task_id (task_completed_empty "沒有關鍵字需要 AIO 驗證") db in
      (db, Success (ValidationDone 0 None))
  | _ =>
      if bool_decide (serp_api_key env = "")
      then on_failure 2 120 retries task_id "未設置 SERP API 金鑰" db
      else if bool_decide (serp_api_key env = "YOUR_SERP_API_KEY")
      then on_failure 2 120 retries task_id "SERP API key 未正確設置" db
      else
        let db := traced SerpTested db in
        if test_api_connection _parse_serp_response serp_config (serp_test env retries)
        then
          let keywords_list := kd_keyword <$> keywords_to_verify in
          let db := update_task task_id (task_progress 20) db in
          let db := traced (SerpBatch keywords_list) db in
          let validation_results :=
            (batch_validate_aio _parse_serp_response serp_config
               (serp_batch env retries) keywords_list).1 in
          let db := update_task task_id (task_progress 80) db in
          let saved := save_outcomes validation_results (keywords db) in
          let db := set_keywords saved.1 db in
          let verified_count := saved.2.1 in
          let aio_count := saved.2.2 in
          let db := update_task task_id
                      (task_completed
                         (ValidationData verified_count aio_count
                            (percentage aio_count verified_count)
                            (Z.of_nat (length keywords_list)))
                         verified_count) db in
          let project := step_completed project in
          let project :=
            set_aio_keywords
              (Z.of_nat (length (filter (fun kd => aio_triggers kd = Some true)
                                   (keywords db)))) project in
          let db := save_project project db in
          (db, Success (ValidationDone verified_count
                          (Some (aio_count, percentage aio_count verified_count))))
        else on_failure 2 120 retries task_id "SERP API 連接失敗" db
  end.

(** *** The orchestrator *)

(** [generate_comprehensive_report.delay(project_id, task_id).get()]: the
    reporting task lives in [apps/reports/tasks.py], which is not part of
    the sources at hand; it is a parameter, given the task id and the
    database and handing back the database and what [get] yields. *)
Variable generate_comprehensive_report : nat -> DB -> DB * Result StageReturn.

(** The [results] dictionary of line 538. *)
Record Results := {
  r_gsc : StageReturn;
  r_expansion : StageReturn;
  r_validation : StageReturn;
  r_report : StageReturn
}.

(** Lines 540-553: M1, M2 and M3, each dispatched and awaited in turn,
    whatever the one before returned. *)
Definition run_stages (env : Env Data) (gsc_task expansion_task validation_task : nat)
    (db : DB) : DB * Result (StageReturn * StageReturn * StageReturn) :=
  let db := traced (Delayed "gsc_extraction") db in
  match delay_get (fun retries => extract_gsc_data env retries gsc_task) 3 0 db with
  | (db, Raised exc) => (db, Raised exc)
  | (db, Ok gsc_result) =>
    let db := traced (Delayed "keyword_expansion") db in
    match delay_get (fun retries => expand_keywords env retries expansion_task) 3 0 db with
    | (db, Raised exc) => (db, Raised exc)
    | (db, Ok expansion_result) =>
      let db := traced (Delayed "aio_validation") db in
      match delay_get (fun retries => validate_aio_triggers env retries validation_task)
              2 0 db with
      | (db, Raised exc) => (db, Raised exc)
      | (db, Ok validation_result) =>
          (db, Ok (gsc_result, expansion_result, validation_result))
      end
    end
  end.

(** [run_complete_analysis] (lines 487-583).  [project] is the object
    loaded at line 499; the stage tasks load and save objects of their own,
    and lines 562-565 and 579-581 save this one, with the field values it
    was loaded with apart from the ones assigned here. *)
Definition run_complete_analysis (env : Env Data) (db : DB) : DB * Result Results :=
  let project := set_status "running" (project db) in
  let db := save_project project db in
  let '(db, gsc_task) := create_task "gsc_extraction" db in
  let '(db, expansion_task) := create_task "keyword_expansion" db in
  let '(db, validation_task) := create_task "aio_validation" db in
  let '(db, report_task) := create_task "report_generation" db in
  let failed exc db :=
    let project := set_error_message exc (set_status "failed" project) in
    (save_project project db, Raised exc) in
  match run_stages env gsc_task expansion_task validation_task db with
  | (db, Raised exc) => failed exc db
  | (db, Ok (gsc_result, expansion_result, validation_result)) =>
    let db := traced (Delayed "report_generation") db in
    match generate_comprehensive_report report_task db with
    | (db, Raised exc) => failed exc db
    | (db, Ok report_result) =>
        let project := set_completion_percentage 100 (set_status "completed" project) in
        let db := save_project project db in
        (db, Ok {| r_gsc := gsc_result; r_expansion := expansion_result;
                   r_validation := validation_result; r_report := report_result |})
    end
  end.


End Stages.

(** *** What the properties below speak of *)

(** The database of lines 499-535: the project saved as running and the
    four tasks created. *)
Definition started (db : DB) : DB :=
  (create_task "report_generation"
     (create_task "aio_validation"
        (create_task "keyword_expansion"
           (create_task "gsc_extraction"
              (save_project (set_status "running" (project db)) db)).1).1).1).1.

(** From [db] to [db'] the project row kept [total_steps = T], and every
    value saved to it, the last one included, has [completed_steps <= x]. *)
Definition bounded (x T : Z) (db db' : DB) : Prop :=
  total_steps (project db') = T
  /\ completed_steps (project db') <= x
  /\ exists new, saves db' = saves db ++ new
       /\ Forall (fun p => total_steps p = T /\ completed_steps p <= x) new.




(** The same keyword with the same validation outcome. *)
Definition same_outcome (kd kd' : KeywordData) : Prop :=
  kd_keyword kd' = kd_keyword kd
  /\ aio_verified kd' = aio_verified kd
  /\ aio_triggers kd' = aio_triggers kd.

(** The keywords of the rows, in table order. *)
Definition stored_keywords (db : DB) : list string := kd_keyword <$> keywords db.

(** [kd'] is [kd] apart from its Google Ads fields. *)
Definition same_but_ads (kd kd' : KeywordData) : Prop :=
  kd_keyword kd' = kd_keyword kd
  /\ source_type kd' = source_type kd
  /\ gsc_clicks kd' = gsc_clicks kd
  /\ gsc_impressions kd' = gsc_impressions kd
  /\ gsc_ctr kd' = gsc_ctr kd
  /\ gsc_position kd' = gsc_position kd
  /\ aio_verified kd' = aio_verified kd
  /\ aio_triggers kd' = aio_triggers kd.

(** The seed keywords M2 reads (lines 192-195) and the keywords M3 has
    still to validate (lines 353-356, 402), in table order. *)
Definition seed_keywords (db : DB) : list string :=
  kd_keyword <$> filter (fun kd => source_type kd = "gsc") (keywords db).

Definition pending_keywords (db : DB) : list string :=
  kd_keyword <$> filter (fun kd => unverified kd = true) (keywords db).

End Tasks.

(** ** report_generator.py, the summary statistics of [_preprocess_data] *)

Module ReportGenerator.

(** Lines 128-132: [analysis_data] is the expanded frame, each row with its
    [triggers_aio] cell ([None]: no value); the result is [None] when the
    frame is empty and [summary_stats] stays the empty dictionary. *)
Definition summary_stats (analysis_data : list (AdsRow * option bool))
    : option (Z * Z * PyNum) :=
  match analysis_data with
  | [] => None
  | _ =>
      let total_keywords := Z.of_nat (length analysis_data) in
      let aio_keywords :=
        Z.of_nat (length (filter (fun row => row.2 = Some true) analysis_data)) in
      Some (total_keywords, aio_keywords, percentage aio_keywords total_keywords)
  end.

End ReportGenerator.

(** ** aio_analyzer.py, the command-line driver *)

Module Analyzer.
Import SerpHandler.

(** What [run_full_analysis] returns: one of the two [failed] dictionaries
    (lines 252, 258) or the summary of lines 271-282. *)
Inductive Summary :=
| Failed (message : string)
| Completed (seed_keywords_count expanded_keywords_count aio_triggers_count : Z)
    (aio_percentage : PyNum) (report_path : string).

Definition status (s : Summary) : string :=
  match s with
  | Failed _ => "failed"
  | Completed _ _ _ _ _ => "completed"
  end.

(** Which of the four steps ran. *)
Inductive Step := Extraction | Expansion | Validation | Reporting.

Record Env {Data : Type} := {
  configuration_valid : bool;
  gsc : Call (list GscRow);
  ads : Call (list AdsRow);
  serp : nat -> nat -> @Response Data;
  report : Call string
}.
Arguments Env : clear implicits.

Section Driver.

Context {Data : Type}.
Variable _parse_serp_response : string -> Data -> SERPResult.
Variable handler : SERPHandler.
(** [round(x, 2)] of line 280. *)
Variable round2 : PyNum -> PyNum.

(** Lines 93-127: an exception of the handler is turned into an empty
    frame. *)
Definition extract_seed_keywords (env : Env Data) : list GscRow :=
  match gsc env with
  | Returns gsc_data => gsc_data
  | Raises _ => []
  end.

(** Lines 129-160. *)
Definition expand_keywords (env : Env Data) (seed_keywords : list string) : list AdsRow :=
  match seed_keywords with
  | [] => []
  | _ =>
      match ads env with
      | Returns expanded_data => expanded_data
      | Raises _ => []
      end
  end.

(** Lines 162-194: the frame with the column [triggers_aio] added. *)
Definition validate_aio_triggers (env : Env Data) (keywords_df : list AdsRow)
    : list (AdsRow * option bool) :=
  let validated_data :=
    (batch_validate_aio _parse_serp_response handler (serp env)
       (keyword_idea <$> keywords_df)).1 in
  (fun row => (row, validated_data !! keyword_idea row)) <$> keywords_df.

(** Lines 196-223. *)
Definition generate_comprehensive_report (env : Env Data) : string :=
  match report env with
  | Returns report_path => report_path
  | Raises _ => ""
  end.

(** [run_full_analysis] (lines 225-287): the steps it ran and what it
    returned ([Raised]: the [ValueError] of line 239). *)
Definition run_full_analysis (env : Env Data) : list Step * Tasks.Result Summary :=
  if configuration_valid env then
    let gsc_data := extract_seed_keywords env in
    match gsc_data with
    | [] => ([Extraction], Tasks.Ok (Failed "無法獲取種子關鍵字"))
    | _ =>
      let seed_keywords := query <$> gsc_data in
      let expanded_data := expand_keywords env seed_keywords in
      match expanded_data with
      | [] => ([Extraction; Expansion], Tasks.Ok (Failed "關鍵字擴展失敗"))
      | _ =>
        let validated_data := validate_aio_triggers env expanded_data in
        let report_path := generate_comprehensive_report env in
        let total_keywords := Z.of_nat (length validated_data) in
        let aio_keywords :=
          Z.of_nat (length (filter (fun row => row.2 = Some true) validated_data)) in
        let aio_percentage := percentage aio_keywords total_keywords in
        ([Extraction; Expansion; Validation; Reporting],
         Tasks.Ok (Completed (Z.of_nat (length gsc_data)) total_keywords aio_keywords
                     (round2 aio_percentage) report_path))
      end
    end
  else ([], Tasks.Raised "配置驗證失敗，請檢查配置文件").

End Driver.

End Analyzer.

(** ** Python values: what YAML and JSON documents decode to *)

Module Py.

(** [dict]s are keyed by strings and kept in insertion order, without
    repeated keys. *)
#[warnings="-register-all"]
Inductive Value :=
| VNone
| VBool (b : bool)
| VInt (z : Z)
| VFloat (f : float)
| VStr (s : string)
| VList (items : list Value)
| VDict (items : list (string * Value)).

Definition Dict : Type := list (string * Value).

(** [d.get(key)] / [key in d] / [d[key]]. *)
Fixpoint dict_get (key : string) (d : Dict) : option Value :=
  match d with
  | [] => None
  | (k, v) :: rest => if decide (k = key) then Some v else dict_get key rest
  end.

(** [d[key] = value]: an existing key keeps its place, a new one goes to
    the end. *)
Fixpoint dict_set (key : string) (value : Value) (d : Dict) : Dict :=
  match d with
  | [] => [(key, value)]
  | (k, v) :: rest =>
      if decide (k = key) then (key, value) :: rest else (k, v) :: dict_set key value rest
  end.

(** [s.split(sep)] for a separator of one character. *)
Fixpoint split (sep : Ascii.ascii) (s : string) : list string :=
  match s with
  | EmptyString => [EmptyString]
  | String c rest =>
      if decide (c = sep) then EmptyString :: split sep rest
      else match split sep rest with
           | first :: others => String c first :: others
           | [] => [String c EmptyString]
           end
  end.

(** The keys of a dictionary are distinct, and so on in the dictionaries
    it holds as values. *)
Fixpoint well_formed (v : Value) : Prop :=
  match v with
  | VDict items =>
      NoDup (items.*1)
      /\ (fix all (items : Dict) : Prop :=
            match items with
            | [] => True
            | (_, v) :: rest => well_formed v /\ all rest
            end) items
  | _ => True
  end.

Definition is_dict (v : Value) : bool :=
  match v with
  | VDict _ => true
  | _ => false
  end.

End Py.

(** ** Operations on Python values of unknown type *)

Module PyOps.
Import Py.

(** Operations on a value of unknown type.  [None]: the operation raises
    ([TypeError], [AttributeError], [KeyError] or [ValueError]). *)

(** [needle in hay] on two strings. *)
Fixpoint infix (needle hay : string) : bool :=
  String.prefix needle hay
  || match hay with
     | EmptyString => false
     | String _ rest => infix needle rest
     end.

(** [key in v] for a string [key]: a key of a dictionary, an element of
    a list, a substring of a string; other values are not iterable. *)
Definition contains (key : string) (v : Value) : option bool :=
  match v with
  | VDict d => Some (bool_decide (is_Some (dict_get key d)))
  | VList items =>
      Some (existsb (fun x => match x with
                              | VStr s => bool_decide (s = key)
                              | _ => false
                              end) items)
  | VStr s => Some (infix key s)
  | _ => None
  end.

(** [v[key]] for a string [key]. *)
Definition item (v : Value) (key : string) : option Value :=
  match v with
  | VDict d => dict_get key d
  | _ => None
  end.

(** [v.get(key, default)]: only dictionaries have the method. *)
Definition get (v : Value) (key : string) (default : Value) : option Value :=
  match v with
  | VDict d => Some (from_option id default (dict_get key d))
  | _ => None
  end.

(** [bool(v)]. *)
Definition truthy (v : Value) : bool :=
  match v with
  | VNone => false
  | VBool b => b
  | VInt z => negb (z =? 0)
  | VFloat f => negb (PrimFloat.eqb f 0)
  | VStr s => negb (bool_decide (s = ""))
  | VList items => negb (bool_decide (items = []))
  | VDict d => negb (bool_decide (d = []))
  end.

(** [v == s] for a string [s]. *)
Definition eq_str (v : Value) (s : string) : bool :=
  match v with
  | VStr s' => bool_decide (s' = s)
  | _ => false
  end.

(** [v < 0]. *)
Definition negative (v : Value) : option bool :=
  match v with
  | VBool _ => Some false
  | VInt z => Some (z <? 0)
  | VFloat f => Some (PrimFloat.ltb f 0)
  | _ => None
  end.

(** The characters of a string held as UTF-8: a byte [10xxxxxx] continues
    the character before it. *)
Definition continuation (c : ascii) : bool :=
  match c with
  | Ascii _ _ _ _ _ _ b6 b7 => b7 && negb b6
  end.

Fixpoint chars (s : string) : list string :=
  match s with
  | EmptyString => []
  | String c rest =>
      let others := chars rest in
      match rest, others with
      | String c' _, first :: more =>
          if continuation c' then String c first :: more
          else String c EmptyString :: others
      | _, _ => String c EmptyString :: others
      end
  end.

(** [v[:n]]: lists and strings can be sliced. *)
Definition first (n : nat) (v : Value) : option Value :=
  match v with
  | VList items => Some (VList (take n items))
  | VStr s => Some (VStr (String.concat "" (take n (chars s))))
  | _ => None
  end.

(** What [for x in v] runs over, for a value that was sliced. *)
Definition elements (v : Value) : list Value :=
  match v with
  | VList items => items
  | VStr s => VStr <$> chars s
  | _ => []
  end.

(** [s.replace(',', '')]. *)
Fixpoint without_commas (s : string) : string :=
  match s with
  | EmptyString => EmptyString
  | String c rest =>
      if decide (c = ","%char) then without_commas rest else String c (without_commas rest)
  end.

End PyOps.

(** ** config/settings.py *)

Module Settings.
Import Py.

(** [Config.get] (lines 150-170) after the [split]: the walk down the
    dictionaries; [None]: [return default]. *)
Fixpoint get_path (keys : list string) (value : Value) : option Value :=
  match keys with
  | [] => Some value
  | key :: keys' =>
      match value with
      | VDict d =>
          match dict_get key d with
          | Some v => get_path keys' v
          | None => None
          end
      | _ => None
      end
  end.

Definition get (_config : Value) (section : string) (default : Value) : Value :=
  let keys := split "."%char section in
  from_option id default (get_path keys _config).

(** [Config.set] (lines 172-188) after the [split]; [None]: a [TypeError],
    raised at a value on the way that is not a dictionary before anything
    was changed, or (for no keys at all) the [IndexError] of [keys[-1]]. *)
Fixpoint set_path (keys : list string) (value : Value) (config : Value) : option Value :=
  match config with
  | VDict d =>
      match keys with
      | [] => None
      | [key] => Some (VDict (dict_set key value d))
      | key :: keys' =>
          match set_path keys' value (default (VDict []) (dict_get key d)) with
          | Some sub => Some (VDict (dict_set key sub d))
          | None => None
          end
      end
  | _ => None
  end.

Definition set (_config : Value) (section : string) (value : Value) : option Value :=
  set_path (split "."%char section) value _config.

(** [Config.validate] (lines 190-211). *)
Definition required_fields : list string :=
  ["gsc.credentials_file"; "ads.yaml_file"; "serp.api_key"; "analysis.site_url";
   "analysis.customer_id"].

Definition validate (_config : Value) : bool :=
  forallb (fun field =>
             let value := Settings.get _config field VNone in
             negb (negb (PyOps.truthy value) || PyOps.eq_str value "YOUR_API_KEY"
                   || PyOps.eq_str value "your-domain.com"))
    required_fields.

(** [_merge_config] (lines 142-148).  The recursion is on [custom]; the
    inner loop is the [for] over [custom.items()]. *)
Fixpoint merge_value (base : Dict) (custom : Value) {struct custom} : Dict :=
  match custom with
  | VDict items =>
      (fix loop (items : Dict) (base : Dict) {struct items} : Dict :=
         match items with
         | [] => base
         | (key, value) :: rest =>
             loop rest
               match dict_get key base, value with
               | Some (VDict b), VDict _ => dict_set key (VDict (merge_value b value)) base
               | _, _ => dict_set key value base
               end
         end) items base
  | _ => base
  end.

Definition _merge_config (base custom : Dict) : Dict := merge_value base (VDict custom).

(** [_load_custom_config] (lines 103-120): [custom_config] is what the file
    decodes to ([None]: opening or decoding it raised).  A value that is not
    a dictionary makes [custom.items()] raise, which the [except] swallows
    like any other exception. *)
Definition _load_custom_config (custom_config : option Value) (_config : Dict) : Dict :=
  match custom_config with
  | Some (VDict custom) => _merge_config _config custom
  | _ => _config
  end.

(** Lines 124-133. *)
Definition env_mappings : list (string * (string * string)) :=
  [("GSC_CREDENTIALS_FILE", ("gsc", "credentials_file"));
   ("GSC_TOKEN_FILE", ("gsc", "token_file"));
   ("GOOGLE_ADS_YAML_FILE", ("ads", "yaml_file"));
   ("SERP_API_KEY", ("serp", "api_key"));
   ("SITE_URL", ("analysis", "site_url"));
   ("CUSTOMER_ID", ("analysis", "customer_id"));
   ("LOG_LEVEL", ("logging", "level"));
   ("OUTPUT_DIR", ("output", "directory"))].

(** Lines 135-140, one iteration; [None]: [self._config[section]] is not a
    dictionary and the item assignment raises [TypeError]. *)
Definition load_variable (getenv : string -> option string) (_config : option Dict)
    (mapping : string * (string * string)) : option Dict :=
  match _config with
  | None => None
  | Some _config =>
      let '(env_var, (section, key)) := mapping in
      match getenv env_var with
      | None => Some _config
      | Some value =>
          if bool_decide (value = "") then Some _config else
          let _config :=
            match dict_get section _config with
            | None => dict_set section (VDict []) _config
            | Some _ => _config
            end in
          match dict_get section _config with
          | Some (VDict d) =>
              Some (dict_set section (VDict (dict_set key (VStr value) d)) _config)
          | _ => None
          end
      end
  end.

Definition _load_from_environment (getenv : string -> option string) (_config : Dict)
    : option Dict :=
  foldl (load_variable getenv) (Some _config) env_mappings.

(** What [_merge_config] leaves under a key of [custom]: the merged
    dictionary when both sides hold one, else the value of [custom]. *)
Definition merged_entry (old : option Value) (value : Value) : Value :=
  match old, value with
  | Some (VDict b), VDict c => VDict (_merge_config b c)
  | _, _ => value
  end.

(** The walk down [custom] along [keys] comes to a dictionary that lacks
    the next key: [custom] says nothing about that setting. *)
Fixpoint not_mentioned (keys : list string) (custom : Value) : bool :=
  match keys, custom with
  | key :: keys', VDict d =>
      match dict_get key d with
      | None => true
      | Some v => not_mentioned keys' v
      end
  | _, _ => false
  end.


(** What [os.getenv] leaves in a setting whose default is [default]. *)
Definition effective (getenv : string -> option string) (env_var default : string) : string :=
  match getenv env_var with
  | Some value => if bool_decide (value = "") then default else value
  | None => default
  end.

(** Every section is a dictionary. *)
Definition sections_are_dicts (_config : Dict) : Prop :=
  forall section v, dict_get section _config = Some v -> is_dict v = true.

Section Defaults.

(** [str(CONFIG_DIR / name)] and [str(PROJECT_ROOT / name)]. *)
Variable config_path : string -> string.
Variable project_path : string -> string.

(** [_load_default_config] (lines 40-101). *)
Definition _load_default_config : Dict :=
  [("gsc", VDict [("credentials_file", VStr (config_path "credentials.json"));
                  ("token_file", VStr (config_path "token.json"));
                  ("scopes",
                   VList [VStr "https://www.googleapis.com/auth/webmasters.readonly"])]);
   ("ads", VDict [("yaml_file", VStr (config_path "google-ads.yaml"));
                  ("language_code", VStr "gid/1001");
                  ("geo_target_code", VStr "gid/1013274");
                  ("keyword_limit", VInt 20)]);
   ("serp", VDict [("api_key", VStr "YOUR_SERP_API_KEY");
                   ("endpoint", VStr "https://serpapi.com/search.json");
                   ("country", VStr "tw");
                   ("language", VStr "zh-tw");
                   ("concurrent_requests", VInt 10);
                   ("rate_limit", VFloat 1)]);
   ("analysis",
    VDict [("site_url", VStr "sc-domain:your-domain.com");
           ("customer_id", VStr "123-456-7890");
           ("default_days_back", VInt 90);
           ("default_regex",
            VStr "^(what|how|why|when|where|who|which|什麼|如何|為何|哪裡|誰是)\b");
           ("row_limit", VInt 5000)]);
   ("output", VDict [("directory", VStr (project_path "output"));
                     ("format", VStr "csv");
                     ("include_charts", VBool true);
                     ("timestamp_format", VStr "%Y%m%d_%H%M%S")]);
   ("logging",
    VDict [("level", VStr "INFO");
           ("format", VStr "%(asctime)s - %(name)s - %(levelname)s - %(message)s");
           ("file", VStr (project_path "logs/aio_analyzer.log"));
           ("max_bytes", VInt 10485760);
           ("backup_count", VInt 5)]);
   ("performance", VDict [("timeout", VInt 30);
                          ("retry_attempts", VInt 3);
                          ("retry_delay", VInt 1);
                          ("chunk_size", VInt 100)])].

(** [Config.__init__] (lines 24-38).  [config_file]: [None] when no file
    is named or the named file does not exist, else what
    [_load_custom_config] finds in it.  [None] as the result: the
    constructor raises. *)
Definition __init__ (config_file : option (option Value))
    (getenv : string -> option string) : option Dict :=
  let _config := _load_default_config in
  let _config :=
    match config_file with
    | Some custom_config => _load_custom_config custom_config _config
    | None => _config
    end in
  _load_from_environment getenv _config.

End Defaults.

End Settings.


(** ** serp_handler.py, [_parse_serp_response] *)

Module Parser.
Import Py PyOps SerpHandler.

(** The [SERPResult] the parser builds.  The dataclass does not check the
    types of its fields: [aio_content] and [total_results] hold whatever the
    body held there.  [error]: whether the error text is set. *)
Record SERPResult := {
  keyword : string;
  has_aio : bool;
  aio_content : Value;
  total_results : Value;
  error : bool
}.

Section Parse.

(** [str.lower], [str.isdigit] and [int] on a string ([None]:
    [ValueError]), which follow the Unicode tables. *)
Variable str_lower : string -> string.
Variable str_isdigit : string -> bool.
Variable int_of_str : string -> option Z.

(** [v.lower()]: a method of strings only. *)
Definition lower (v : Value) : option string :=
  match v with
  | VStr s => Some (str_lower s)
  | _ => None
  end.

(** Lines 205-215, on [(has_aio, aio_content)]. *)
Definition serper_overview (data : Value) : option (bool * Value) :=
  in_overview ← contains "aiOverview" data;
  if in_overview : bool then
    overview ← item data "aiOverview";
    snippet ← get overview "snippet" (VStr "");
    Some (true, snippet)
  else
    in_box ← contains "answerBox" data;
    if in_box : bool then
      answer_box ← item data "answerBox";
      has_snippet ← contains "snippet" answer_box;
      generated ←
        (if has_snippet : bool then
           title ← get answer_box "title" (VStr "");
           title ← lower title;
           if infix "ai" title then Some true
           else
             snippet ← get answer_box "snippet" (VStr "");
             snippet ← lower snippet;
             Some (infix "generated" snippet)
         else Some false);
      if generated : bool then
        snippet ← get answer_box "snippet" (VStr "");
        Some (true, snippet)
      else Some (false, VNone)
    else Some (false, VNone).

(** Lines 218-222. *)
Definition serper_knowledge_graph (data : Value) (found : bool * Value)
    : option (bool * Value) :=
  if found.1 then Some found
  else
    in_graph ← contains "knowledgeGraph" data;
    if in_graph : bool then
      kg ← item data "knowledgeGraph";
      ai_generated ← contains "aiGenerated" kg;
      generated ←
        (if ai_generated : bool then Some true
         else
           has_type ← contains "type" kg;
           if has_type : bool then
             type ← item kg "type";
             type ← lower type;
             Some (infix "ai" type)
           else Some false);
      if generated : bool then
        description ← get kg "description" (VStr "");
        Some (true, description)
      else Some found
    else Some found.

(** Lines 227-229, the condition on one organic result. *)
Definition serper_result_marked (result : Value) : option bool :=
  ai_generated ← contains "aiGenerated" result;
  if ai_generated : bool then Some true
  else
    generated_by_ai ← contains "generatedByAI" result;
    if generated_by_ai : bool then Some true
    else
      snippet ← get result "snippet" (VStr "");
      snippet ← lower snippet;
      Some (infix "ai generated" snippet).

(** The [for] loops of lines 226-231 and 255-258: [Some true] at the
    first marked result ([break]). *)
Fixpoint any_marked (marked : Value -> option bool) (results : list Value) : option bool :=
  match results with
  | [] => Some false
  | result :: rest =>
      m ← marked result;
      if m : bool then Some true else any_marked marked rest
  end.

(** Lines 225-231 and 254-258. *)
Definition organic (key : string) (marked : Value -> option bool) (data : Value)
    (found : bool * Value) : option (bool * Value) :=
  if found.1 then Some found
  else
    in_data ← contains key data;
    if in_data : bool then
      results ← item data key;
      results ← first 3 results;
      m ← any_marked marked (elements results);
      Some (if m : bool then (true, found.2) else found)
    else Some found.

(** Lines 234-236. *)
Definition serper_total_results (data : Value) : option Value :=
  information ← get data "searchInformation" (VDict []);
  total_results ← get information "totalResults" (VInt 0);
  match total_results with
  | VStr s =>
      if str_isdigit (without_commas s)
      then z ← int_of_str (without_commas s); Some (VInt z)
      else Some (VInt 0)
  | _ => Some total_results
  end.

(** Lines 240-251. *)
Definition other_overview (data : Value) : option (bool * Value) :=
  in_overview ← contains "ai_overview" data;
  if in_overview : bool then
    overview ← item data "ai_overview";
    snippet ← get overview "snippet" (VStr "");
    Some (true, snippet)
  else
    in_graph ← contains "knowledge_graph" data;
    is_overview ←
      (if in_graph : bool then
         kg ← item data "knowledge_graph";
         type ← get kg "type" VNone;
         Some (match type with
               | VStr s => bool_decide (s = "ai_overview")
               | _ => false
               end)
       else Some false);
    if is_overview : bool then
      kg ← item data "knowledge_graph";
      description ← get kg "description" (VStr "");
      Some (true, description)
    else
      in_box ← contains "answer_box" data;
      is_ai ←
        (if in_box : bool then
           box ← item data "answer_box";
           type ← get box "type" (VStr "");
           type ← lower type;
           Some (infix "ai" type)
         else Some false);
      if is_ai : bool then
        box ← item data "answer_box";
        answer ← get box "answer" (VStr "");
        Some (true, answer)
      else Some (false, VNone).

(** Line 256. *)
Definition other_result_marked (result : Value) : option bool :=
  ai_generated ← contains "ai_generated" result;
  if ai_generated : bool then Some true else contains "generated_by_ai" result.

(** Line 260. *)
Definition other_total_results (data : Value) : option Value :=
  information ← get data "search_information" (VDict []);
  get information "total_results" (VInt 0).

(** The [try] block (lines 196-267); [None]: an exception was raised. *)
Definition parsed (provider : Provider) (keyword : string) (data : Value)
    : option SERPResult :=
  found ←
    match provider with
    | serper =>
        found ← serper_overview data;
        found ← serper_knowledge_graph data found;
        found ← organic "organic" serper_result_marked data found;
        total_results ← serper_total_results data;
        Some (found, total_results)
    | other_provider =>
        found ← other_overview data;
        found ← organic "organic_results" other_result_marked data found;
        total_results ← other_total_results data;
        Some (found, total_results)
    end;
  let '(has_aio, aio_content, total_results) := found in
  aio_content ← (if truthy aio_content then first 500 aio_content else Some VNone);
  Some {| keyword := keyword; has_aio := has_aio; aio_content := aio_content;
          total_results := total_results; error := false |}.

(** [_parse_serp_response] (lines 185-275): the result of the [try]
    block, or the one of the [except] clause (lines 269-275). *)
Definition _parse_serp_response (provider : Provider) (keyword : string) (data : Value)
    : SERPResult :=
  default {| keyword := keyword; has_aio := false; aio_content := VNone;
             total_results := VInt 0; error := true |}
    (parsed provider keyword data).

End Parse.

(** The keys of the body each provider's branch reads. *)
Definition read_keys (provider : Provider) : list string :=
  match provider with
  | serper => ["aiOverview"; "answerBox"; "knowledgeGraph"; "organic"; "searchInformation"]
  | other_provider =>
      ["ai_overview"; "knowledge_graph"; "answer_box"; "organic_results";
       "search_information"]
  end.

(** The number of characters of a string held as UTF-8: the bytes that
    do not continue a character. *)
Fixpoint char_count (s : string) : nat :=
  match s with
  | EmptyString => 0
  | String c rest => ((if continuation c then 0 else 1) + char_count rest)%nat
  end.

(** Every byte after the first continues the character. *)
Definition one_char (s : string) : Prop :=
  match s with
  | EmptyString => True
  | String _ rest => char_count rest = 0%nat
  end.

(** A content of at most [n] characters or items. *)
Definition at_most (n : nat) (content : Value) : Prop :=
  match content with
  | VNone => True
  | VStr s => (char_count s <= n)%nat
  | VList items => (length items <= n)%nat
  | _ => False
  end.

(** What the [except] clause returns. *)
Definition parse_error (keyword : string) : SERPResult :=
  {| keyword := keyword; has_aio := false; aio_content := VNone; total_results := VInt 0;
     error := true |}.

(** What a body without a mark of an overview gives. *)
Definition no_overview (keyword : string) : SERPResult :=
  {| keyword := keyword; has_aio := false; aio_content := VNone; total_results := VInt 0;
     error := false |}.

End Parser.


(** ** serp_handler.py, the constructor of [SERPHandler] *)

Module Construction.
Import Py PyOps.

(** The attributes [__init__] sets, as it read them. *)
Record Attributes := {
  serp_config : Value;
  api_provider : Value;
  api_key : Value;
  endpoint : Value;
  country : Value;
  language : Value;
  concurrent_requests : Value;
  rate_limit : Value;
  performance_config : Value;
  timeout : Value;
  retry_attempts : Value;
  retry_delay : Value
}.

(** [_validate_config] (lines 69-74); [None]: the [ValueError]. *)
Definition _validate_config (api_key : Value) : option unit :=
  if negb (truthy api_key) || eq_str api_key "YOUR_SERP_API_KEY" then None else Some tt.

(** [asyncio.Semaphore(value)] raises unless [value < 0] is false. *)
Definition Semaphore (value : Value) : option unit :=
  match negative value with
  | Some false => Some tt
  | _ => None
  end.

(** [SERPHandler.__init__] (lines 34-67).  [config] is the dictionary of a
    [Config] or a plain dictionary: for a key without a dot the two [get]
    agree. *)
Definition __init__ (config : Value) : option Attributes :=
  let serp_config := Settings.get config "serp" (VDict []) in
  api_provider ← PyOps.get serp_config "provider" (VStr "serper");
  api_key ← PyOps.get serp_config "api_key" VNone;
  endpoint ← PyOps.get serp_config "endpoint" (VStr "https://google.serper.dev/search");
  country ← PyOps.get serp_config "country" (VStr "tw");
  language ← PyOps.get serp_config "language" (VStr "zh-tw");
  concurrent_requests ← PyOps.get serp_config "concurrent_requests" (VInt 10);
  rate_limit ← PyOps.get serp_config "rate_limit" (VFloat 1);
  let performance_config := Settings.get config "performance" (VDict []) in
  timeout ← PyOps.get performance_config "timeout" (VInt 30);
  retry_attempts ← PyOps.get performance_config "retry_attempts" (VInt 3);
  retry_delay ← PyOps.get performance_config "retry_delay" (VInt 1);
  _ ← _validate_config api_key;
  _ ← Semaphore concurrent_requests;
  Some {| serp_config := serp_config; api_provider := api_provider; api_key := api_key;
          endpoint := endpoint; country := country; language := language;
          concurrent_requests := concurrent_requests; rate_limit := rate_limit;
          performance_config := performance_config; timeout := timeout;
          retry_attempts := retry_attempts; retry_delay := retry_delay |}.

End Construction.

(** ** aio_analyzer.py, [validate_configuration] *)

Module AnalyzerConfig.
Import Py PyOps.

(** [self.config.get(section, {}).get(key)]. *)
Definition setting (config : Value) (section key : string) : option Value :=
  PyOps.get (Settings.get config section (VDict [])) key VNone.

(** The loop of lines 85-88 over the files. *)
Fixpoint files_exist (path_exists : Value -> option bool) (files : list Value) : option bool :=
  match files with
  | [] => Some true
  | file_path :: rest =>
      if truthy file_path then
        match path_exists file_path with
        | Some true => files_exist path_exists rest
        | Some false => Some false
        | None => None
        end
      else files_exist path_exists rest
  end.

(** [validate_configuration] (lines 57-91).  [path_exists] is
    [os.path.exists]; [None]: an exception. *)
Definition validate_configuration (path_exists : Value -> option bool) (config : Value)
    : option bool :=
  credentials_file ← setting config "gsc" "credentials_file";
  yaml_file ← setting config "ads" "yaml_file";
  api_key ← setting config "serp" "api_key";
  site_url ← setting config "analysis" "site_url";
  customer_id ← setting config "analysis" "customer_id";
  if existsb (fun config_value =>
                negb (truthy config_value) || eq_str config_value "YOUR_API_KEY")
       [credentials_file; yaml_file; api_key; site_url; customer_id]
  then Some false
  else files_exist path_exists [credentials_file; yaml_file].

End AnalyzerConfig.

(** ** local_preview/app.py, the pipeline of the local preview *)

Module LocalPreview.
Import SerpHandler.

(** A row of the frame [_execute_keyword_expansion] builds. *)
Record ExpandedRow := {
  keyword_idea : string;
  search_volume : Z;
  competition_level : string;
  competition_index : Z
}.

(** The [serp] and [performance] sections of [_prepare_config] (lines
    143-158), as [SERPHandler.__init__] reads them. *)
Definition serp_config (provider : Provider) : SERPHandler :=
  {| api_provider := provider; concurrent_requests := 3; rate_limit := 1;
     timeout := 30; retry_attempts := 2; retry_delay := 1 |}.

(** [_execute_aio_validation] (lines 219-237).  [api_key] is
    [config['serp']['api_key']]; [coin i] is the [i]-th draw of
    [np.random.choice]; a cell of the column [triggers_aio] is [None] where
    [Series.map] finds no entry for the keyword (NaN).  Beside the frame, the
    probes that were made; [Raised]: [SERPHandler._validate_config]
    (serp_handler.py lines 69-72) refuses the key. *)
Definition _execute_aio_validation {Data : Type}
    (_parse_serp_response : string -> Data -> SERPResult)
    (api_key : string) (provider : Provider) (coin : nat -> bool)
    (oracle : nat -> nat -> @Response Data) (expanded_data : list ExpandedRow)
    : Tasks.Result (list (ExpandedRow * option bool) * list (string * list Event)) :=
  match expanded_data with
  | [] => Tasks.Ok ([], [])
  | _ =>
      if bool_decide (api_key = "demo-key")
      then Tasks.Ok (imap (fun i row => (row, Some (coin i))) expanded_data, [])
      else if bool_decide (api_key = "" \/ api_key = "YOUR_SERP_API_KEY")
      then Tasks.Raised "SERP API key 未正確設置"
      else
        let keywords := keyword_idea <$> expanded_data in
        let validation_results :=
          batch_validate_aio _parse_serp_response (serp_config provider) oracle
            (take 10 keywords) in
        Tasks.Ok ((fun row => (row, validation_results.1 !! keyword_idea row))
                    <$> expanded_data,
                  validation_results.2)
  end.

(** Line 253: [lambda x: 'Y' if x else 'N'] on a cell; NaN, like every
    float other than zero, counts as true. *)
Definition report_flag (x : option bool) : string :=
  match x with
  | Some false => "N"
  | _ => "Y"
  end.

End LocalPreview.

(** ** Concrete data for the examples *)

Module Demo.
Import SerpHandler.

(** A body that is just the flag, and a parser that copies it. *)
Definition parse (kw : string) (data : bool) : SERPResult :=
  {| keyword := kw; has_aio := data; aio_content := None; total_results := 0;
     error := None |}.

(** The defaults of [config/settings.py]: three attempts, one second. *)
Definition default_handler : SERPHandler :=
  {| api_provider := serper; concurrent_requests := 10; rate_limit := 1;
     timeout := 30; retry_attempts := 3; retry_delay := 1 |}.

(** A 429 carrying [Retry-After: 5], then a 200. *)
Definition hinted (attempt : nat) : @Response bool :=
  match attempt with
  | O => Status429 (HeaderInt 5)
  | _ => Status200 (Some true)
  end.

(** Task 0 is always rate limited, task 1 succeeds at once, any other
    task times out. *)
Definition one_bad (i attempt : nat) : @Response bool :=
  match i with
  | 0%nat => Status429 NoHeader
  | 1%nat => Status200 (Some true)
  | _ => RaisedTimeout
  end.

(** The first three tasks find an overview, the others do not. *)
Definition first_three (i attempt : nat) : @Response bool :=
  Status200 (Some (bool_decide (i < 3)%nat)).

Definition always_ok (attempt : nat) : @Response bool := Status200 (Some false).

Definition gsc_row (q : string) : GscRow :=
  {| query := q; clicks := 1; impressions := 8; ctr := 0.125; position := 3 |}.

Definition ads_row (k : string) : AdsRow :=
  {| keyword_idea := k; search_volume := 100; competition_level := "LOW";
     competition_index := 10; low_top_of_page_bid_usd := 0.5;
     high_top_of_page_bid_usd := 1.5 |}.

Definition ten_keywords : list string :=
  ["k0"; "k1"; "k2"; "k3"; "k4"; "k5"; "k6"; "k7"; "k8"; "k9"].

(** Search Console finds nothing. *)
Definition nothing_found : Tasks.Env bool :=
  {| Tasks.gsc := fun _ => Returns [];
     Tasks.google_ads_customer_id := "123";
     Tasks.ads := fun _ => Returns [];
     Tasks.serp_api_key := "key";
     Tasks.serp_test := fun _ => always_ok;
     Tasks.serp_batch := fun _ => first_three |}.

(** Two seed keywords, ten expanded keywords, a working SERP API. *)
Definition all_fine : Tasks.Env bool :=
  {| Tasks.gsc := fun _ => Returns [gsc_row "what is x"; gsc_row "how to y"];
     Tasks.google_ads_customer_id := "123";
     Tasks.ads := fun _ => Returns (ads_row <$> ten_keywords);
     Tasks.serp_api_key := "key";
     Tasks.serp_test := fun _ => always_ok;
     Tasks.serp_batch := fun _ => first_three |}.


(** A reporting task that records one more completed step. *)
Definition report (task_id : nat) (db : Tasks.DB) : Tasks.DB * Tasks.Result Tasks.StageReturn :=
  (Tasks.save_project (Tasks.step_completed (Tasks.project db))
     (Tasks.update_task task_id (Tasks.task_completed Tasks.NoData 1) db),
   Tasks.Ok (Tasks.ReportDone "report.xlsx")).

(** Ten keywords stored by the expansion, none of them validated yet. *)
Definition ten_unverified : Tasks.DB :=
  Tasks.set_keywords ((fun k => Tasks.ads_defaults (ads_row k)) <$> ten_keywords)
    (Tasks.create_task "aio_validation" Tasks.new_db).1.

(** The command-line driver when Search Console finds nothing. *)
Definition cli_nothing_found : Analyzer.Env bool :=
  {| Analyzer.configuration_valid := true;
     Analyzer.gsc := Returns [];
     Analyzer.ads := Returns (ads_row <$> ten_keywords);
     Analyzer.serp := first_three;
     Analyzer.report := Returns "report.xlsx" |}.

(** The schedule of a race at the pacing gate: task 0 passes the gate
    and sends its request; tasks 1 and 2 both read the same
    [_last_request_time], both sleep for the full interval, and both are
    resumed when it is over. *)
Definition race : list (@EventLoop.Action bool) :=
  [EventLoop.Resume 0; EventLoop.Resume 1; EventLoop.Resume 2; EventLoop.Elapse 2;
   EventLoop.Resume 1; EventLoop.Resume 2]%nat.

(** A schedule that fills the three slots and frees one for a fourth
    task. *)
Definition busy : list (@EventLoop.Action bool) :=
  race ++ [EventLoop.Reply 0%nat (Status200 (Some true)); EventLoop.Resume 3%nat].

(** The table after a first extraction of the two seed keywords. *)
Definition extracted_once : Tasks.DB :=
  (Tasks.extract_gsc_data all_fine 0 0
     (Tasks.create_task "gsc_extraction" Tasks.new_db).1).1.

(** The frame of the command-line run of [all_fine]'s ten keywords,
    with the column [triggers_aio]. *)
Definition validated_frame : list (AdsRow * option bool) :=
  Analyzer.validate_aio_triggers parse default_handler cli_nothing_found
    (ads_row <$> ten_keywords).

(** Search Console refuses the credentials on every execution. *)
Definition gsc_down : Tasks.Env bool :=
  {| Tasks.gsc := fun _ => Raises "invalid_grant";
     Tasks.google_ads_customer_id := "123";
     Tasks.ads := fun _ => Returns (ads_row <$> ten_keywords);
     Tasks.serp_api_key := "key";
     Tasks.serp_test := fun _ => always_ok;
     Tasks.serp_batch := fun _ => first_three |}.

(** Search Console times out on the first execution and answers on the
    retry. *)
Definition gsc_flaky : Tasks.Env bool :=
  {| Tasks.gsc := fun retries =>
                    match retries with
                    | O => Raises "timed out"
                    | _ => Returns [gsc_row "what is x"]
                    end;
     Tasks.google_ads_customer_id := "123";
     Tasks.ads := fun _ => Returns (ads_row <$> ten_keywords);
     Tasks.serp_api_key := "key";
     Tasks.serp_test := fun _ => always_ok;
     Tasks.serp_batch := fun _ => first_three |}.

(** The SERP API rate limits the first keyword of a batch on every
    attempt. *)
Definition first_limited : Tasks.Env bool :=
  {| Tasks.gsc := fun _ => Returns [gsc_row "what is x"; gsc_row "how to y"];
     Tasks.google_ads_customer_id := "123";
     Tasks.ads := fun _ => Returns (ads_row <$> ten_keywords);
     Tasks.serp_api_key := "key";
     Tasks.serp_test := fun _ => always_ok;
     Tasks.serp_batch := fun _ => one_bad |}.

(** A table with the row of a first task and nothing else. *)
Definition one_task : Tasks.DB := (Tasks.create_task "gsc_extraction" Tasks.new_db).1.

(** One request at a time, one request per two seconds. *)
Definition single_slot : SERPHandler :=
  {| api_provider := serper; concurrent_requests := 1; rate_limit := 1 # 2;
     timeout := 30; retry_attempts := 2; retry_delay := 1 |}.

(** Task 0 sends its request and gets its answer; task 1 then takes the
    slot, sleeps at the gate and sends its own. *)
Definition in_turn : list (@EventLoop.Action bool) :=
  [EventLoop.Resume 0; EventLoop.Reply 0 (Status200 (Some true)); EventLoop.Resume 1;
   EventLoop.Elapse 2; EventLoop.Resume 1]%nat.

(** The command-line driver when the three APIs answer. *)
Definition cli_all_fine : Analyzer.Env bool :=
  {| Analyzer.configuration_valid := true;
     Analyzer.gsc := Returns [gsc_row "what is x"; gsc_row "how to y"];
     Analyzer.ads := Returns (ads_row <$> ten_keywords);
     Analyzer.serp := first_three;
     Analyzer.report := Returns "report.xlsx" |}.

(** Twelve rows of the frame of the local preview. *)
Definition preview_rows : list LocalPreview.ExpandedRow :=
  (fun k => {| LocalPreview.keyword_idea := k; LocalPreview.search_volume := 100;
               LocalPreview.competition_level := "LOW";
               LocalPreview.competition_index := 10 |})
    <$> ten_keywords ++ ["k10"; "k11"].

(** A custom configuration file that gives the key of the SERP API and
    nothing else. *)
Definition custom_key : Py.Dict := [("serp", Py.VDict [("api_key", Py.VStr "from-file")])].

(** An environment in which [SERP_API_KEY] is the only variable set. *)
Definition environment (name : string) : option string :=
  if String.eqb name "SERP_API_KEY" then Some "from-env" else None.

(** A body in the format of SerpApi. *)
Definition serpapi_body : Py.Dict :=
  [("ai_overview", Py.VDict [("snippet", Py.VStr "An overview.")])].

(** Every request is rate limited, without a [Retry-After] header. *)
Definition always_limited (attempt : nat) : @Response bool := Status429 NoHeader.

(** Task 0 is rate limited on every attempt; every other task is answered
    at once and shows no overview. *)
Definition limited_or_plain (i attempt : nat) : @Response bool :=
  match i with
  | 0%nat => Status429 NoHeader
  | _ => Status200 (Some false)
  end.

(** [CONFIG_DIR / name] for an installation under [/app]. *)
Definition config_path (name : string) : string := "/app/config/" +:+ name.

End Demo.

(** * Properties *)

(** ** The batch client *)

Section Collecting.
Import SerpHandler.

Lemma collect_fold_dom (g : nat -> string -> bool) (l : list string) :
  forall m : gmap string bool,
    dom (foldl collect m (imap (fun i kw => inr (kw, g i kw)) l)) =
    dom m ∪ list_to_set l.
Proof.
  revert g. induction l as [|x l IH]; intros g m; simpl.
  - set_solver.
  - rewrite (IH (fun i => g (S i))). rewrite dom_insert_L. set_solver.
Qed.

Lemma collect_fold_absent (g : nat -> string -> bool) (l : list string) (k : string) :
  forall m : gmap string bool,
    k ∉ l ->
    foldl collect m (imap (fun i kw => inr (kw, g i kw)) l) !! k = m !! k.
Proof.
  revert g. induction l as [|x l IH]; intros g m Hk; simpl; [done|].
  apply not_elem_of_cons in Hk as [Hne Hk].
  rewrite (IH (fun i => g (S i))) by done.
  by rewrite lookup_insert_ne.
Qed.

Lemma collect_fold_last (g : nat -> string -> bool) (l : list string) (k : string) :
  forall (m : gmap string bool) (i : nat),
    l !! i = Some k ->
    (forall j, (i < j)%nat -> l !! j <> Some k) ->
    foldl collect m (imap (fun i kw => inr (kw, g i kw)) l) !! k = Some (g i k).
Proof.
  revert g. induction l as [|x l IH]; intros g m i Hi Hlast; [done|].
  simpl. destruct i as [|i]; simpl in Hi.
  - injection Hi as ->.
    rewrite (collect_fold_absent (fun i => g (S i))).
    + by rewrite lookup_insert_eq.
    + intros [j Hj]%list_elem_of_lookup. apply (Hlast (S j)); [lia|done].
  - rewrite (IH (fun i => g (S i)) _ i Hi); [done|].
    intros j Hj. apply (Hlast (S j)). lia.
Qed.

Lemma last_occurrence (l : list string) (k : string) :
  k ∈ l ->
  exists i, l !! i = Some k /\ forall j, (i < j)%nat -> l !! j <> Some k.
Proof.
  induction l as [|x l IH]; intros Hk; [by apply elem_of_nil in Hk|].
  destruct (decide (k ∈ l)) as [Hin|Hout].
  - destruct (IH Hin) as (i & Hi & Hlast). exists (S i). split; [done|].
    intros [|j] Hj; [lia|]. simpl. apply Hlast. lia.
  - apply elem_of_cons in Hk as [->|?]; [|done]. exists 0%nat. split; [done|].
    intros [|j] Hj; [lia|]. simpl. intros Hj'. apply Hout.
    apply list_elem_of_lookup. by exists j.
Qed.

Lemma filter_fst_length {B : Type} (l : list (string * B)) (k : string) :
  length (filter (fun t => t.1 = k) l) = length (filter (fun kw => kw = k) (l.*1)).
Proof.
  induction l as [|[kw b] l IH]; [done|].
  rewrite fmap_cons, !filter_cons. simpl.
  destruct (decide (kw = k)); simpl; by rewrite IH.
Qed.

End Collecting.

Section ClientProperties.
Import SerpHandler.

Context {Data : Type}.
Variable _parse_serp_response : string -> Data -> SERPResult.

Local Abbreviation make_request := (_make_serp_request _parse_serp_response).
Local Abbreviation batch := (batch_validate_aio _parse_serp_response).

Lemma tasks_results (h : SERPHandler) (oracle : nat -> nat -> @Response Data)
    (keywords : list string) :
  (imap (fun i kw => process_keyword _parse_serp_response h (oracle i) kw) keywords).*1 =
  imap (fun i kw => inr (kw, flag _parse_serp_response h oracle i kw)) keywords.
Proof. rewrite fmap_imap. by apply imap_ext. Qed.

Lemma batch_results (h : SERPHandler) (oracle : nat -> nat -> @Response Data)
    (keywords : list string) :
  (batch h oracle keywords).1 =
  foldl collect ∅ (imap (fun i kw => inr (kw, flag _parse_serp_response h oracle i kw)) keywords).
Proof.
  destruct keywords as [|k l]; [done|].
  unfold batch_validate_aio. cbn [fst]. by rewrite tasks_results.
Qed.

Lemma batch_log (h : SERPHandler) (oracle : nat -> nat -> @Response Data)
    (keywords : list string) :
  (batch h oracle keywords).2 =
  imap (fun i kw => (kw, (make_request h kw (oracle i)).2)) keywords.
Proof.
  destruct keywords as [|k l]; [done|].
  unfold batch_validate_aio. cbn [snd]. rewrite fmap_imap. by apply imap_ext.
Qed.

(** The retry loop, when every attempt it makes fails, runs out. *)
Lemma retry_loop_exhausted (h : SERPHandler) (kw : string)
    (responses : nat -> @Response Data) (remaining : nat) :
  forall attempt,
    (forall a, (attempt <= a < attempt + remaining)%nat -> failed_attempt (responses a) = true) ->
    (retry_loop _parse_serp_response h kw responses remaining attempt).1 = None.
Proof.
  induction remaining as [|n IH]; intros attempt Hfail; [done|].
  simpl. pose proof (Hfail attempt ltac:(lia)) as H0.
  destruct (responses attempt) as [[d|]|?|?| |]; simpl in *; try discriminate;
    apply IH; intros a Ha; apply Hfail; lia.
Qed.

Lemma make_request_exhausted (h : SERPHandler) (kw : string)
    (responses : nat -> @Response Data) :
  (forall a, Z.of_nat a < retry_attempts h -> failed_attempt (responses a) = true) ->
  (make_request h kw responses).1 = request_failed h kw.
Proof.
  intros Hfail. unfold _make_serp_request. cbn [fst].
  rewrite retry_loop_exhausted; [done|].
  intros a Ha. apply Hfail. lia.
Qed.

(** The retry loop returns the parsed body of the first decoded 200
    response, if there is one among the attempts it makes. *)
Lemma retry_loop_success (h : SERPHandler) (kw : string)
    (responses : nat -> @Response Data) (k : nat) (data : Data) (remaining : nat) :
  forall attempt,
    (forall a, (attempt <= a < k)%nat -> failed_attempt (responses a) = true) ->
    responses k = Status200 (Some data) ->
    (attempt <= k < attempt + remaining)%nat ->
    (retry_loop _parse_serp_response h kw responses remaining attempt).1 =
      Some (_parse_serp_response kw data).
Proof.
  induction remaining as [|n IH]; intros attempt Hfail Hk Hrange; [lia|].
  simpl. destruct (decide (attempt = k)) as [->|Hne].
  - by rewrite Hk.
  - pose proof (Hfail attempt ltac:(lia)) as H0.
    destruct (responses attempt) as [[d|]|?|?| |]; simpl in *; try discriminate;
      apply IH; try done; try lia; intros a Ha; apply Hfail; lia.
Qed.

Lemma make_request_all_failed (h : SERPHandler) (kw : string) (rs : list (@Response Data)) :
  Forall (fun r => failed_attempt r = true) rs ->
  (Z.to_nat (retry_attempts h) <= length rs)%nat ->
  (make_request h kw (answers rs)).1 = request_failed h kw.
Proof.
  intros Hrs Hlen. apply make_request_exhausted. intros a Ha. unfold answers.
  destruct (rs !! a) as [r|] eqn:E; simpl.
  - by apply (Forall_lookup_1 _ _ _ _ Hrs E).
  - apply lookup_ge_None in E. lia.
Qed.

Lemma make_request_then_success (h : SERPHandler) (kw : string)
    (rs : list (@Response Data)) (data : Data) :
  Forall (fun r => failed_attempt r = true) rs ->
  Z.of_nat (length rs) < retry_attempts h ->
  (make_request h kw (answers (rs ++ [Status200 (Some data)]))).1 =
    _parse_serp_response kw data.
Proof.
  intros Hrs Hlen. unfold _make_serp_request. cbn [fst].
  rewrite (retry_loop_success h kw _ (length rs) data); [done| | |lia].
  - intros a Ha. unfold answers. rewrite lookup_app_l by lia.
    destruct (rs !! a) as [r|] eqn:E; simpl.
    + by apply (Forall_lookup_1 _ _ _ _ Hrs E).
    + apply lookup_ge_None in E. lia.
  - unfold answers. by rewrite list_lookup_middle.
Qed.

(** The first thing the retry loop does, if it runs at all, is to send the
    request. *)
Lemma make_request_first (h : SERPHandler) (kw : string)
    (responses : nat -> @Response Data) :
  0 < retry_attempts h ->
  head (make_request h kw responses).2 = Some (Request kw 0%nat).
Proof.
  intros Hpos. unfold _make_serp_request. cbn [snd].
  destruct (Z.to_nat (retry_attempts h)) as [|n] eqn:E; [lia|].
  simpl. by destruct (responses 0%nat) as [[d|]|?|?| |].
Qed.

(** C1.  The dictionary [batch_validate_aio] returns has exactly the
    distinct keywords of the input list as its keys, whatever the requests
    meet (failed probes included); on the empty list it is empty. *)
Theorem batch_keys_are_the_input_keywords (h : SERPHandler)
    (oracle : nat -> nat -> @Response Data) (keywords : list string) :
  dom (batch_validate_aio _parse_serp_response h oracle keywords).1 =
    (list_to_set keywords : gset string)
  /\ (batch_validate_aio _parse_serp_response h oracle []).1 = ∅.
Proof.
  split; [|done].
  rewrite batch_results, collect_fold_dom. set_solver.
Qed.

(** C5, as the code has it.  A keyword all of whose attempts fail, in
    every task that probes it, ends with [has_aio = False] and the error set
    in the [SERPResult] that [_make_serp_request] returns; but
    [process_keyword] keeps the flag of that result only, so what
    [batch_validate_aio] yields for the keyword is the bare [False] of a
    dictionary of booleans, the very entry of a keyword that was answered at
    once and shows no overview: the outcome of the batch carries no error.
    No task hands [gather] an exception, and every other keyword of the
    list still gets the outcome of its own probe. *)
Theorem exhausted_keyword_is_isolated (h : SERPHandler)
    (oracle : nat -> nat -> @Response Data) (keywords : list string) (k : string)
    (Hk : k ∈ keywords)
    (Hfail : forall i a, keywords !! i = Some k -> Z.of_nat a < retry_attempts h ->
                         failed_attempt (oracle i a) = true) :
  (forall i, keywords !! i = Some k ->
     let r := (_make_serp_request _parse_serp_response h k (oracle i)).1 in
     has_aio r = false /\ error r = Some (RequestFailed (retry_attempts h))
     /\ (process_keyword _parse_serp_response h (oracle i) k).1 = inr (k, false))
  /\ (batch_validate_aio _parse_serp_response h oracle keywords).1 !! k = Some false
  /\ (forall i k' data,
        keywords !! i = Some k' ->
        (forall j, (i < j)%nat -> keywords !! j <> Some k') ->
        0 < retry_attempts h ->
        oracle i 0%nat = Status200 (Some data) ->
        has_aio (_parse_serp_response k' data) = false ->
        error (_make_serp_request _parse_serp_response h k' (oracle i)).1 =
          error (_parse_serp_response k' data)
        /\ (batch_validate_aio _parse_serp_response h oracle keywords).1 !! k' =
             (batch_validate_aio _parse_serp_response h oracle keywords).1 !! k)
  /\ (forall i kw, keywords !! i = Some kw ->
        exists b, (process_keyword _parse_serp_response h (oracle i) kw).1 = inr (kw, b))
  /\ (forall k', k' ∈ keywords ->
        exists i, keywords !! i = Some k' /\
          (batch_validate_aio _parse_serp_response h oracle keywords).1 !! k' =
            Some (has_aio (_make_serp_request _parse_serp_response h k' (oracle i)).1)).
Proof.
  assert (Hreq : forall i, keywords !! i = Some k ->
            (make_request h k (oracle i)).1 = request_failed h k).
  { intros i Hi. apply make_request_exhausted. intros a Ha. by apply (Hfail i a). }
  assert (Hflag : (batch h oracle keywords).1 !! k = Some false).
  { destruct (last_occurrence keywords k Hk) as (i & Hi & Hlast).
    rewrite batch_results, (collect_fold_last _ _ _ _ i Hi Hlast).
    unfold flag. by rewrite (Hreq i Hi). }
  split; [|split; [done|split; [|split]]].
  - intros i Hi. cbn zeta. unfold process_keyword. cbn [fst]. by rewrite (Hreq i Hi).
  - intros i k' data Hi Hlast Hpos H200 Hnone.
    assert (Hparsed : (make_request h k' (oracle i)).1 = _parse_serp_response k' data).
    { unfold _make_serp_request. cbn [fst].
      rewrite (retry_loop_success h k' (oracle i) 0 data); [done| |done|lia].
      intros a Ha. lia. }
    split; [by rewrite Hparsed|].
    rewrite Hflag, batch_results, (collect_fold_last _ _ _ _ i Hi Hlast).
    unfold flag. by rewrite Hparsed, Hnone.
  - intros i kw Hi. by eexists.
  - intros k' Hk'. destruct (last_occurrence keywords k' Hk') as (i & Hi & Hlast).
    exists i. split; [done|].
    by rewrite batch_results, (collect_fold_last _ _ _ _ i Hi Hlast).
Qed.

(** C10.  [batch_validate_aio] runs [_make_serp_request] once per element
    of the list, in list order, so a keyword occurring several times is
    probed that many times (each probe sending at least one request when
    [retry_attempts] is positive), while the dictionary keeps, for each
    keyword, the flag of the probe of its last occurrence. *)
Theorem one_probe_per_list_element (h : SERPHandler)
    (oracle : nat -> nat -> @Response Data) (keywords : list string) :
  let r := batch_validate_aio _parse_serp_response h oracle keywords in
  length r.2 = length keywords
  /\ r.2.*1 = keywords
  /\ (forall k, length (filter (fun t => t.1 = k) r.2) =
               length (filter (fun kw => kw = k) keywords))
  /\ (forall i k, keywords !! i = Some k ->
        r.2 !! i = Some (k, (_make_serp_request _parse_serp_response h k (oracle i)).2)
        /\ (0 < retry_attempts h ->
            head (_make_serp_request _parse_serp_response h k (oracle i)).2 =
              Some (Request k 0%nat)))
  /\ (forall i k, keywords !! i = Some k ->
        (forall j, (i < j)%nat -> keywords !! j <> Some k) ->
        r.1 !! k =
          Some (has_aio (_make_serp_request _parse_serp_response h k (oracle i)).1)).
Proof.
  cbn zeta.
  assert (Hkeys : (batch h oracle keywords).2.*1 = keywords).
  { rewrite batch_log, fmap_imap. rewrite <- (list_fmap_id keywords) at 2.
    rewrite <- imap_const. by apply imap_ext. }
  split; [|split; [|split; [|split]]].
  - by rewrite batch_log, length_imap.
  - done.
  - intros k. by rewrite filter_fst_length, Hkeys.
  - intros i k Hi. split.
    + by rewrite batch_log, list_lookup_imap, Hi.
    + apply make_request_first.
  - intros i k Hi Hlast.
    by rewrite batch_results, (collect_fold_last _ _ _ _ i Hi Hlast).
Qed.

End ClientProperties.

(** ** The event loop: slots of the semaphore *)

Section LoopProperties.
Import SerpHandler EventLoop.

Context {Data : Type}.
Variable _parse_serp_response : string -> Data -> SERPResult.
Variable h : SERPHandler.
Variable keywords : list string.

Local Abbreviation entered := (EventLoop.entered h).
Local Abbreviation task_inv := (EventLoop.task_inv _parse_serp_response h).
Local Abbreviation tasks_inv := (EventLoop.tasks_inv _parse_serp_response h keywords).

Lemma holding_insert (l : list Coroutine) :
  forall i c c', l !! i = Some c ->
    (length (filter (fun c => holds_slot c = true) (<[i := c']> l)) + free c' =
     length (filter (fun c => holds_slot c = true) l) + free c)%nat.
Proof.
  induction l as [|x l IH]; intros i c c' Hi; [done|].
  destruct i as [|i]; simpl in Hi.
  - injection Hi as ->. simpl. rewrite !filter_cons. unfold free.
    destruct (holds_slot c), (holds_slot c'); simpl; lia.
  - simpl. rewrite !filter_cons. specialize (IH i c c' Hi).
    destruct (decide (holds_slot x = true)); simpl; lia.
Qed.

Lemma in_flight_le_holding (s : State) : (in_flight s <= holding s)%nat.
Proof.
  unfold in_flight, holding. induction (tasks s) as [|x l IH]; [done|].
  rewrite !filter_cons. destruct x; simpl; lia.
Qed.

Lemma slots_set_task (s : State) (i : nat) (c c' : Coroutine) :
  tasks s !! i = Some c ->
  (slots (set_task i c' s) + free c' = slots s + free c)%nat.
Proof.
  intros Hi. unfold slots, holding. simpl.
  pose proof (holding_insert (tasks s) i c c' Hi). lia.
Qed.

Ltac slots_arith :=
  unfold slots, holding, free in *; simpl in *;
  repeat match goal with |- context [holds_slot ?c] => destruct (holds_slot c) end;
  lia.

Lemma slots_enter_attempt (s : State) (i : nat) (kw : string) (attempt : nat) (c : Coroutine) :
  tasks s !! i = Some c ->
  (slots (enter_attempt h i kw attempt s) = slots s + free c)%nat.
Proof.
  intros Hi. unfold enter_attempt. case_bool_decide.
  - pose proof (slots_set_task s i c (InFlight attempt) Hi) as H1.
    slots_arith.
  - pose proof (slots_set_task s i c (Finished (request_failed h kw)) Hi) as H1.
    slots_arith.
Qed.

Lemma slots_after_failure (s : State) (i : nat) (kw : string) (attempt : nat) (c : Coroutine) :
  tasks s !! i = Some c ->
  (slots (after_failure h i kw attempt s) = slots s + free c)%nat.
Proof.
  intros Hi. unfold after_failure. case_bool_decide.
  - pose proof (slots_set_task s i c
      (Backoff attempt (now s + retry_delay h * inject_Z (Z.of_nat attempt + 1))%Q) Hi).
    slots_arith.
  - by apply slots_enter_attempt.
Qed.

Lemma slots_rate_limit_delay (s : State) (i : nat) (kw : string) (c : Coroutine) :
  tasks s !! i = Some c ->
  (slots (_rate_limit_delay h i kw s) = slots s + free c)%nat.
Proof.
  intros Hi. unfold _rate_limit_delay.
  destruct (Qlt_bool 0 (rate_limit h)); [|by apply slots_enter_attempt].
  destruct (Qlt_bool _ _).
  - pose proof (slots_set_task s i c
      (Pacing (now s + (1 / rate_limit h - (now s - _last_request_time s)))%Q) Hi).
    slots_arith.
  - by rewrite (slots_enter_attempt _ i kw 0%nat c).
Qed.

Lemma slots_on_response (s : State) (i : nat) (kw : string) (attempt : nat)
    (r : @Response Data) (c : Coroutine) :
  tasks s !! i = Some c ->
  (slots (on_response _parse_serp_response h i kw attempt r s) = slots s + free c)%nat.
Proof.
  intros Hi. unfold on_response.
  destruct r as [[d|]|[|n|]|?| |]; try by apply slots_after_failure.
  - pose proof (slots_set_task s i c (Finished (_parse_serp_response kw d)) Hi) as H1.
    slots_arith.
  - pose proof (slots_set_task s i c
      (HintSleep attempt (now s + inject_Z (py_int (retry_delay h)))%Q) Hi).
    slots_arith.
  - pose proof (slots_set_task s i c (HintSleep attempt (now s + inject_Z n)%Q) Hi).
    slots_arith.
Qed.

(** Every transition keeps the number of slots. *)
Lemma step_slots (s s' : State) (a : Action) :
  step _parse_serp_response h keywords s a = Some s' -> slots s' = slots s.
Proof.
  destruct a as [d|i|i r]; simpl.
  - destruct (Qle_bool 0 d); [|done]. by intros [= <-].
  - destruct (keywords !! i) as [kw|]; [|done].
    destruct (tasks s !! i) as [c|] eqn:Hi; [|done].
    destruct c as [|wake|attempt|attempt wake|attempt wake|r]; try done.
    + destruct (_value s) as [|v] eqn:Hv; [done|]. intros [= <-].
      rewrite (slots_rate_limit_delay _ i kw WaitSlot) by done.
      unfold slots, holding, free. simpl. rewrite Hv. lia.
    + destruct (Qle_bool wake (now s)); [|done]. intros [= <-].
      unfold after_pacing. rewrite (slots_enter_attempt _ i kw 0%nat (Pacing wake)) by done.
      unfold slots, holding, free. simpl. lia.
    + destruct (Qle_bool wake (now s)); [|done]. intros [= <-].
      rewrite (slots_after_failure _ i kw attempt (HintSleep attempt wake)) by done.
      unfold slots, holding, free. simpl. lia.
    + destruct (Qle_bool wake (now s)); [|done]. intros [= <-].
      rewrite (slots_enter_attempt _ i kw (S attempt) (Backoff attempt wake)) by done.
      unfold slots, holding, free. simpl. lia.
  - destruct (keywords !! i) as [kw|]; [|done].
    destruct (tasks s !! i) as [c|] eqn:Hi; [|done].
    destruct c as [|wake|attempt|attempt wake|attempt wake|r']; try done.
    intros [= <-].
    rewrite (slots_on_response _ i kw attempt r (InFlight attempt)) by done.
    unfold slots, holding, free. simpl. lia.
Qed.

Lemma run_slots (schedule : list Action) :
  forall s s', run _parse_serp_response h keywords s schedule = Some s' -> slots s' = slots s.
Proof.
  induction schedule as [|a schedule IH]; intros s s'; simpl.
  - by intros [= <-].
  - destruct (step _ h keywords s a) as [s1|] eqn:Hstep; [|done].
    intros Hrun. rewrite (IH _ _ Hrun). by apply step_slots in Hstep.
Qed.

Lemma initial_slots (t0 : Q) :
  slots (initial h keywords t0) = Z.to_nat (concurrent_requests h).
Proof.
  unfold slots, holding, initial. simpl.
  induction keywords as [|k l IH]; [done|].
  simpl. rewrite filter_cons. simpl in *. done.
Qed.

(** C3.  In every state the loop can reach from the start of a batch, the
    tasks holding a slot of the semaphore, and so the requests in flight,
    are at most [concurrent_requests]; and a task that has not taken a slot
    cannot move while no slot is free. *)
Theorem in_flight_never_exceeds_concurrency (t0 : Q) (schedule : list Action) (s : State)
    (Hrun : run _parse_serp_response h keywords (initial h keywords t0) schedule = Some s) :
  (in_flight s <= holding s)%nat
  /\ (holding s + _value s = Z.to_nat (concurrent_requests h))%nat
  /\ (in_flight s <= Z.to_nat (concurrent_requests h))%nat
  /\ (forall i, tasks s !! i = Some WaitSlot -> _value s = 0%nat ->
        step _parse_serp_response h keywords s (Resume i) = None).
Proof.
  pose proof (in_flight_le_holding s) as Hle.
  pose proof (run_slots schedule _ _ Hrun) as Hs. rewrite initial_slots in Hs.
  unfold slots in Hs. repeat split; try lia.
  intros i Hi Hv. simpl. rewrite Hi, Hv. by destruct (keywords !! i).
Qed.

(** *** The tasks of the loop compute what [_make_serp_request] returns *)

Lemma tasks_enter_attempt (s : State) (i : nat) (kw : string) (attempt : nat) :
  tasks (enter_attempt h i kw attempt s) = <[i := entered kw attempt]> (tasks s).
Proof. unfold enter_attempt, EventLoop.entered. by case_bool_decide. Qed.

Lemma entered_inv (kw : string) (attempt : nat) (rs : list (@Response Data)) :
  length rs = attempt -> Forall (fun r => failed_attempt r = true) rs ->
  task_inv kw (entered kw attempt) rs.
Proof.
  intros Hlen Hrs. unfold EventLoop.entered. case_bool_decide; simpl; [done|].
  symmetry. apply make_request_all_failed; [done|lia].
Qed.

Lemma after_failure_inv (s : State) (i : nat) (kw : string) (attempt : nat)
    (rs : list (@Response Data)) :
  length rs = S attempt -> Forall (fun r => failed_attempt r = true) rs ->
  exists c, tasks (after_failure h i kw attempt s) = <[i := c]> (tasks s) /\ task_inv kw c rs.
Proof.
  intros Hlen Hrs. unfold after_failure. case_bool_decide.
  - eexists. split; [done|]. done.
  - exists (entered kw (S attempt)). split; [apply tasks_enter_attempt|].
    by apply entered_inv.
Qed.

Lemma rate_limit_delay_inv (s : State) (i : nat) (kw : string) :
  exists c, tasks (_rate_limit_delay h i kw s) = <[i := c]> (tasks s) /\ task_inv kw c [].
Proof.
  unfold _rate_limit_delay.
  destruct (Qlt_bool 0 (rate_limit h)).
  - destruct (Qlt_bool _ _).
    + eexists. split; [done|]. done.
    + exists (entered kw 0). split; [by rewrite tasks_enter_attempt|]. by apply entered_inv.
  - exists (entered kw 0). split; [apply tasks_enter_attempt|]. by apply entered_inv.
Qed.

Lemma on_response_inv (s : State) (i : nat) (kw : string) (attempt : nat)
    (r : @Response Data) (rs : list (@Response Data)) :
  task_inv kw (InFlight attempt) rs ->
  exists c, tasks (on_response _parse_serp_response h i kw attempt r s) = <[i := c]> (tasks s)
            /\ task_inv kw c (rs ++ [r]).
Proof.
  intros (Hlen & Hlt & Hrs).
  assert (Hlen' : length (rs ++ [r]) = S attempt) by (rewrite length_app; simpl; lia).
  assert (Hfailed : failed_attempt r = true ->
            Forall (fun r => failed_attempt r = true) (rs ++ [r])).
  { intros Hr. apply Forall_app. split; [done|]. by apply Forall_singleton. }
  unfold on_response.
  destruct r as [[d|]|[|n|]|?| |];
    try (apply after_failure_inv; [done|by apply Hfailed]).
  - eexists. split; [done|]. simpl. symmetry.
    apply make_request_then_success; [done|lia].
  - eexists. split; [done|]. simpl. split; [done|by apply Hfailed].
  - eexists. split; [done|]. simpl. split; [done|by apply Hfailed].
Qed.

Lemma tasks_inv_update (s s' : State) (hist hist' : nat -> list (@Response Data))
    (j : nat) (kw : string) (c : Coroutine) :
  tasks_inv s hist -> keywords !! j = Some kw ->
  tasks s' = <[j := c]> (tasks s) -> task_inv kw c (hist' j) ->
  (forall i, i <> j -> hist' i = hist i) ->
  tasks_inv s' hist'.
Proof.
  intros Hinv Hkw Htasks Hc Hother i kw' c' Hkw' Hc'.
  rewrite Htasks in Hc'. apply list_lookup_insert_Some in Hc' as [(-> & <- & _)|[Hne Hc']].
  - rewrite Hkw in Hkw'. by injection Hkw' as <-.
  - rewrite Hother by done. by apply (Hinv i).
Qed.

Lemma step_inv (s s' : State) (a : Action) (hist : nat -> list (@Response Data)) :
  tasks_inv s hist ->
  step _parse_serp_response h keywords s a = Some s' ->
  tasks_inv s' (fun i => hist i ++ replies_to i [a]).
Proof.
  intros Hinv. destruct a as [d|j|j r]; simpl.
  - destruct (Qle_bool 0 d); [|done]. intros [= <-].
    intros i kw c Hkw Hc. rewrite app_nil_r. by apply (Hinv i).
  - destruct (keywords !! j) as [kw|] eqn:Hkw; [|done].
    destruct (tasks s !! j) as [c|] eqn:Hj; [|done].
    pose proof (Hinv j kw c Hkw Hj) as Hc.
    assert (Hsame : forall i, i <> j -> hist i ++ [] = hist i)
      by (intros; apply app_nil_r).
    destruct c as [|wake|attempt|attempt wake|attempt wake|r]; try done; simpl in Hc.
    + destruct (_value s) as [|v]; [done|]. intros [= <-].
      destruct (rate_limit_delay_inv (set_value v s) j kw) as (c' & Ht & Hc').
      eapply (tasks_inv_update s _ hist _ j kw c'); [done..| |done].
      by rewrite Hc, app_nil_r.
    + destruct (Qle_bool wake (now s)); [|done]. intros [= <-].
      eapply (tasks_inv_update s _ hist _ j kw (entered kw 0)); [done..| | |done].
      * unfold after_pacing. by rewrite tasks_enter_attempt.
      * rewrite Hc, app_nil_r. by apply entered_inv.
    + destruct (Qle_bool wake (now s)); [|done]. intros [= <-].
      destruct Hc as [Hlen Hrs].
      destruct (after_failure_inv s j kw attempt (hist j) Hlen Hrs) as (c' & Ht & Hc').
      eapply (tasks_inv_update s _ hist _ j kw c'); [done..| |done].
      by rewrite app_nil_r.
    + destruct (Qle_bool wake (now s)); [|done]. intros [= <-].
      destruct Hc as [Hlen Hrs].
      eapply (tasks_inv_update s _ hist _ j kw (entered kw (S attempt))); [done..| | |done].
      * by rewrite tasks_enter_attempt.
      * rewrite app_nil_r. by apply entered_inv.
  - destruct (keywords !! j) as [kw|] eqn:Hkw; [|done].
    destruct (tasks s !! j) as [c|] eqn:Hj; [|done].
    pose proof (Hinv j kw c Hkw Hj) as Hc.
    destruct c as [|wake|attempt|attempt wake|attempt wake|r']; try done.
    intros [= <-].
    destruct (on_response_inv s j kw attempt r (hist j) Hc) as (c' & Ht & Hc').
    eapply (tasks_inv_update s _ hist _ j kw c'); [done..| |].
    + by rewrite decide_True.
    + intros i Hne. rewrite decide_False by done. apply app_nil_r.
Qed.

Lemma replies_to_cons (i : nat) (a : @Action Data) (schedule : list (@Action Data)) :
  replies_to i (a :: schedule) = replies_to i [a] ++ replies_to i schedule.
Proof. destruct a as [d|j|j r]; simpl; try done. by destruct (decide (i = j)). Qed.

Lemma run_inv (schedule : list Action) :
  forall s s' hist,
    tasks_inv s hist ->
    run _parse_serp_response h keywords s schedule = Some s' ->
    tasks_inv s' (fun i => hist i ++ replies_to i schedule).
Proof.
  induction schedule as [|a schedule IH]; intros s s' hist Hinv; simpl run.
  - intros [= <-]. intros i kw c Hkw Hc. simpl. rewrite app_nil_r. by apply (Hinv i).
  - destruct (step _ h keywords s a) as [s1|] eqn:Hstep; [|done]. intros Hrun.
    pose proof (IH s1 s' _ (step_inv s s1 a hist Hinv Hstep) Hrun) as H1.
    intros i kw c Hkw Hc. rewrite replies_to_cons, app_assoc. by apply (H1 i).
Qed.

(** X1.  A task the loop has run to its end, under whatever interleaving
    with the other tasks, holds the result [_make_serp_request] computes from the
    replies that task was given. *)
Lemma finished_task_result (t0 : Q) (schedule : list Action) (s : State)
    (i : nat) (kw : string) (r : SERPResult) :
  run _parse_serp_response h keywords (initial h keywords t0) schedule = Some s ->
  keywords !! i = Some kw ->
  tasks s !! i = Some (Finished r) ->
  r = (_make_serp_request _parse_serp_response h kw (answers (replies_to i schedule))).1.
Proof.
  intros Hrun Hkw Hi.
  assert (H0 : tasks_inv (initial h keywords t0) (fun _ => [])).
  { intros j kw' c _ Hc. simpl in Hc. rewrite list_lookup_fmap in Hc.
    destruct (keywords !! j); simpl in Hc; [|done]. by injection Hc as <-. }
  exact (run_inv schedule _ _ _ H0 Hrun i kw (Finished r) Hkw Hi).
Qed.

End LoopProperties.

(** ** The stage tasks and the orchestrator *)

Section TaskProperties.
Import SerpHandler Tasks.

Context {Data : Type}.
Variable _parse_serp_response : string -> Data -> SERPResult.

Lemma bounded_refl (x T : Z) (db : DB) :
  total_steps (project db) = T -> completed_steps (project db) <= x -> bounded x T db db.
Proof.
  intros HT Hx. repeat split; [done..|]. exists []. by rewrite app_nil_r.
Qed.



Lemma bounded_save (x T : Z) (db db' : DB) (p : AnalysisProject) :
  bounded x T db db' -> total_steps p = T -> completed_steps p <= x ->
  bounded x T db (save_project p db').
Proof.
  intros (_ & _ & new & E & F) HT Hx. repeat split; [done..|].
  exists (new ++ [p]). simpl. split; [by rewrite E, app_assoc|].
  apply Forall_app. split; [done|]. by apply Forall_singleton.
Qed.


(** The loop over the rows touches the keyword table only. *)
Lemma store_gsc_rows (rows : list GscRow) :
  forall db n, exists ks n',
    foldl store_gsc_row (db, n) rows = (set_keywords ks db, n').
Proof.
  induction rows as [|row rows IH]; intros db n; simpl.
  - exists (keywords db), n. by destruct db.
  - unfold store_gsc_row at 2, get_or_create. simpl.
    destruct (list_find _ (keywords db)) as [[i kd]|]; simpl.
    + apply IH.
    + destruct (IH (set_keywords (keywords db ++ [gsc_defaults row]) db) (n + 1))
        as (ks & n' & ->). by exists ks, n'.
Qed.


Lemma on_failure_db (m c : Z) (retries task_id : nat) (exc : string) (db : DB) :
  (on_failure m c retries task_id exc db).1 = update_task task_id (task_failed exc) db
  /\ forall r, (on_failure m c retries task_id exc db).2 <> Success r.
Proof. unfold on_failure. by case_bool_decide. Qed.

Ltac failure_case :=
  match goal with
  | |- context [on_failure ?m ?c ?r ?t ?e ?db] =>
      let H1 := fresh in let H2 := fresh in
      destruct (on_failure_db m c r t e db) as [H1 H2];
      destruct (on_failure m c r t e db) as [db' [res| |]]; simpl in H1; subst db';
      [by destruct (H2 res)| |]; simpl
  end.









(** X2.  The counters of the project row after a run are the ones from
    before it: lines 562-565 and 579-581 save the object loaded at line 499, whose
    [completed_steps], [total_keywords] and [aio_keywords] the stage tasks
    never touched (they updated objects of their own). *)
Theorem orchestrator_save_restores_counters
    (report : nat -> DB -> DB * Result StageReturn) (env : Env Data) (db : DB) :
  let out := (run_complete_analysis _parse_serp_response report env db).1 in
  completed_steps (project out) = completed_steps (project db)
  /\ total_keywords (project out) = total_keywords (project db)
  /\ aio_keywords (project out) = aio_keywords (project db)
  /\ (status (project out) = "completed" \/ status (project out) = "failed").
Proof.
  unfold run_complete_analysis, create_task. cbv beta iota zeta. simpl.
  match goal with
  | |- context [run_stages ?p ?e ?a ?b ?c ?d] =>
      destruct (run_stages p e a b c d) as [db3 [[[r1 r2] r3]|exc]]
  end; [|simpl; auto].
  match goal with
  | |- context [report ?tid ?d] => destruct (report tid d) as [db4 [r4|exc]]
  end; simpl; auto.
Qed.

(** *** Keywords already stored, keywords already validated *)

Lemma get_or_create_stored (kw : string) (fresh : KeywordData) (db : DB) :
  kw ∈ kd_keyword <$> keywords db ->
  exists i, get_or_create kw fresh db = (db, (i, false)).
Proof.
  intros (kd & -> & Hkd)%list_elem_of_fmap. unfold get_or_create.
  destruct (list_find_elem_of (fun kd' => kd_keyword kd' = kd_keyword kd)
              (keywords db) kd Hkd eq_refl) as [[i kd'] ->].
  by exists i.
Qed.

Lemma store_gsc_rows_stored (rows : list GscRow) :
  forall db n,
    (forall row, row ∈ rows -> query row ∈ kd_keyword <$> keywords db) ->
    foldl store_gsc_row (db, n) rows = (db, n).
Proof.
  induction rows as [|row rows IH]; intros db n Hstored; [done|].
  simpl. unfold store_gsc_row at 2. simpl.
  destruct (get_or_create_stored (query row) (gsc_defaults row) db) as [i ->].
  { apply Hstored. by left. }
  simpl. apply IH. intros row' Hrow'. apply Hstored. by right.
Qed.

Lemma store_gsc_row_grows (db : DB) (n : Z) (row : GscRow) :
  query row ∈ kd_keyword <$> keywords (store_gsc_row (db, n) row).1
  /\ exists more, keywords (store_gsc_row (db, n) row).1 = keywords db ++ more.
Proof.
  unfold store_gsc_row, get_or_create. simpl.
  destruct (list_find _ (keywords db)) as [[i kd]|] eqn:E; simpl.
  - apply list_find_Some in E as (Hi & Hq & _). split.
    + apply list_elem_of_fmap. exists kd. split; [done|].
      apply list_elem_of_lookup. by exists i.
    + exists []. by rewrite app_nil_r.
  - split; [|by eexists].
    rewrite fmap_app. apply elem_of_app. right. simpl. by left.
Qed.

Lemma store_gsc_rows_grow (rows : list GscRow) :
  forall db n,
    (forall row, row ∈ rows ->
       query row ∈ kd_keyword <$> keywords (foldl store_gsc_row (db, n) rows).1)
    /\ exists more, keywords (foldl store_gsc_row (db, n) rows).1 = keywords db ++ more.
Proof.
  induction rows as [|row rows IH]; intros db n; simpl.
  - split; [by intros row ?%elem_of_nil|]. exists []. by rewrite app_nil_r.
  - destruct (store_gsc_row_grows db n row) as (Hrow & more1 & E1).
    destruct (store_gsc_row (db, n) row) as [db1 n1] eqn:E. simpl in *.
    destruct (IH db1 n1) as (Hrows & more2 & E2). split.
    + intros row' [->|Hin]%elem_of_cons; [|by apply Hrows].
      rewrite E2, fmap_app. apply elem_of_app. by left.
    + exists (more1 ++ more2). by rewrite E2, E1, app_assoc.
Qed.

(** Rows that are validated already come out of the loop as they went in. *)
Lemma save_outcomes_keeps (validation_results : gmap string bool) (ks : list KeywordData) :
  forall i kd, ks !! i = Some kd -> unverified kd = false ->
    (save_outcomes validation_results ks).1 !! i = Some kd.
Proof.
  induction ks as [|k ks IH]; intros i kd Hi Hv; [done|].
  destruct i as [|i]; simpl in *.
  - injection Hi as ->. by rewrite Hv.
  - destruct (unverified k); simpl; by apply IH.
Qed.

Lemma validate_keywords (env : Env Data) (retries task_id : nat) (db : DB) :
  keywords (validate_aio_triggers _parse_serp_response env retries task_id db).1 = keywords db
  \/ exists validation_results,
       keywords (validate_aio_triggers _parse_serp_response env retries task_id db).1 =
       (save_outcomes validation_results (keywords db)).1.
Proof.
  unfold validate_aio_triggers. cbv beta iota zeta.
  destruct (filter _ _) as [|kd kds]; [by left|].
  case_bool_decide; [failure_case; by left|].
  case_bool_decide; [failure_case; by left|].
  destruct (test_api_connection _ _ _); [|failure_case; by left].
  right. by eexists.
Qed.

Lemma validate_trace (env : Env Data) (retries task_id : nat) (db : DB) :
  exists calls,
    trace (validate_aio_triggers _parse_serp_response env retries task_id db).1 =
      trace db ++ calls
    /\ (calls = [] \/ calls = [SerpTested] \/
        calls = [SerpTested;
                 SerpBatch (kd_keyword <$>
                            filter (fun kd => unverified kd = true) (keywords db))]).
Proof.
  set (batch := kd_keyword <$> filter (fun kd => unverified kd = true) (keywords db)).
  unfold validate_aio_triggers. cbv beta iota zeta. simpl keywords. fold batch.
  destruct (filter _ _) as [|kd kds] eqn:E.
  { exists []. simpl. by rewrite app_nil_r; auto. }
  case_bool_decide; [failure_case; exists []; simpl; by rewrite app_nil_r; auto|].
  case_bool_decide; [failure_case; exists []; simpl; by rewrite app_nil_r; auto|].
  destruct (test_api_connection _ _ _).
  - eexists. simpl. rewrite <- app_assoc. split; [done|]. right. right. simpl.
    done.
  - failure_case; exists [SerpTested]; simpl; auto.
Qed.

Lemma store_ads_row_outcome (db : DB) (n : Z) (row : AdsRow) (i : nat) (kd : KeywordData) :
  keywords db !! i = Some kd ->
  exists kd', keywords (store_ads_row (db, n) row).1 !! i = Some kd' /\ same_outcome kd kd'.
Proof.
  intros Hi. unfold store_ads_row, get_or_create. simpl.
  destruct (list_find _ (keywords db)) as [[j kdj]|]; simpl.
  - rewrite list_lookup_alter. destruct (decide (j = i)) as [->|Hne].
    + rewrite Hi. simpl. by eexists.
    + by exists kd.
  - exists kd. split; [|done]. by apply lookup_app_l_Some.
Qed.

Lemma store_ads_rows_outcome (rows : list AdsRow) :
  forall db n i kd,
    keywords db !! i = Some kd ->
    exists kd', keywords (foldl store_ads_row (db, n) rows).1 !! i = Some kd'
                /\ same_outcome kd kd'.
Proof.
  induction rows as [|row rows IH]; intros db n i kd Hi; simpl.
  - by exists kd.
  - destruct (store_ads_row_outcome db n row i kd Hi) as (kd1 & H1 & S1 & S2 & S3).
    destruct (store_ads_row (db, n) row) as [db1 n1]. simpl in H1.
    destruct (IH db1 n1 i kd1 H1) as (kd2 & H2 & T1 & T2 & T3).
    exists kd2. split; [done|]. unfold same_outcome. by rewrite T1, T2, T3.
Qed.

Lemma expand_outcome (env : Env Data) (retries task_id i : nat) (db : DB) (kd : KeywordData) :
  keywords db !! i = Some kd ->
  exists kd', keywords (expand_keywords env retries task_id db).1 !! i = Some kd'
              /\ same_outcome kd kd'.
Proof.
  intros Hi. unfold expand_keywords. cbv beta iota zeta.
  destruct (kd_keyword <$> filter _ _) as [|seed seeds]; [by exists kd|].
  case_bool_decide; [failure_case; by exists kd|].
  destruct (ads env retries) as [[|row rows]|exc].
  - by exists kd.
  - match goal with
    | |- context [foldl store_ads_row (?d, ?n) ?l] =>
        destruct (store_ads_rows_outcome l d n i kd Hi) as (kd' & Hkd' & Hsame);
        revert Hkd'; generalize (foldl store_ads_row (d, n) l)
    end.
    intros stored Hkd'. by exists kd'.
  - failure_case; by exists kd.
Qed.

(** C7.  The validation stage hands the SERP batch the keywords whose
    [aio_verified] is unset and no others, and leaves every row that is
    validated already as it is; the expansion stage keeps the validation
    outcome of every row; and an extraction whose rows are all stored
    already (such as a second extraction with the same answer from Search
    Console) creates no keyword row and leaves the keyword table, validated
    outcomes included, as it was. *)
Theorem validation_outcome_written_once
    (env : Env Data) (retries task_id : nat) (db : DB) (rows : list GscRow)
    (Hrows : gsc env retries = Returns rows)
    (Hstored : forall row, row ∈ rows -> query row ∈ kd_keyword <$> keywords db) :
  keywords (extract_gsc_data env retries task_id db).1 = keywords db
  /\ (exists total, (extract_gsc_data env retries task_id db).2 = Success (GscDone 0 total))
  /\ (forall db0 task0 row, row ∈ rows ->
        query row ∈ kd_keyword <$> keywords (extract_gsc_data env retries task0 db0).1)
  /\ (forall env' retries' task' i kd,
        keywords db !! i = Some kd -> unverified kd = false ->
        keywords (validate_aio_triggers _parse_serp_response env' retries' task' db).1 !! i =
          Some kd)
  /\ (forall env' retries' task' l,
        SerpBatch l ∈ trace (validate_aio_triggers _parse_serp_response env' retries' task' db).1 ->
        SerpBatch l ∈ trace db
        \/ l = kd_keyword <$> filter (fun kd => unverified kd = true) (keywords db))
  /\ (forall (env' : Env Data) retries' task' i kd,
        keywords db !! i = Some kd ->
        exists kd', keywords (expand_keywords env' retries' task' db).1 !! i = Some kd'
                    /\ same_outcome kd kd').
Proof.
  split; [|split; [|split; [|split; [|split]]]]; [| | | | |by intros; apply expand_outcome].
  - unfold extract_gsc_data. rewrite Hrows. destruct rows as [|row rows']; [done|].
    cbv beta iota zeta. by rewrite store_gsc_rows_stored.
  - unfold extract_gsc_data. rewrite Hrows. destruct rows as [|row rows']; [by eexists|].
    cbv beta iota zeta. rewrite store_gsc_rows_stored by done. by eexists.
  - intros db0 task0 row Hrow. unfold extract_gsc_data. rewrite Hrows.
    destruct rows as [|row' rows']; [by apply elem_of_nil in Hrow|].
    cbv beta iota zeta.
    match goal with
    | |- context [foldl store_gsc_row (?d, ?n) ?l] =>
        destruct (store_gsc_rows_grow l d n) as [Hin _];
        specialize (Hin row Hrow); revert Hin;
        generalize (foldl store_gsc_row (d, n) l)
    end.
    by intros stored.
  - intros env' retries' task' i kd Hi Hv.
    destruct (validate_keywords env' retries' task' db) as [-> | [res ->]]; [done|].
    by apply save_outcomes_keeps.
  - intros env' retries' task' l Hl.
    destruct (validate_trace env' retries' task' db) as (calls & E & Hcalls).
    rewrite E in Hl. apply elem_of_app in Hl as [Hl|Hl]; [by left|]. right.
    destruct Hcalls as [-> | [-> | ->]].
    + by apply elem_of_nil in Hl.
    + apply list_elem_of_singleton in Hl. discriminate.
    + apply elem_of_cons in Hl as [Hl|Hl]; [discriminate|].
      apply list_elem_of_singleton in Hl. by injection Hl.
Qed.

(** *** An extraction that finds nothing *)

Lemma run_complete_analysis_stages (report : nat -> DB -> DB * Result StageReturn)
    (env : Env Data) (db : DB) :
  run_complete_analysis _parse_serp_response report env db =
  let n := length (tasks db) in
  let project := set_status "running" (project db) in
  match run_stages _parse_serp_response env n (S n) (S (S n)) (started db) with
  | (db3, Raised exc) =>
      (save_project (set_error_message exc (set_status "failed" project)) db3, Raised exc)
  | (db3, Ok (r1, r2, r3)) =>
      match report (S (S (S n))) (traced (Delayed "report_generation") db3) with
      | (db4, Raised exc) =>
          (save_project (set_error_message exc (set_status "failed" project)) db4,
           Raised exc)
      | (db4, Ok r4) =>
          (save_project (set_completion_percentage 100 (set_status "completed" project)) db4,
           Ok {| r_gsc := r1; r_expansion := r2; r_validation := r3; r_report := r4 |})
      end
  end.
Proof.
  unfold run_complete_analysis, started, create_task. cbv beta iota zeta. simpl.
  rewrite !length_app. simpl. rewrite !Nat.add_1_r. reflexivity.
Qed.

Lemma extract_on_empty (env : Env Data) (task_id : nat) (db : DB) :
  gsc env 0%nat = Returns [] ->
  delay_get (fun retries => extract_gsc_data env retries task_id) 3 0 db =
  (update_task task_id (task_completed_empty "未找到符合條件的關鍵字")
     (traced GscQueried
        (save_project (set_current_step "M1: GSC 數據擷取" (project db))
           (update_task task_id task_running db))),
   Ok (GscDone 0 None)).
Proof. intros H. simpl. unfold extract_gsc_data. by rewrite H. Qed.

Lemma expand_without_seeds (env : Env Data) (task_id : nat) (db : DB) :
  filter (fun kd => source_type kd = "gsc") (keywords db) = [] ->
  delay_get (fun retries => expand_keywords env retries task_id) 3 0 db =
  (update_task task_id (task_completed_empty "沒有種子關鍵字可供擴展")
     (save_project (set_current_step "M2: 關鍵字擴展" (project db))
        (update_task task_id task_running db)),
   Ok (ExpansionDone 0 None)).
Proof.
  intros H. simpl. unfold expand_keywords. cbv beta iota zeta. simpl keywords.
  by rewrite H.
Qed.

Lemma validate_nothing_unverified (env : Env Data) (task_id : nat) (db : DB) :
  filter (fun kd => unverified kd = true) (keywords db) = [] ->
  delay_get (fun retries => validate_aio_triggers _parse_serp_response env retries task_id)
    2 0 db =
  (update_task task_id (task_completed_empty "沒有關鍵字需要 AIO 驗證")
     (save_project (set_current_step "M3: AIO 驗證" (project db))
        (update_task task_id task_running db)),
   Ok (ValidationDone 0 None)).
Proof.
  intros H. simpl. unfold validate_aio_triggers. cbv beta iota zeta. simpl keywords.
  by rewrite H.
Qed.

Lemma filter_none {A : Type} (P : A -> Prop) `{forall x, Decision (P x)} (l : list A) :
  (forall x, x ∈ l -> ~ P x) -> filter P l = [].
Proof.
  induction l as [|x l IH]; intros Hl; [done|].
  rewrite filter_cons. destruct (decide (P x)) as [HP|_].
  - destruct (Hl x); [by left|done].
  - apply IH. intros y Hy. apply Hl. by right.
Qed.

Ltac new_tasks :=
  repeat (rewrite alter_app_r_alt by lia);
  rewrite ?Nat.sub_diag;
  repeat match goal with
         | |- context [(S (S ?n) - ?n)%nat] => replace (S (S n) - n)%nat with 2%nat by lia
         | |- context [(S ?n - ?n)%nat] => replace (S n - n)%nat with 1%nat by lia
         end;
  simpl.

(** C4, as the code has it.  When Search Console returns no rows and the
    project has neither seed keywords nor keywords awaiting validation, the
    orchestrator marks the extraction task completed with count 0 and goes
    on to dispatch expansion, validation and reporting in turn; expansion
    and validation call no external API and are marked completed with count
    0; [completed_steps] and [total_keywords] stay as they were; and the
    project ends completed if the reporting task returns, failed if it
    raises.  The command-line driver, for its part, stops after the
    extraction and returns the status failed. *)
Theorem empty_extraction_still_runs_every_stage
    (report : nat -> DB -> DB * Result StageReturn) (env : Env Data) (db : DB)
    (Hempty : gsc env 0%nat = Returns [])
    (Hnone : forall kd, kd ∈ keywords db -> source_type kd <> "gsc" /\ unverified kd = false) :
  let n := length (tasks db) in
  let stages := run_stages _parse_serp_response env n (S n) (S (S n)) (started db) in
  let reported := report (S (S (S n))) (traced (Delayed "report_generation") stages.1) in
  let out := run_complete_analysis _parse_serp_response report env db in
  stages.2 = Ok (GscDone 0 None, ExpansionDone 0 None, ValidationDone 0 None)
  /\ trace stages.1 =
       trace db ++ [Delayed "gsc_extraction"; GscQueried; Delayed "keyword_expansion";
                    Delayed "aio_validation"]
  /\ task_status <$> tasks stages.1 =
       (task_status <$> tasks db) ++ ["completed"; "completed"; "completed"; "pending"]
  /\ result_count <$> tasks stages.1 = (result_count <$> tasks db) ++ [0; 0; 0; 0]
  /\ keywords stages.1 = keywords db
  /\ completed_steps (project stages.1) = completed_steps (project db)
  /\ total_keywords (project stages.1) = total_keywords (project db)
  /\ match reported.2 with
     | Ok _ =>
         status (project out.1) = "completed"
         /\ total_keywords (project out.1) = total_keywords (project db)
         /\ completed_steps (project out.1) = completed_steps (project db)
     | Raised exc => status (project out.1) = "failed" /\ out.2 = Raised exc
     end
  /\ (forall handler round2 (cli : Analyzer.Env Data),
        Analyzer.configuration_valid cli = true ->
        Analyzer.extract_seed_keywords cli = [] ->
        Analyzer.run_full_analysis _parse_serp_response handler round2 cli =
          ([Analyzer.Extraction], Ok (Analyzer.Failed "無法獲取種子關鍵字"))).
Proof.
  assert (Hseeds : filter (fun kd => source_type kd = "gsc") (keywords db) = []).
  { apply filter_none. intros kd Hkd. by destruct (Hnone kd Hkd). }
  assert (Hunv : filter (fun kd => unverified kd = true) (keywords db) = []).
  { apply filter_none. intros kd Hkd. destruct (Hnone kd Hkd) as [_ ->]. done. }
  cbv zeta. rewrite run_complete_analysis_stages. cbv zeta.
  unfold run_stages.
  rewrite extract_on_empty by done.
  rewrite expand_without_seeds by done.
  rewrite validate_nothing_unverified by done.
  cbn [fst snd].
  repeat split.
  - unfold started, create_task. simpl. by rewrite <- !app_assoc.
  - unfold started, create_task. simpl. rewrite <- !app_assoc. simpl.
    new_tasks. by rewrite fmap_app.
  - unfold started, create_task. simpl. rewrite <- !app_assoc. simpl.
    new_tasks. by rewrite fmap_app.
  - match goal with |- context [report ?t ?d] => destruct (report t d) as [db4 [r4|exc]] end;
      simpl; done.
  - intros handler round2 cli Hvalid Hgsc. unfold Analyzer.run_full_analysis.
    by rewrite Hvalid, Hgsc.
Qed.

End TaskProperties.

(** ** Requests and sleeps of a probe *)

Section RetryProperties.
Import SerpHandler.

Context {Data : Type}.
Variable _parse_serp_response : string -> Data -> SERPResult.

Local Abbreviation make_request := (_make_serp_request _parse_serp_response).
(** *** How many requests, how much sleep *)

Lemma requests_app (l k : list Event) : requests (l ++ k) = requests l ++ requests k.
Proof. apply filter_app. Qed.

Lemma requests_hint_sleep (h : SERPHandler) (r : @Response Data) :
  requests (hint_sleep h r) = [].
Proof. by destruct r as [?|[|?|]|?| |]. Qed.

Lemma requests_backoff_sleep (h : SERPHandler) (attempt : nat) :
  requests (backoff_sleep h attempt) = [].
Proof. unfold backoff_sleep. by case_bool_decide. Qed.

Lemma retry_loop_step (h : SERPHandler) (kw : string) (responses : nat -> @Response Data)
    (remaining attempt : nat) :
  failed_attempt (responses attempt) = true ->
  retry_loop _parse_serp_response h kw responses (S remaining) attempt =
  let rest := retry_loop _parse_serp_response h kw responses remaining (S attempt) in
  (rest.1, Request kw attempt :: hint_sleep h (responses attempt)
             ++ backoff_sleep h attempt ++ rest.2).
Proof. intros H. simpl. by destruct (responses attempt) as [[d|]|?|?| |]. Qed.

Lemma retry_loop_done (h : SERPHandler) (kw : string) (responses : nat -> @Response Data)
    (remaining attempt : nat) (data : Data) :
  responses attempt = Status200 (Some data) ->
  retry_loop _parse_serp_response h kw responses (S remaining) attempt =
  (Some (_parse_serp_response kw data), [Request kw attempt]).
Proof. intros H. simpl. by rewrite H. Qed.

Lemma failed_or_parsed (r : @Response Data) :
  failed_attempt r = true \/ exists data, r = Status200 (Some data).
Proof. destruct r as [[d|]|?|?| |]; auto. right. by exists d. Qed.

Lemma retry_loop_requests (h : SERPHandler) (kw : string)
    (responses : nat -> @Response Data) (remaining : nat) :
  forall attempt, exists n,
    requests (retry_loop _parse_serp_response h kw responses remaining attempt).2 =
      Request kw <$> seq attempt n
    /\ (n <= remaining)%nat
    /\ ((0 < remaining)%nat -> (1 <= n)%nat).
Proof.
  induction remaining as [|m IH]; intros attempt.
  - exists 0%nat. repeat split; [lia|lia].
  - destruct (failed_or_parsed (responses attempt)) as [Hf|[data Hd]].
    + rewrite retry_loop_step by done. cbv zeta. cbn [snd].
      destruct (IH (S attempt)) as (n & E & Hn & _). exists (S n).
      change (Request kw attempt :: ?l) with ([Request kw attempt] ++ l).
      rewrite !requests_app, requests_hint_sleep, requests_backoff_sleep, E.
      repeat split; [lia|lia].
    + rewrite (retry_loop_done _ _ _ _ _ data) by done. exists 1%nat.
      repeat split; [lia|lia].
Qed.

(** X3.  Every probe of a batch sends its requests numbered 0, 1, 2, ...
    in that order, at most [retry_attempts] of them and, when
    [retry_attempts] is positive, at least one; so a batch over [n] keywords
    sends between [n] and [n * retry_attempts] requests, whatever the
    responses are. *)
Theorem probes_send_at_most_retry_attempts_requests (h : SERPHandler)
    (oracle : nat -> nat -> @Response Data) (keywords : list string) :
  let log := (batch_validate_aio _parse_serp_response h oracle keywords).2 in
  Forall (fun probe => exists n,
            requests probe.2 = Request probe.1 <$> seq 0 n
            /\ (n <= Z.to_nat (retry_attempts h))%nat
            /\ (0 < retry_attempts h -> (1 <= n)%nat)) log
  /\ (length (requests (concat (log.*2))) <=
        length keywords * Z.to_nat (retry_attempts h))%nat
  /\ (0 < retry_attempts h -> (length keywords <= length (requests (concat (log.*2))))%nat).
Proof.
  cbv zeta. rewrite batch_log.
  assert (Hall : forall (l : list string) (f : nat -> nat -> @Response Data),
    Forall (fun probe => exists n,
              requests probe.2 = Request probe.1 <$> seq 0 n
              /\ (n <= Z.to_nat (retry_attempts h))%nat
              /\ (0 < retry_attempts h -> (1 <= n)%nat))
      (imap (fun i kw => (kw, (make_request h kw (f i)).2)) l)).
  { induction l as [|kw l IH]; intros f; [constructor|].
    simpl. constructor; [|apply (IH (fun i => f (S i)))].
    unfold _make_serp_request. simpl.
    destruct (retry_loop_requests h kw (f 0%nat) (Z.to_nat (retry_attempts h)) 0)
      as (n & E & Hn & Hpos).
    exists n. repeat split; [done..|]. intros ?. apply Hpos. lia. }
  split; [apply Hall|].
  pose proof (Hall keywords oracle) as H.
  assert (Hlen : length (imap (fun i kw => (kw, (make_request h kw (oracle i)).2)) keywords)
                 = length keywords) by apply length_imap.
  revert H Hlen. generalize (imap (fun i kw => (kw, (make_request h kw (oracle i)).2)) keywords).
  intros log H. revert keywords.
  induction H as [|probe log (n & E & Hn & Hpos) _ IH]; intros keywords Hlen.
  - simpl in *. split; lia.
  - destruct keywords as [|kw keywords]; [done|]. injection Hlen as Hlen.
    destruct (IH keywords Hlen) as [IH1 IH2].
    rewrite fmap_cons. simpl concat. rewrite requests_app, length_app, E.
    rewrite length_fmap, length_seq. simpl length. split; [lia|].
    intros Hp. specialize (Hpos Hp). specialize (IH2 Hp). lia.
Qed.

Lemma slept_app (l k : list Event) : (slept (l ++ k) == slept l + slept k)%Q.
Proof.
  induction l as [|[kw a|q] l IH]; simpl.
  - by rewrite Qplus_0_l.
  - done.
  - rewrite IH. by rewrite Qplus_assoc.
Qed.

(** The trace of a loop whose attempts all fail: attempt by attempt, the
    request, the sleep a 429 asks for, the backoff. *)
Lemma retry_loop_failed (h : SERPHandler) (kw : string) (responses : nat -> @Response Data)
    (remaining : nat) :
  forall attempt,
    (forall a, (attempt <= a < attempt + remaining)%nat ->
       failed_attempt (responses a) = true) ->
    (retry_loop _parse_serp_response h kw responses remaining attempt).2 =
      concat ((fun a => Request kw a :: hint_sleep h (responses a) ++ backoff_sleep h a)
                <$> seq attempt remaining).
Proof.
  induction remaining as [|m IH]; intros attempt Hfail; [done|].
  rewrite retry_loop_step by (apply Hfail; lia). cbv zeta. cbn [snd].
  rewrite IH by (intros a Ha; apply Hfail; lia).
  cbn [seq fmap list_fmap concat app]. by rewrite <- app_assoc.
Qed.

Lemma backoff_sleep_cases (h : SERPHandler) (a : nat) :
  backoff_sleep h a =
    if bool_decide (S a < Z.to_nat (retry_attempts h))%nat
    then [Sleep (retry_delay h * inject_Z (Z.of_nat a + 1))] else [].
Proof.
  unfold backoff_sleep. case_bool_decide; case_bool_decide; (done || lia).
Qed.

Lemma blocks_requests (h : SERPHandler) (kw : string) (responses : nat -> @Response Data)
    (l : list nat) :
  requests (concat ((fun a => Request kw a :: hint_sleep h (responses a)
                                ++ backoff_sleep h a) <$> l)) =
    Request kw <$> l.
Proof.
  induction l as [|a l IH]; [done|].
  cbn [fmap list_fmap concat].
  change (Request kw a :: ?t) with ([Request kw a] ++ t).
  rewrite <- !app_assoc, !requests_app, requests_hint_sleep, requests_backoff_sleep, IH.
  done.
Qed.

Lemma blocks_slept (h : SERPHandler) (kw : string) (responses : nat -> @Response Data)
    (m : nat) :
  forall attempt,
    Z.of_nat (attempt + S m) = retry_attempts h ->
    (slept (concat ((fun a => Request kw a :: hint_sleep h (responses a)
                                ++ backoff_sleep h a) <$> seq attempt (S m))) * 2 ==
     retry_delay h *
     (inject_Z (retry_attempts h) * (inject_Z (retry_attempts h) - 1)
      - inject_Z (Z.of_nat attempt) * (inject_Z (Z.of_nat attempt) + 1))
     + 2 * slept (concat ((fun a => hint_sleep h (responses a)) <$> seq attempt (S m))))%Q.
Proof.
  induction m as [|m IH]; intros attempt Hsum.
  - cbn [seq fmap list_fmap concat slept app]. rewrite !app_nil_r, !slept_app.
    unfold backoff_sleep. rewrite bool_decide_eq_false_2 by lia. cbn [slept].
    assert (HN : (inject_Z (retry_attempts h) == inject_Z (Z.of_nat attempt) + 1)%Q).
    { rewrite <- Hsum, Nat2Z.inj_add, inject_Z_plus. reflexivity. }
    rewrite HN. ring.
  - specialize (IH (S attempt) ltac:(lia)).
    assert (HS : (inject_Z (Z.of_nat (S attempt)) == inject_Z (Z.of_nat attempt) + 1)%Q).
    { rewrite Nat2Z.inj_succ. unfold Z.succ. rewrite inject_Z_plus. reflexivity. }
    rewrite HS in IH.
    change (seq attempt (S (S m))) with (attempt :: seq (S attempt) (S m)).
    rewrite !fmap_cons. cbn [concat slept app]. rewrite !slept_app.
    unfold backoff_sleep at 1. rewrite bool_decide_eq_true_2 by lia. cbn [slept].
    set (rest := slept (concat ((fun a => Request kw a :: hint_sleep h (responses a)
                                           ++ backoff_sleep h a) <$> seq (S attempt) (S m))))
      in *.
    set (hints := slept (concat ((fun a => hint_sleep h (responses a))
                                   <$> seq (S attempt) (S m)))) in *.
    match goal with
    | |- (?total * 2 == _)%Q =>
        assert (G : (total * 2
                     == slept (hint_sleep h (responses attempt)) * 2
                        + retry_delay h * inject_Z (Z.of_nat attempt + 1) * 2 + rest * 2)%Q)
          by ring
    end.
    rewrite G, IH, inject_Z_plus. ring.
Qed.

(** X4.  A probe all of whose attempts fail does, attempt by attempt:
    the request; then, if the response was a 429, the sleep it asks for
    ([Retry-After] seconds, or [int(retry_delay)] when the header is
    missing); then the backoff [retry_delay * (attempt + 1)], unless the
    attempt was the last.  So it sends [n = retry_attempts] requests, the
    backoff adds up to [retry_delay * n * (n - 1) / 2] seconds (stated
    doubled, to stay in the integers) on top of the sleeps the 429s asked
    for, and after the last request it still sleeps when that one met a
    429 with a usable hint, although no request follows. *)
Theorem backoff_between_failed_attempts_is_linear (h : SERPHandler) (kw : string)
    (responses : nat -> @Response Data)
    (Hfail : forall a, Z.of_nat a < retry_attempts h ->
               failed_attempt (responses a) = true) :
  let events := (_make_serp_request _parse_serp_response h kw responses).2 in
  let n := Z.to_nat (retry_attempts h) in
  events =
    concat ((fun a => Request kw a :: hint_sleep h (responses a)
                        ++ (if bool_decide (S a < n)%nat
                            then [Sleep (retry_delay h * inject_Z (Z.of_nat a + 1))]
                            else []))
              <$> seq 0 n)
  /\ (slept events * 2 ==
      retry_delay h * (inject_Z (Z.of_nat n) * (inject_Z (Z.of_nat n) - 1))
      + 2 * slept (concat ((fun a => hint_sleep h (responses a)) <$> seq 0 n)))%Q
  /\ requests events = Request kw <$> seq 0 n
  /\ (forall a, S a = n ->
        last events = last (Request kw a :: hint_sleep h (responses a))).
Proof.
  cbv zeta. unfold _make_serp_request. cbn [snd].
  rewrite retry_loop_failed by (intros a Ha; apply Hfail; lia).
  split; [|split; [|split]].
  - f_equal. apply list_fmap_ext. intros i a _. by rewrite backoff_sleep_cases.
  - destruct (Z.to_nat (retry_attempts h)) as [|m] eqn:E.
    + simpl. ring.
    + rewrite (blocks_slept h kw responses m 0) by lia.
      replace (retry_attempts h) with (Z.of_nat (S m)) by lia.
      simpl (inject_Z (Z.of_nat 0)). ring.
  - apply blocks_requests.
  - intros a Ha. rewrite <- Ha, seq_S, fmap_app, concat_app.
    cbn [fmap list_fmap concat]. rewrite app_nil_r, Nat.add_0_l.
    unfold backoff_sleep. rewrite bool_decide_eq_false_2 by lia.
    rewrite app_nil_r, last_app.
    destruct (last (Request kw a :: hint_sleep h (responses a))) eqn:Elast; [done|].
    by apply last_None in Elast.
Qed.

(** *** The connection test *)

Lemma retry_loop_cases (h : SERPHandler) (kw : string) (responses : nat -> @Response Data)
    (remaining : nat) :
  forall attempt,
    (retry_loop _parse_serp_response h kw responses remaining attempt).1 = None
      /\ (forall a, (attempt <= a < attempt + remaining)%nat ->
            failed_attempt (responses a) = true)
    \/ exists k data,
         (attempt <= k < attempt + remaining)%nat
         /\ (forall a, (attempt <= a < k)%nat -> failed_attempt (responses a) = true)
         /\ responses k = Status200 (Some data)
         /\ (retry_loop _parse_serp_response h kw responses remaining attempt).1 =
              Some (_parse_serp_response kw data).
Proof.
  induction remaining as [|m IH]; intros attempt.
  - left. split; [done|]. intros a Ha. lia.
  - destruct (failed_or_parsed (responses attempt)) as [Hf|[data Hd]].
    + rewrite retry_loop_step by done. cbv zeta. cbn [fst].
      destruct (IH (S attempt)) as [[E Hall]|(k & data & Hk & Hbefore & Hd & E)].
      * left. split; [done|]. intros a Ha.
        destruct (decide (a = attempt)) as [->|]; [done|]. apply Hall. lia.
      * right. exists k, data. repeat split; [lia|lia| |done..].
        intros a Ha. destruct (decide (a = attempt)) as [->|]; [done|].
        apply Hbefore. lia.
    + right. exists attempt, data. rewrite (retry_loop_done _ _ _ _ _ data) by done.
      repeat split; [lia|lia| |done]. intros a Ha. lia.
Qed.

(** X5.  [test_api_connection] answers [True] exactly when one of the
    first [retry_attempts] requests for the keyword "test" gets a 200 with a
    decodable body, every request before it having failed, and the parser
    sets no error on that body. *)
Theorem connection_test_needs_a_parsed_response (h : SERPHandler)
    (responses : nat -> @Response Data) :
  test_api_connection _parse_serp_response h responses = true <->
  exists k data,
    Z.of_nat k < retry_attempts h
    /\ (forall a, (a < k)%nat -> failed_attempt (responses a) = true)
    /\ responses k = Status200 (Some data)
    /\ error (_parse_serp_response "test" data) = None.
Proof.
  unfold test_api_connection, validate_single_keyword, _make_serp_request. cbn [fst].
  destruct (retry_loop_cases h "test" responses (Z.to_nat (retry_attempts h)) 0)
    as [[E Hall]|(k & data & Hk & Hbefore & Hd & E)]; rewrite E; simpl.
  - split; [done|]. intros (k & data & Hk & _ & Hd & _).
    specialize (Hall k ltac:(lia)). by rewrite Hd in Hall.
  - split.
    + intros Herr. exists k, data. repeat split; [lia| |done|].
      * intros a Ha. apply Hbefore. lia.
      * by destruct (error (_parse_serp_response "test" data)).
    + intros (k' & data' & Hk' & Hbefore' & Hd' & Herr).
      assert (k' = k) as ->.
      { destruct (Nat.lt_trichotomy k' k) as [Hlt|[->|Hgt]]; [|done|].
        - specialize (Hbefore k' ltac:(lia)). by rewrite Hd' in Hbefore.
        - specialize (Hbefore' k Hgt). by rewrite Hd in Hbefore'. }
      rewrite Hd in Hd'. injection Hd' as <-. by rewrite Herr.
Qed.

End RetryProperties.

(** ** Pacing with a single slot *)

Section PacingProperties.
Import SerpHandler EventLoop.

Context {Data : Type}.
Variable _parse_serp_response : string -> Data -> SERPResult.
Variable h : SERPHandler.
Variable keywords : list string.

Local Abbreviation entered := (EventLoop.entered h).

(** *** Pacing with a single slot *)

Lemma gaps_snoc (times : list Q) (t : Q) :
  gaps (times ++ [t]) =
  gaps times ++ match last times with Some t0 => [(t - t0)%Q] | None => [] end.
Proof.
  induction times as [|t1 [|t2 times] IH]; [done..|].
  change (gaps ((t1 :: t2 :: times) ++ [t]))
    with ((t2 - t1)%Q :: gaps ((t2 :: times) ++ [t])).
  rewrite IH. by rewrite last_cons_cons.
Qed.

Lemma holder_counts (l : list Coroutine) (i : nat) (c : Coroutine) :
  l !! i = Some c -> holds_slot c = true ->
  (1 <= length (filter (fun c => holds_slot c = true) l))%nat.
Proof.
  revert i. induction l as [|x l IH]; intros i Hi Hc; [done|].
  rewrite filter_cons. destruct i as [|i]; simpl in Hi.
  - injection Hi as ->. rewrite decide_True by done. simpl. lia.
  - specialize (IH i Hi Hc). destruct (decide (holds_slot x = true)); simpl; lia.
Qed.

Lemma one_holder (l : list Coroutine) :
  (length (filter (fun c => holds_slot c = true) l) <= 1)%nat ->
  forall i j c c', l !! i = Some c -> holds_slot c = true ->
    l !! j = Some c' -> holds_slot c' = true -> i = j.
Proof.
  induction l as [|x l IH]; intros Hlen i j c c' Hi Hc Hj Hc'; [done|].
  rewrite filter_cons in Hlen.
  destruct i as [|i], j as [|j]; simpl in Hi, Hj; [done| | |].
  - injection Hi as ->. rewrite decide_True in Hlen by done. simpl in Hlen.
    pose proof (holder_counts l j c' Hj Hc'). lia.
  - injection Hj as ->. rewrite decide_True in Hlen by done. simpl in Hlen.
    pose proof (holder_counts l i c Hi Hc). lia.
  - f_equal. apply (IH ltac:(destruct (decide (holds_slot x = true)); simpl in Hlen; lia)
                      i j c c' Hi Hc Hj Hc').
Qed.

Lemma entered_not_pacing (kw : string) (attempt : nat) : is_pacing (entered kw attempt) = false.
Proof. unfold EventLoop.entered. by case_bool_decide. Qed.

Lemma first_starts_enter (s : State) (i : nat) (kw : string) (attempt : nat) :
  first_starts (enter_attempt h i kw attempt s) =
  first_starts s ++
    (if bool_decide (Z.of_nat attempt < retry_attempts h)
     then match attempt with O => [now s] | S _ => [] end else []).
Proof.
  unfold enter_attempt, first_starts. case_bool_decide; simpl.
  - rewrite filter_app, fmap_app. destruct attempt; [done|].
    rewrite filter_cons_False by done. by rewrite filter_nil.
  - by rewrite app_nil_r.
Qed.

Lemma last_request_time_enter (s : State) (i : nat) (kw : string) (attempt : nat) :
  _last_request_time (enter_attempt h i kw attempt s) = _last_request_time s.
Proof. unfold enter_attempt. by case_bool_decide. Qed.

(** A step that leaves the gate alone: the task it moves does not end up
    sleeping at the gate, and neither the first attempts nor
    [_last_request_time] change. *)
Lemma pacing_inv_other (s s' : State) (i : nat) (c : Coroutine) :
  pacing_inv h s ->
  tasks s' = <[i := c]> (tasks s) -> is_pacing c = false ->
  first_starts s' = first_starts s ->
  _last_request_time s' = _last_request_time s ->
  pacing_inv h s'.
Proof.
  intros (H1 & H2 & H3) Ht Hc Hf Hl. unfold pacing_inv. rewrite Hf, Hl, Ht.
  split; [done|]. split; [done|]. intros j wake Hj.
  apply list_lookup_insert_Some in Hj as [(-> & Hc' & _)|[Hne Hj]].
  - by rewrite Hc' in Hc.
  - by apply (H3 j).
Qed.

Lemma pacing_inv_later_attempt (s : State) (i : nat) (kw : string) (attempt : nat) :
  pacing_inv h s -> pacing_inv h (enter_attempt h i kw (S attempt) s).
Proof.
  intros Hinv.
  apply (pacing_inv_other s _ i (entered kw (S attempt)) Hinv).
  - apply tasks_enter_attempt.
  - apply entered_not_pacing.
  - rewrite first_starts_enter. case_bool_decide; apply app_nil_r.
  - apply last_request_time_enter.
Qed.

Lemma pacing_inv_after_failure (s : State) (i : nat) (kw : string) (attempt : nat) :
  pacing_inv h s -> pacing_inv h (after_failure h i kw attempt s).
Proof.
  intros Hinv. unfold after_failure. case_bool_decide.
  - by eapply (pacing_inv_other s _ i); [done|reflexivity|..].
  - by apply pacing_inv_later_attempt.
Qed.

Lemma pacing_inv_on_response (s : State) (i : nat) (kw : string) (attempt : nat)
    (r : @Response Data) :
  pacing_inv h s -> pacing_inv h (on_response _parse_serp_response h i kw attempt r s).
Proof.
  intros Hinv. unfold on_response.
  destruct r as [[d|]|[|n|]|?| |]; try by apply pacing_inv_after_failure.
  all: by eapply (pacing_inv_other s _ i); [done|reflexivity|..].
Qed.

(** The gate lets task [i] through at [now s], a full interval after
    [_last_request_time], while no other task sleeps at it. *)
Lemma pacing_inv_first_attempt (s : State) (i : nat) (kw : string) :
  (0 < rate_limit h)%Q ->
  Forall (fun g => (1 / rate_limit h <= g)%Q) (gaps (first_starts s)) ->
  (forall t, last (first_starts s) = Some t -> (t <= _last_request_time s)%Q) ->
  (_last_request_time s + 1 / rate_limit h <= now s)%Q ->
  (forall j wake, tasks s !! j = Some (Pacing wake) -> j = i) ->
  pacing_inv h (enter_attempt h i kw 0 (set_last_request_time (now s) s)).
Proof.
  intros Hrate H1 H2 Hwait Honly.
  assert (Hm : (0 < 1 / rate_limit h)%Q).
  { unfold Qdiv. rewrite Qmult_1_l. by apply Qinv_lt_0_compat. }
  unfold pacing_inv.
  rewrite first_starts_enter, last_request_time_enter, tasks_enter_attempt.
  change (first_starts (set_last_request_time (now s) s)) with (first_starts s).
  simpl. split; [|split].
  - case_bool_decide; [|by rewrite app_nil_r].
    rewrite gaps_snoc. apply Forall_app. split; [done|].
    destruct (last (first_starts s)) as [t|] eqn:E; [|constructor].
    constructor; [|constructor]. specialize (H2 t eq_refl). lra.
  - intros t. case_bool_decide.
    + rewrite last_snoc. intros [= <-]. lra.
    + rewrite app_nil_r. intros Ht. specialize (H2 t Ht). lra.
  - intros j wake Hj.
    apply list_lookup_insert_Some in Hj as [(-> & Hc & _)|[Hne Hj]].
    + pose proof (entered_not_pacing kw 0) as Hp. by rewrite Hc in Hp.
    + by destruct (Hne (eq_sym (Honly j wake Hj))).
Qed.

Lemma Qlt_bool_false (x y : Q) : Qlt_bool x y = false -> (y <= x)%Q.
Proof.
  unfold Qlt_bool. intros H%negb_false_iff. by apply Qle_bool_iff.
Qed.

Lemma Qlt_bool_true (x y : Q) : (x < y)%Q -> Qlt_bool x y = true.
Proof.
  unfold Qlt_bool. intros H. apply negb_true_iff.
  destruct (Qle_bool y x) eqn:E; [|done].
  apply Qle_bool_iff in E. lra.
Qed.

Lemma step_pacing_inv (s s' : State) (a : Action) :
  (0 < rate_limit h)%Q -> slots s = 1%nat ->
  pacing_inv h s ->
  step _parse_serp_response h keywords s a = Some s' ->
  pacing_inv h s'.
Proof.
  intros Hrate Hslots Hinv. pose proof Hinv as (H1 & H2 & H3).
  destruct a as [d|i|i r]; simpl.
  - destruct (Qle_bool 0 d); [|done]. by intros [= <-].
  - destruct (keywords !! i) as [kw|]; [|done].
    destruct (tasks s !! i) as [c|] eqn:Hi; [|done].
    destruct c as [|wake|attempt|attempt wake|attempt wake|r]; try done.
    + destruct (_value s) as [|v] eqn:Hv; [done|]. intros [= <-].
      assert (Hnone : forall j c, tasks s !! j = Some c -> holds_slot c = false).
      { intros j c Hj. destruct (holds_slot c) eqn:E; [|done].
        pose proof (holder_counts (tasks s) j c Hj E).
        unfold slots, holding in Hslots. lia. }
      unfold _rate_limit_delay. rewrite (Qlt_bool_true 0 (rate_limit h) Hrate).
      cbn [now _last_request_time set_value].
      destruct (Qlt_bool _ _) eqn:Hlt.
      * unfold pacing_inv. simpl.
        change (first_starts (set_task _ _ _)) with (first_starts s).
        split; [done|]. split; [done|]. intros j wake Hj.
        apply list_lookup_insert_Some in Hj as [(-> & Hc & _)|[Hne Hj]].
        -- injection Hc as <-. lra.
        -- by apply (H3 j).
      * apply Qlt_bool_false in Hlt.
        apply (pacing_inv_first_attempt (set_value v s) i kw); try done.
        -- simpl. lra.
        -- simpl. intros j wake Hj. by specialize (Hnone j _ Hj).
    + destruct (Qle_bool wake (now s)) eqn:Hwake; [|done]. intros [= <-].
      apply Qle_bool_iff in Hwake. unfold after_pacing.
      apply pacing_inv_first_attempt; try done.
      * specialize (H3 i wake Hi). lra.
      * intros j wake' Hj. symmetry.
        apply (one_holder (tasks s) ltac:(unfold slots, holding in Hslots; lia)
                 i j (Pacing wake) (Pacing wake') Hi eq_refl Hj eq_refl).
    + destruct (Qle_bool wake (now s)); [|done]. intros [= <-].
      by apply pacing_inv_after_failure.
    + destruct (Qle_bool wake (now s)); [|done]. intros [= <-].
      by apply pacing_inv_later_attempt.
  - destruct (keywords !! i) as [kw|]; [|done].
    destruct (tasks s !! i) as [c|] eqn:Hi; [|done].
    destruct c as [|wake|attempt|attempt wake|attempt wake|r']; try done.
    intros [= <-]. by apply pacing_inv_on_response.
Qed.

Lemma run_pacing_inv (schedule : list Action) :
  (0 < rate_limit h)%Q ->
  forall s s', slots s = 1%nat -> pacing_inv h s ->
    run _parse_serp_response h keywords s schedule = Some s' -> pacing_inv h s'.
Proof.
  intros Hrate. induction schedule as [|a schedule IH]; intros s s' Hslots Hinv; simpl.
  - by intros [= <-].
  - destruct (step _ h keywords s a) as [s1|] eqn:Hstep; [|done].
    apply IH.
    + by rewrite (step_slots _ _ _ _ _ _ Hstep).
    + by apply (step_pacing_inv s s1 a).
Qed.

(** X6.  With [concurrent_requests = 1] and a positive [rate_limit],
    under every schedule of the event loop the first requests of the
    keywords start at least [1 / rate_limit] seconds apart: with one slot
    a single task at a time is between the read and the write of
    [_last_request_time]. *)
Theorem one_slot_paces_first_requests (t0 : Q) (schedule : list Action) (s : State)
    (Hone : concurrent_requests h = 1)
    (Hrate : (0 < rate_limit h)%Q)
    (Hrun : run _parse_serp_response h keywords (initial h keywords t0) schedule = Some s) :
  first_requests_paced h s = true.
Proof.
  assert (Hinv : pacing_inv h s).
  { apply (run_pacing_inv schedule Hrate (initial h keywords t0)); [| |done].
    - rewrite initial_slots, Hone. done.
    - unfold pacing_inv. simpl. split; [constructor|]. split; [done|].
      intros i wake Hi. rewrite list_lookup_fmap in Hi.
      by destruct (keywords !! i). }
  destruct Hinv as (H1 & _ & _). unfold first_requests_paced.
  apply forallb_forall. intros g Hg. apply Qle_bool_iff.
  apply (proj1 (List.Forall_forall _ _) H1 g Hg).
Qed.

End PacingProperties.

(** ** The stages and the keyword table *)

Section TableProperties.
Import SerpHandler Tasks.

Context {Data : Type}.
Variable _parse_serp_response : string -> Data -> SERPResult.

Ltac failure_case :=
  match goal with
  | |- context [on_failure ?m ?c ?r ?t ?e ?db] =>
      let H1 := fresh in let H2 := fresh in
      destruct (on_failure_db m c r t e db) as [H1 H2];
      destruct (on_failure m c r t e db) as [db' [res| |]]; simpl in H1; subst db';
      [by destruct (H2 res)| |]; simpl
  end.

(** *** The keyword table *)

Lemma set_keywords_set_keywords (ks ks' : list KeywordData) (db : DB) :
  set_keywords ks (set_keywords ks' db) = set_keywords ks db.
Proof. done. Qed.

Lemma set_keywords_same (db : DB) : set_keywords (keywords db) db = db.
Proof. by destruct db. Qed.

Lemma store_gsc_row_cases (db : DB) (n : Z) (row : GscRow) :
  ((query row ∈ stored_keywords db) /\ store_gsc_row (db, n) row = (db, n))
  \/ ((query row ∉ stored_keywords db)
      /\ store_gsc_row (db, n) row =
           (set_keywords (keywords db ++ [gsc_defaults row]) db, n + 1)).
Proof.
  unfold store_gsc_row, get_or_create, stored_keywords. simpl.
  destruct (list_find _ (keywords db)) as [[i kd]|] eqn:E; simpl.
  - left. split; [|done]. apply list_find_Some in E as (Hi & Hq & _).
    apply list_elem_of_fmap. exists kd. split; [done|].
    apply list_elem_of_lookup. by exists i.
  - right. split; [|done]. apply list_find_None in E.
    intros (kd & Hq & Hkd)%list_elem_of_fmap.
    by apply (proj1 (Forall_forall _ _) E kd Hkd).
Qed.

(** What the loop of lines 102-115 does to the table: it appends one row
    per query that is not stored yet, built from the first row of the frame
    that carries the query. *)
Lemma store_gsc_rows_first (rows : list GscRow) :
  forall db n, exists more,
    foldl store_gsc_row (db, n) rows =
      (set_keywords (keywords db ++ more) db, n + Z.of_nat (length more))
    /\ Forall (fun kd => exists i row,
                 rows !! i = Some row /\ kd = gsc_defaults row
                 /\ (query row ∉ stored_keywords db)
                 /\ forall j row', (j < i)%nat -> rows !! j = Some row' ->
                                   query row' <> query row) more
    /\ NoDup (kd_keyword <$> more).
Proof.
  induction rows as [|row rows IH]; intros db n.
  - exists []. simpl. rewrite app_nil_r, set_keywords_same, Z.add_0_r.
    repeat split; [done|constructor].
  - simpl. destruct (store_gsc_row_cases db n row) as [[Hin ->]|[Hout ->]].
    + destruct (IH db n) as (more & -> & Hmore & Hnd). exists more.
      repeat split; [|done].
      eapply Forall_impl; [exact Hmore|]. intros kd (i & r & Hi & -> & Hq & Hfirst).
      exists (S i), r. repeat split; [done..|].
      intros [|j] row' Hj Hrow'; simpl in Hrow'.
      * injection Hrow' as <-. intros Heq. apply Hq. by rewrite <- Heq.
      * apply (Hfirst j row'); [lia|done].
    + destruct (IH (set_keywords (keywords db ++ [gsc_defaults row]) db) (n + 1))
        as (more & -> & Hmore & Hnd).
      assert (Hstored : forall q,
                q ∉ stored_keywords (set_keywords (keywords db ++ [gsc_defaults row]) db) ->
                (q ∉ stored_keywords db) /\ q <> query row).
      { intros q Hq. unfold stored_keywords in *. simpl in Hq. rewrite fmap_app in Hq.
        split; [intros H; apply Hq, elem_of_app; by left|].
        intros ->. apply Hq, elem_of_app. right. by left. }
      exists (gsc_defaults row :: more). simpl.
      rewrite set_keywords_set_keywords, <- app_assoc. simpl.
      split; [f_equal; lia|]. split.
      * constructor.
        { exists 0%nat, row. repeat split; [done..|]. intros j row' Hj. lia. }
        eapply Forall_impl; [exact Hmore|]. intros kd (i & r & Hi & -> & Hq & Hfirst).
        destruct (Hstored _ Hq) as [Hq1 Hq2].
        exists (S i), r. repeat split; [done..|].
        intros [|j] row' Hj Hrow'; simpl in Hrow'.
        -- injection Hrow' as <-. congruence.
        -- apply (Hfirst j row'); [lia|done].
      * constructor; [|done].
        intros (kd & Hkd & Hin)%list_elem_of_fmap.
        destruct (proj1 (Forall_forall _ _) Hmore kd Hin) as (i & r & Hi & -> & Hq & _).
        destruct (Hstored _ Hq) as [_ Hq2]. apply Hq2. simpl in Hkd. by rewrite <- Hkd.
Qed.

Lemma store_gsc_rows_appends (rows : list GscRow) :
  forall db n, exists more,
    foldl store_gsc_row (db, n) rows =
      (set_keywords (keywords db ++ more) db, n + Z.of_nat (length more))
    /\ Forall (fun kd => exists row, row ∈ rows /\ kd = gsc_defaults row
                                     /\ query row ∉ stored_keywords db) more
    /\ NoDup (kd_keyword <$> more).
Proof.
  intros db n. destruct (store_gsc_rows_first rows db n) as (more & E & Hmore & Hnd).
  exists more. repeat split; [done| |done].
  eapply Forall_impl; [exact Hmore|]. intros kd (i & row & Hi & -> & Hq & _).
  exists row. repeat split; [|done]. apply list_elem_of_lookup. by exists i.
Qed.

(** X9.  An extraction that gets rows appends to the keyword table one
    row per query that was not stored yet and nothing else; each new row
    is built from the first row of the frame that carries its query (no
    earlier row of the frame has that query), also when later rows repeat
    it.  The count it returns and records on its task is the number of rows
    appended; afterwards every query of the frame is stored, and the
    project row holds the size of the table as [total_keywords] and one more
    completed step. *)
Theorem extraction_stores_every_new_query_once
    (env : Env Data) (retries task_id : nat) (db : DB) (rows : list GscRow)
    (Hrows : gsc env retries = Returns rows)
    (Hsome : rows <> []) :
  let out := extract_gsc_data env retries task_id db in
  exists more,
    out.2 = Success (GscDone (Z.of_nat (length more)) (Some (Z.of_nat (length rows))))
    /\ keywords out.1 = keywords db ++ more
    /\ Forall (fun kd => exists i row,
                 rows !! i = Some row /\ kd = gsc_defaults row
                 /\ (query row ∉ stored_keywords db)
                 /\ forall j row', (j < i)%nat -> rows !! j = Some row' ->
                                   query row' <> query row) more
    /\ NoDup (kd_keyword <$> more)
    /\ (forall row, row ∈ rows -> query row ∈ stored_keywords out.1)
    /\ total_keywords (project out.1) = Z.of_nat (length (keywords out.1))
    /\ completed_steps (project out.1) = completed_steps (project db) + 1
    /\ (result_count <$> tasks out.1 !! task_id =
          (fun _ => Z.of_nat (length more)) <$> tasks db !! task_id).
Proof.
  cbv zeta. unfold extract_gsc_data. rewrite Hrows.
  destruct rows as [|row rows]; [done|]. cbv beta iota zeta.
  match goal with
  | |- context [foldl store_gsc_row (?d, ?n) ?l] =>
      pose proof (store_gsc_rows_grow l d n) as [Hall _];
      destruct (store_gsc_rows_first l d n) as (more & E & Hmore & Hnd);
      rewrite E in Hall |- *
  end.
  exists more. simpl in *. rewrite Z.add_0_l.
  repeat split; try done.
  rewrite !list_lookup_alter_eq. by destruct (tasks db !! task_id).
Qed.

(** *** No keyword twice *)

Lemma unique_after_gsc_rows (rows : list GscRow) (db : DB) (n : Z) :
  NoDup (stored_keywords db) ->
  NoDup (stored_keywords (foldl store_gsc_row (db, n) rows).1).
Proof.
  intros Hnd. destruct (store_gsc_rows_appends rows db n) as (more & -> & Hmore & Hnd').
  unfold stored_keywords in *. simpl. rewrite fmap_app. apply NoDup_app.
  repeat split; [done| |done].
  intros kw Hkw (kd & -> & Hin)%list_elem_of_fmap.
  destruct (proj1 (Forall_forall _ _) Hmore kd Hin) as (r & Hr & -> & Hq).
  by apply Hq.
Qed.

Lemma same_but_ads_refl (kd : KeywordData) : same_but_ads kd kd.
Proof. by repeat split. Qed.

Lemma same_but_ads_trans (kd1 kd2 kd3 : KeywordData) :
  same_but_ads kd1 kd2 -> same_but_ads kd2 kd3 -> same_but_ads kd1 kd3.
Proof.
  unfold same_but_ads. intros (?&?&?&?&?&?&?&?) (?&?&?&?&?&?&?&?).
  repeat split; congruence.
Qed.

Lemma same_but_ads_update (row : AdsRow) (kd : KeywordData) :
  same_but_ads kd (update_ads row kd).
Proof. by repeat split. Qed.

Lemma same_but_ads_keywords (l l' : list KeywordData) :
  Forall2 same_but_ads l l' -> kd_keyword <$> l' = kd_keyword <$> l.
Proof.
  induction 1 as [|kd kd' l l' Hkd _ IH]; [done|].
  rewrite !fmap_cons, IH. f_equal. apply Hkd.
Qed.

Lemma Forall2_same_but_ads_refl (l : list KeywordData) : Forall2 same_but_ads l l.
Proof. induction l; constructor; [apply same_but_ads_refl|done]. Qed.

Lemma Forall2_same_but_ads_trans (l1 l2 l3 : list KeywordData) :
  Forall2 same_but_ads l1 l2 -> Forall2 same_but_ads l2 l3 -> Forall2 same_but_ads l1 l3.
Proof.
  intros H12. revert l3. induction H12 as [|a b l1 l2 Hab _ IH]; intros l3 H23.
  - by inversion H23.
  - inversion H23 as [|b' c l2' l3' Hbc H23']; subst.
    constructor; [by eapply same_but_ads_trans|by apply IH].
Qed.

Lemma store_ads_row_cases (db : DB) (n : Z) (row : AdsRow) :
  (exists i, (keyword_idea row ∈ stored_keywords db)
      /\ store_ads_row (db, n) row =
           (set_keywords (alter (update_ads row) i (keywords db)) db, n))
  \/ ((keyword_idea row ∉ stored_keywords db)
      /\ store_ads_row (db, n) row =
           (set_keywords (keywords db ++ [ads_defaults row]) db, n + 1)).
Proof.
  unfold store_ads_row, get_or_create, stored_keywords. simpl.
  destruct (list_find _ (keywords db)) as [[i kd]|] eqn:E; simpl.
  - left. exists i. split; [|done]. apply list_find_Some in E as (Hi & Hq & _).
    apply list_elem_of_fmap. exists kd. split; [done|].
    apply list_elem_of_lookup. by exists i.
  - right. split; [|done]. apply list_find_None in E.
    intros (kd & Hq & Hkd)%list_elem_of_fmap.
    by apply (proj1 (Forall_forall _ _) E kd Hkd).
Qed.

(** What the loop of lines 254-277 does to the table: the rows that were
    there stay, changed in their Ads fields at most, and one row of source
    [ads_expansion] is appended per idea that was not stored. *)
Lemma store_ads_rows_appends (rows : list AdsRow) :
  forall db n, exists old more,
    foldl store_ads_row (db, n) rows =
      (set_keywords (old ++ more) db, n + Z.of_nat (length more))
    /\ Forall2 same_but_ads (keywords db) old
    /\ Forall (fun kd => source_type kd = "ads_expansion"
                         /\ (kd_keyword kd ∉ stored_keywords db)
                         /\ exists row, row ∈ rows /\ kd_keyword kd = keyword_idea row) more
    /\ NoDup (kd_keyword <$> more).
Proof.
  induction rows as [|row rows IH]; intros db n.
  - exists (keywords db), []. simpl. rewrite app_nil_r, set_keywords_same, Z.add_0_r.
    repeat split; [apply Forall2_same_but_ads_refl|done|constructor].
  - simpl. destruct (store_ads_row_cases db n row) as [(i & Hin & ->)|[Hout ->]].
    + destruct (IH (set_keywords (alter (update_ads row) i (keywords db)) db) n)
        as (old & more & -> & Hold & Hmore & Hnd).
      exists old, more. rewrite set_keywords_set_keywords.
      assert (Halter : Forall2 same_but_ads (keywords db)
                         (alter (update_ads row) i (keywords db))).
      { apply Forall2_alter_r; [apply Forall2_same_but_ads_refl|].
        intros x y Hx Hy Hxy. eapply same_but_ads_trans; [exact Hxy|].
        apply same_but_ads_update. }
      split; [done|]. split; [|split; [|done]].
      * eapply Forall2_same_but_ads_trans; [exact Halter|exact Hold].
      * eapply Forall_impl; [exact Hmore|]. intros kd (Hs & Hk & r & Hr & Hkr).
        repeat split; [done| |exists r; split; [by right|done]].
        intros Hk'. apply Hk. unfold stored_keywords in *. simpl.
        by rewrite (same_but_ads_keywords _ _ Halter).
    + destruct (IH (set_keywords (keywords db ++ [ads_defaults row]) db) (n + 1))
        as (old1 & more & -> & Hold & Hmore & Hnd).
      simpl in Hold. apply Forall2_app_inv_l in Hold as (old & last & Hold & Hlast & ->).
      inversion Hlast as [|d d' ? rest Hd Hrest]; subst. inversion Hrest; subst.
      exists old, (d' :: more). rewrite set_keywords_set_keywords, <- app_assoc. simpl.
      destruct Hd as (Hk & Hs & _). simpl in Hk, Hs.
      split; [f_equal; lia|]. split; [done|]. split.
      * constructor.
        { repeat split; [done|by rewrite Hk|]. exists row. split; [by left|done]. }
        eapply Forall_impl; [exact Hmore|]. intros kd (Hs' & Hk' & r & Hr & Hkr).
        repeat split; [done| |exists r; split; [by right|done]].
        intros Hin. apply Hk'. unfold stored_keywords in *. simpl.
        rewrite fmap_app. apply elem_of_app. by left.
      * simpl. constructor; [|done].
        intros (kd & Hkd & Hin)%list_elem_of_fmap.
        destruct (proj1 (Forall_forall _ _) Hmore kd Hin) as (_ & Hk' & _).
        apply Hk'. unfold stored_keywords. simpl. rewrite fmap_app.
        apply elem_of_app. right. simpl. rewrite <- Hkd, Hk. by left.
Qed.

Lemma unique_after_ads_rows (rows : list AdsRow) (db : DB) (n : Z) :
  NoDup (stored_keywords db) ->
  NoDup (stored_keywords (foldl store_ads_row (db, n) rows).1).
Proof.
  intros Hnd.
  destruct (store_ads_rows_appends rows db n) as (old & more & -> & Hold & Hmore & Hnd').
  unfold stored_keywords in *. simpl. rewrite fmap_app.
  rewrite (same_but_ads_keywords _ _ Hold). apply NoDup_app.
  repeat split; [done| |done].
  intros kw Hkw (kd & -> & Hin)%list_elem_of_fmap.
  destruct (proj1 (Forall_forall _ _) Hmore kd Hin) as (_ & Hk & _).
  by apply Hk.
Qed.

Lemma save_outcomes_keywords (validation_results : gmap string bool) (ks : list KeywordData) :
  kd_keyword <$> (save_outcomes validation_results ks).1 = kd_keyword <$> ks.
Proof.
  induction ks as [|kd ks IH]; [done|].
  simpl. destruct (unverified kd); simpl; by f_equal.
Qed.

Lemma extract_keywords_unique (env : Env Data) (retries task_id : nat) (db : DB) :
  NoDup (stored_keywords db) ->
  NoDup (stored_keywords (extract_gsc_data env retries task_id db).1).
Proof.
  intros Hnd. unfold extract_gsc_data.
  destruct (gsc env retries) as [[|row rows]|exc]; [done| |by failure_case].
  cbv beta iota zeta.
  match goal with
  | |- context [foldl store_gsc_row (?d, ?n) ?l] =>
      pose proof (unique_after_gsc_rows l d n Hnd) as Hstored;
      revert Hstored; generalize (foldl store_gsc_row (d, n) l)
  end.
  by intros stored.
Qed.

Lemma expand_keywords_unique (env : Env Data) (retries task_id : nat) (db : DB) :
  NoDup (stored_keywords db) ->
  NoDup (stored_keywords (expand_keywords env retries task_id db).1).
Proof.
  intros Hnd. unfold expand_keywords. cbv beta iota zeta.
  destruct (kd_keyword <$> filter _ _) as [|seed seeds]; [done|].
  case_bool_decide; [by failure_case|].
  destruct (ads env retries) as [[|row rows]|exc]; [done| |by failure_case].
  match goal with
  | |- context [foldl store_ads_row (?d, ?n) ?l] =>
      pose proof (unique_after_ads_rows l d n Hnd) as Hstored;
      revert Hstored; generalize (foldl store_ads_row (d, n) l)
  end.
  by intros stored.
Qed.

Lemma validate_keywords_unique (env : Env Data) (retries task_id : nat) (db : DB) :
  NoDup (stored_keywords db) ->
  NoDup (stored_keywords
           (validate_aio_triggers _parse_serp_response env retries task_id db).1).
Proof.
  intros Hnd. unfold stored_keywords.
  destruct (validate_keywords _parse_serp_response env retries task_id db)
    as [-> | [res ->]]; [done|].
  by rewrite save_outcomes_keywords.
Qed.

Lemma delay_get_invariant (P : DB -> Prop) (body : nat -> DB -> DB * Outcome)
    (Hbody : forall retries db, P db -> P (body retries db).1) (max_retries : nat) :
  forall retries db, P db -> P (delay_get body max_retries retries db).1.
Proof.
  induction max_retries as [|n IH]; intros retries db HP; simpl;
    pose proof (Hbody retries db HP) as Hb;
    destruct (body retries db) as [db' [r|exc c|exc]]; simpl in *; try done.
  by apply IH.
Qed.

(** X10.  M1, M2 and M3, run in turn by the orchestrator with their
    retries, never store two rows for one keyword: if the keywords of the
    table are distinct before, they are distinct after, whatever the three
    APIs answer (the [unique_together] constraint of the model is never
    put to the test). *)
Theorem stages_never_store_a_keyword_twice
    (env : Env Data) (gsc_task expansion_task validation_task : nat) (db : DB)
    (Hunique : NoDup (stored_keywords db)) :
  NoDup (stored_keywords
           (run_stages _parse_serp_response env gsc_task expansion_task validation_task db).1).
Proof.
  unfold run_stages.
  pose proof (delay_get_invariant (fun d => NoDup (stored_keywords d))
                (fun retries => extract_gsc_data env retries gsc_task)
                (fun r d => extract_keywords_unique env r gsc_task d) 3 0
                (traced (Delayed "gsc_extraction") db) Hunique) as H1.
  destruct (delay_get _ 3 0 (traced (Delayed "gsc_extraction") db)) as [db1 [r1|exc]];
    [|done].
  pose proof (delay_get_invariant (fun d => NoDup (stored_keywords d))
                (fun retries => expand_keywords env retries expansion_task)
                (fun r d => expand_keywords_unique env r expansion_task d) 3 0
                (traced (Delayed "keyword_expansion") db1) H1) as H2.
  destruct (delay_get _ 3 0 (traced (Delayed "keyword_expansion") db1)) as [db2 [r2|exc]];
    [|done].
  pose proof (delay_get_invariant (fun d => NoDup (stored_keywords d))
                (fun retries =>
                   validate_aio_triggers _parse_serp_response env retries validation_task)
                (fun r d => validate_keywords_unique env r validation_task d) 2 0
                (traced (Delayed "aio_validation") db2) H2) as H3.
  by destruct (delay_get _ 2 0 (traced (Delayed "aio_validation") db2)) as [db3 [r3|exc]].
Qed.


(** *** What the expansion leaves alone *)

Lemma same_but_ads_seeds (l l' : list KeywordData) :
  Forall2 same_but_ads l l' ->
  kd_keyword <$> filter (fun kd => source_type kd = "gsc") l' =
  kd_keyword <$> filter (fun kd => source_type kd = "gsc") l.
Proof.
  induction 1 as [|kd kd' l l' (Hk & Hs & _) _ IH]; [done|].
  rewrite !filter_cons, Hs.
  destruct (decide (source_type kd = "gsc")); [|done].
  by rewrite !fmap_cons, IH, Hk.
Qed.

Lemma no_seed_among_expanded (more : list KeywordData) :
  Forall (fun kd => source_type kd = "ads_expansion") more ->
  filter (fun kd => source_type kd = "gsc") more = [].
Proof.
  intros Hmore. apply filter_none. intros kd Hkd.
  by rewrite (proj1 (Forall_forall _ _) Hmore kd Hkd).
Qed.

(** X11.  One execution of the expansion keeps every row of the table
    in its place, changed in its Google Ads fields at most; the rows it
    appends have the source [ads_expansion] and keywords that were not
    stored; so the seed keywords a later expansion reads are the same; the
    count it returns is the number of rows appended; and Google Ads is
    queried at most once, with the first 20 seed keywords. *)
Theorem expansion_keeps_rows_and_seeds
    (env : Env Data) (retries task_id : nat) (db : DB) :
  let out := expand_keywords env retries task_id db in
  exists old more,
    keywords out.1 = old ++ more
    /\ Forall2 same_but_ads (keywords db) old
    /\ Forall (fun kd => source_type kd = "ads_expansion"
                         /\ (kd_keyword kd ∉ stored_keywords db)) more
    /\ seed_keywords out.1 = seed_keywords db
    /\ (forall created total,
          out.2 = Success (ExpansionDone created total) -> created = Z.of_nat (length more))
    /\ (trace out.1 = trace db
        \/ trace out.1 = trace db ++ [AdsQueried (take 20 (seed_keywords db))]).
Proof.
  cbv zeta.
  assert (Hsame : forall db' o,
            keywords db' = keywords db ->
            (forall created total, o = Success (ExpansionDone created total) -> created = 0) ->
            (trace db' = trace db
             \/ trace db' = trace db ++ [AdsQueried (take 20 (seed_keywords db))]) ->
            exists old more,
              keywords (db', o).1 = old ++ more
              /\ Forall2 same_but_ads (keywords db) old
              /\ Forall (fun kd => source_type kd = "ads_expansion"
                                   /\ (kd_keyword kd ∉ stored_keywords db)) more
              /\ seed_keywords (db', o).1 = seed_keywords db
              /\ (forall created total,
                    (db', o).2 = Success (ExpansionDone created total) ->
                    created = Z.of_nat (length more))
              /\ (trace (db', o).1 = trace db
                  \/ trace (db', o).1 = trace db ++ [AdsQueried (take 20 (seed_keywords db))])).
  { intros db' o Hk Ho Ht. exists (keywords db), []. simpl. rewrite app_nil_r.
    unfold seed_keywords. rewrite Hk.
    repeat split; [apply Forall2_same_but_ads_refl|constructor|exact Ho|exact Ht]. }
  destruct (expand_keywords env retries task_id db) as [db' o] eqn:Hout.
  unfold expand_keywords in Hout. cbv beta iota zeta in Hout.
  change (kd_keyword <$> filter _ (keywords (save_project _ _)))
    with (seed_keywords db) in Hout.
  destruct (seed_keywords db) as [|seed seeds] eqn:Hseeds.
  { injection Hout as <- <-.
    apply Hsame; [done|by intros ? ? [= <-]|by left]. }
  case_bool_decide.
  { match type of Hout with
    | on_failure ?m ?c ?r ?t ?e ?d = _ =>
        destruct (on_failure_db m c r t e d) as [H1 H2]
    end.
    rewrite Hout in H1, H2. simpl in H1, H2. subst db'.
    apply Hsame; [done| |by left]. intros created total ->. by destruct (H2 (ExpansionDone created total)). }
  destruct (ads env retries) as [[|row rows]|exc].
  - injection Hout as <- <-.
    apply Hsame; [done|by intros ? ? [= <-]|by right].
  - revert Hout.
    match goal with
    | |- context [foldl store_ads_row (?d, ?n) ?l] =>
        destruct (store_ads_rows_appends l d n) as (old & more & -> & Hold & Hmore & Hnd)
    end.
    simpl. intros [= <- <-].
    exists old, more. rewrite <- Hseeds. unfold seed_keywords in *. simpl in *.
    rewrite filter_app, fmap_app.
    rewrite (no_seed_among_expanded more), app_nil_r.
    2:{ eapply Forall_impl; [exact Hmore|]. by intros kd (? & _). }
    rewrite (same_but_ads_seeds _ _ Hold).
    split; [done|]. split; [done|]. split.
    { eapply Forall_impl; [exact Hmore|]. by intros kd (? & ? & _). }
    split; [done|]. split; [|by right].
    intros created total [= <- _]. lia.
  - match type of Hout with
    | on_failure ?m ?c ?r ?t ?e ?d = _ =>
        destruct (on_failure_db m c r t e d) as [H1 H2]
    end.
    rewrite Hout in H1, H2. simpl in H1, H2. subst db'.
    apply Hsame; [done| |by right]. intros created total ->. by destruct (H2 (ExpansionDone created total)).
Qed.

(** *** What a validation leaves behind *)

Lemma save_outcomes_verified (validation_results : gmap string bool) (ks : list KeywordData) :
  Forall (fun kd => unverified kd = false) (save_outcomes validation_results ks).1.
Proof.
  induction ks as [|kd ks IH]; [constructor|].
  simpl. destruct (unverified kd) eqn:E; simpl; by constructor.
Qed.

Lemma save_outcomes_counts (validation_results : gmap string bool) (ks : list KeywordData) :
  let r := save_outcomes validation_results ks in
  r.2.1 = Z.of_nat (length (filter (fun kd => unverified kd = true) ks))
  /\ 0 <= r.2.2 <= r.2.1
  /\ Z.of_nat (length (filter (fun kd => aio_triggers kd = Some true) r.1)) =
       Z.of_nat (length (filter (fun kd => unverified kd = false /\ aio_triggers kd = Some true)
                           ks)) + r.2.2.
Proof.
  induction ks as [|kd ks (IH1 & IH2 & IH3)]; [done|].
  cbv zeta in *. simpl save_outcomes.
  rewrite (filter_cons (fun kd => unverified kd = true)).
  rewrite (filter_cons (fun kd => unverified kd = false /\ _)).
  destruct (unverified kd) eqn:E; cbn [fst snd].
  - rewrite decide_True by done. rewrite decide_False by (by intros [? _]).
    rewrite filter_cons. cbn [aio_triggers set_verified].
    destruct (default false (validation_results !! kd_keyword kd)).
    + rewrite decide_True by done. cbn [length]. lia.
    + rewrite decide_False by done. cbn [length]. lia.
  - rewrite decide_False by done. rewrite filter_cons.
    destruct (decide (aio_triggers kd = Some true)) as [Ht|Ht].
    + rewrite decide_True by done. cbn [length]. lia.
    + rewrite decide_False by (by intros [_ ?]). lia.
Qed.

Lemma save_outcomes_lookup (validation_results : gmap string bool) (ks : list KeywordData) :
  forall i kd, ks !! i = Some kd -> unverified kd = true ->
    (save_outcomes validation_results ks).1 !! i =
      Some (set_verified (default false (validation_results !! kd_keyword kd)) kd).
Proof.
  induction ks as [|k ks IH]; intros i kd Hi Hv; [done|].
  destruct i as [|i]; simpl in *.
  - injection Hi as ->. by rewrite Hv.
  - destruct (unverified k); simpl; by apply IH.
Qed.

Lemma validate_without_pending (env : Env Data) (retries task_id : nat) (db : DB) :
  pending_keywords db = [] ->
  validate_aio_triggers _parse_serp_response env retries task_id db =
  (update_task task_id (task_completed_empty "沒有關鍵字需要 AIO 驗證")
     (save_project (set_current_step "M3: AIO 驗證" (project db))
        (update_task task_id task_running db)),
   Success (ValidationDone 0 None)).
Proof.
  unfold pending_keywords. intros H%fmap_nil_inv.
  unfold validate_aio_triggers. cbv beta iota zeta. simpl keywords. by rewrite H.
Qed.

Lemma validate_with_pending (env : Env Data) (retries task_id : nat) (db : DB)
    (r : StageReturn) :
  pending_keywords db <> [] ->
  (validate_aio_triggers _parse_serp_response env retries task_id db).2 = Success r ->
  let validation_results :=
    (batch_validate_aio _parse_serp_response serp_config (serp_batch env retries)
       (pending_keywords db)).1 in
  let saved := save_outcomes validation_results (keywords db) in
  keywords (validate_aio_triggers _parse_serp_response env retries task_id db).1 = saved.1
  /\ r = ValidationDone saved.2.1 (Some (saved.2.2, percentage saved.2.2 saved.2.1))
  /\ aio_keywords (project (validate_aio_triggers _parse_serp_response env retries task_id db).1)
     = Z.of_nat (length (filter (fun kd => aio_triggers kd = Some true) saved.1)).
Proof.
  unfold pending_keywords. intros Hpending. cbv zeta.
  unfold validate_aio_triggers. cbv beta iota zeta. simpl keywords.
  destruct (filter _ (keywords db)) as [|kd kds] eqn:E; [done|].
  case_bool_decide; [by failure_case|].
  case_bool_decide; [by failure_case|].
  destruct (test_api_connection _ _ _); [|by failure_case].
  simpl. by intros [= <-].
Qed.

(** X12.  After an execution of the validation that returns, no row of
    the table is left unvalidated and the keywords of the table are the
    same; [verified_count] is the number of rows that were awaiting
    validation, [aio_count] is between 0 and it, the percentage is the one
    of the two, and the project's [aio_keywords] is [aio_count] plus the
    rows that were validated as triggering before; a further validation
    finds nothing to do and sends no request. *)
Theorem successful_validation_verifies_every_keyword
    (env : Env Data) (retries task_id : nat) (db : DB) (r : StageReturn)
    (Hok : (validate_aio_triggers _parse_serp_response env retries task_id db).2 = Success r) :
  let db' := (validate_aio_triggers _parse_serp_response env retries task_id db).1 in
  let pending := Z.of_nat (length (pending_keywords db)) in
  Forall (fun kd => unverified kd = false) (keywords db')
  /\ stored_keywords db' = stored_keywords db
  /\ (exists aio, r = ValidationDone pending aio
        /\ match aio with
           | None => pending = 0
           | Some (aio_count, pct) =>
               0 <= aio_count <= pending
               /\ pct = percentage aio_count pending
               /\ aio_keywords (project db') =
                    Z.of_nat (length (filter (fun kd => unverified kd = false
                                                        /\ aio_triggers kd = Some true)
                                        (keywords db))) + aio_count
           end)
  /\ (forall env' retries' task',
        let again := validate_aio_triggers _parse_serp_response env' retries' task' db' in
        again.2 = Success (ValidationDone 0 None)
        /\ trace again.1 = trace db'
        /\ keywords again.1 = keywords db').
Proof.
  cbv zeta.
  assert (Hdone : forall d, Forall (fun kd => unverified kd = false) (keywords d) ->
                            pending_keywords d = []).
  { intros d Hd. unfold pending_keywords. rewrite filter_none; [done|].
    intros kd Hkd. by rewrite (proj1 (Forall_forall _ _) Hd kd Hkd). }
  assert (Hagain : forall d, Forall (fun kd => unverified kd = false) (keywords d) ->
            forall env' retries' task',
              (validate_aio_triggers _parse_serp_response env' retries' task' d).2 =
                Success (ValidationDone 0 None)
              /\ trace (validate_aio_triggers _parse_serp_response env' retries' task' d).1 =
                   trace d
              /\ keywords (validate_aio_triggers _parse_serp_response env' retries' task' d).1 =
                   keywords d).
  { intros d Hd env' retries' task'. by rewrite validate_without_pending by by apply Hdone. }
  destruct (pending_keywords db) as [|kw kws] eqn:Hpending.
  - revert Hok. rewrite validate_without_pending by done. simpl. intros [= <-].
    assert (Hall : Forall (fun kd => unverified kd = false) (keywords db)).
    { apply Forall_forall. intros kd Hkd. destruct (unverified kd) eqn:E; [|done].
      unfold pending_keywords in Hpending. apply fmap_nil_inv in Hpending.
      by destruct (filter_nil_not_elem_of _ _ kd Hpending E). }
    split; [done|]. split; [done|]. split; [by exists None|].
    intros env' retries' task'.
    by apply (Hagain (update_task task_id (task_completed_empty "沒有關鍵字需要 AIO 驗證")
                 (save_project (set_current_step "M3: AIO 驗證" (project db))
                    (update_task task_id task_running db)))).
  - destruct (validate_with_pending env retries task_id db r) as (Hk & -> & Ha);
      [by rewrite Hpending|done|].
    rewrite Hpending in Hk, Ha |- *. cbv zeta in *.
    set (res := (batch_validate_aio _parse_serp_response serp_config (serp_batch env retries)
                   (kw :: kws)).1) in *.
    destruct (save_outcomes_counts res (keywords db)) as (H1 & H2 & H3).
    pose proof (save_outcomes_verified res (keywords db)) as Hall.
    assert (Hlen : (save_outcomes res (keywords db)).2.1 = Z.of_nat (length (kw :: kws))).
    { rewrite H1, <- Hpending. unfold pending_keywords. by rewrite length_fmap. }
    split; [by rewrite Hk|]. split.
    { unfold stored_keywords. by rewrite Hk, save_outcomes_keywords. }
    split.
    { eexists. rewrite <- Hlen. split; [reflexivity|]. simpl.
      split; [done|]. split; [done|]. by rewrite Ha, H3. }
    intros env' retries' task'. apply Hagain. by rewrite Hk.
Qed.

(** X13.  A keyword whose probes all fail on both attempts, in a
    validation that returns, is stored as validated with [aio_triggers =
    False]: its row cannot be told from that of a keyword that was probed and
    shows no overview. *)
Theorem failed_probe_is_stored_as_no_overview
    (env : Env Data) (retries task_id : nat) (db : DB) (r : StageReturn) (kw : string)
    (Hok : (validate_aio_triggers _parse_serp_response env retries task_id db).2 = Success r)
    (Hfail : forall i a, pending_keywords db !! i = Some kw -> (a < 2)%nat ->
                         failed_attempt (serp_batch env retries i a) = true) :
  let db' := (validate_aio_triggers _parse_serp_response env retries task_id db).1 in
  forall j kd,
    keywords db !! j = Some kd -> kd_keyword kd = kw -> unverified kd = true ->
    keywords db' !! j = Some (set_verified false kd).
Proof.
  cbv zeta. intros j kd Hj Hkw Hv.
  assert (Hin : kw ∈ pending_keywords db).
  { unfold pending_keywords. apply list_elem_of_fmap. exists kd. split; [done|].
    apply list_elem_of_filter. split; [done|]. apply list_elem_of_lookup. by exists j. }
  destruct (validate_with_pending env retries task_id db r) as (Hk & _ & _);
    [by intros E; rewrite E in Hin; apply elem_of_nil in Hin|done|].
  rewrite Hk. cbv zeta.
  rewrite (save_outcomes_lookup _ _ j kd Hj Hv), Hkw.
  destruct (last_occurrence _ kw Hin) as (i & Hi & Hlast).
  rewrite batch_results, (collect_fold_last _ _ _ _ i Hi Hlast). simpl.
  unfold flag. rewrite make_request_exhausted; [done|].
  intros a Ha. apply (Hfail i a Hi). simpl in Ha. lia.
Qed.

(** *** Retries *)

Lemma extract_raises (env : Env Data) (retries task_id : nat) (db : DB) (exc : string) :
  gsc env retries = Raises exc ->
  extract_gsc_data env retries task_id db =
  on_failure 3 60 retries task_id exc
    (traced GscQueried
       (save_project (set_current_step "M1: GSC 數據擷取" (project db))
          (update_task task_id task_running db))).
Proof. intros H. unfold extract_gsc_data. by rewrite H. Qed.

Lemma on_failure_retry (m c : Z) (retries task_id : nat) (exc : string) (db : DB) :
  Z.of_nat retries < m ->
  on_failure m c retries task_id exc db =
  (update_task task_id (task_failed exc) db, Retry exc (c * (Z.of_nat retries + 1))).
Proof. intros H. unfold on_failure. by rewrite bool_decide_eq_true_2. Qed.

Lemma on_failure_last (m c : Z) (retries task_id : nat) (exc : string) (db : DB) :
  m <= Z.of_nat retries ->
  on_failure m c retries task_id exc db =
  (update_task task_id (task_failed exc) db, Failure exc).
Proof. intros H. unfold on_failure. rewrite bool_decide_eq_false_2; [done|lia]. Qed.

(** X7.  When the extraction raises on every execution, M1 is executed
    four times ([max_retries = 3], with countdowns 60, 120 and 180 seconds
    asked for), its task row ends failed with the exception text, M2, M3 and
    M4 are not dispatched and their rows stay pending, no keyword is
    stored, and the orchestrator marks the project failed with the same
    text and raises. *)
Theorem extraction_failure_stops_the_pipeline
    (report : nat -> DB -> DB * Result StageReturn) (env : Env Data) (db : DB) (exc : string)
    (Hdown : forall retries, gsc env retries = Raises exc) :
  let n := length (tasks db) in
  let out := run_complete_analysis _parse_serp_response report env db in
  out.2 = Raised exc
  /\ trace out.1 =
       trace db ++ [Delayed "gsc_extraction"; GscQueried; GscQueried; GscQueried; GscQueried]
  /\ (forall retries d,
        (extract_gsc_data env retries n d).2 =
          if bool_decide (retries < 3)%nat
          then Retry exc (60 * (Z.of_nat retries + 1)) else Failure exc)
  /\ task_status <$> tasks out.1 =
       (task_status <$> tasks db) ++ ["failed"; "pending"; "pending"; "pending"]
  /\ task_error_message <$> tasks out.1 =
       (task_error_message <$> tasks db) ++ [exc; ""; ""; ""]
  /\ status (project out.1) = "failed"
  /\ error_message (project out.1) = exc
  /\ keywords out.1 = keywords db.
Proof.
  cbv zeta. rewrite run_complete_analysis_stages. cbv zeta.
  unfold run_stages.
  assert (Hrun : forall d,
    delay_get (fun retries => extract_gsc_data env retries (length (tasks db))) 3 0 d =
    (let run r d := update_task (length (tasks db)) (task_failed exc)
                      (traced GscQueried
                         (save_project (set_current_step "M1: GSC 數據擷取" (project d))
                            (update_task (length (tasks db)) task_running d))) in
     run 3%nat (run 2%nat (run 1%nat (run 0%nat d))), Raised exc)).
  { intros d. cbn [delay_get].
    rewrite !(extract_raises _ _ _ _ exc) by done.
    rewrite !on_failure_retry by lia.
    rewrite (extract_raises _ _ _ _ exc) by done.
    rewrite !on_failure_retry by lia.
    rewrite (extract_raises _ _ _ _ exc) by done.
    rewrite !on_failure_retry by lia.
    rewrite (extract_raises _ _ _ _ exc) by done.
    rewrite on_failure_last by lia. done. }
  rewrite Hrun. cbv zeta. cbn [fst snd].
  split; [done|]. split.
  { unfold started, create_task. simpl. by rewrite <- !app_assoc. }
  split.
  { intros retries d. rewrite (extract_raises _ _ _ _ exc) by done. unfold on_failure.
    repeat case_bool_decide; try done; lia. }
  split.
  { unfold started, create_task. simpl. rewrite <- !app_assoc. simpl.
    repeat (rewrite alter_app_r_alt by lia). rewrite ?Nat.sub_diag. simpl.
    by rewrite fmap_app. }
  split.
  { unfold started, create_task. simpl. rewrite <- !app_assoc. simpl.
    repeat (rewrite alter_app_r_alt by lia). rewrite ?Nat.sub_diag. simpl.
    by rewrite fmap_app. }
  done.
Qed.


Lemma extract_returns (env : Env Data) (retries task_id : nat) (db : DB)
    (row : GscRow) (rows : list GscRow) :
  gsc env retries = Returns (row :: rows) ->
  extract_gsc_data env retries task_id db =
  let project := set_current_step "M1: GSC 數據擷取" (project db) in
  let db := traced GscQueried (save_project project (update_task task_id task_running db)) in
  let stored := foldl store_gsc_row (update_task task_id (task_progress 50) db, 0)
                  (row :: rows) in
  let db := update_task task_id
              (task_completed (GscData (Z.of_nat (length (row :: rows))) stored.2) stored.2)
              stored.1 in
  (save_project
     (set_total_keywords (Z.of_nat (length (keywords db))) (step_completed project)) db,
   Success (GscDone stored.2 (Some (Z.of_nat (length (row :: rows)))))).
Proof. intros H. unfold extract_gsc_data. by rewrite H. Qed.

(** X8.  An extraction that raises on its first execution and gets an
    answer on the retry ends with its task row completed, Search Console
    having been queried twice; the row still carries the error text of the
    failed execution, which no later [save] clears. *)
Theorem retried_extraction_keeps_the_error_message
    (env : Env Data) (task_id : nat) (db : DB) (exc : string) (rows : list GscRow)
    (Hfirst : gsc env 0%nat = Raises exc)
    (Hsecond : gsc env 1%nat = Returns rows)
    (Htask : (task_id < length (tasks db))%nat) :
  let out := delay_get (fun retries => extract_gsc_data env retries task_id) 3 0 db in
  (exists r, out.2 = Ok r)
  /\ task_status <$> tasks out.1 !! task_id = Some "completed"
  /\ task_error_message <$> tasks out.1 !! task_id = Some exc
  /\ trace out.1 = trace db ++ [GscQueried; GscQueried].
Proof.
  cbv zeta. cbn [delay_get].
  rewrite (extract_raises _ _ _ _ exc) by done.
  rewrite on_failure_retry by lia.
  destruct (lookup_lt_is_Some_2 (tasks db) task_id Htask) as [t Ht].
  destruct rows as [|row rows].
  - unfold extract_gsc_data. rewrite Hsecond. simpl.
    split; [by eexists|].
    rewrite !list_lookup_alter_eq, Ht. simpl.
    by rewrite <- !app_assoc.
  - rewrite (extract_returns _ _ _ _ row rows) by done. cbv zeta.
    match goal with
    | |- context [foldl store_gsc_row (?d, ?n) ?l] =>
        destruct (store_gsc_rows l d n) as (ks & n' & ->)
    end.
    simpl. split; [by eexists|].
    rewrite !list_lookup_alter_eq, Ht. simpl.
    by rewrite <- !app_assoc.
Qed.

End TableProperties.

(** ** The callers of the batch client *)

Section CallerProperties.
Import SerpHandler.

Context {Data : Type}.
Variable _parse_serp_response : string -> Data -> SERPResult.

Lemma batch_lookup (h : SERPHandler) (oracle : nat -> nat -> @Response Data)
    (keywords : list string) (k : string) :
  k ∈ keywords ->
  exists i, keywords !! i = Some k
    /\ (batch_validate_aio _parse_serp_response h oracle keywords).1 !! k =
         Some (flag _parse_serp_response h oracle i k).
Proof.
  intros Hk. destruct (last_occurrence keywords k Hk) as (i & Hi & Hlast).
  exists i. split; [done|].
  by rewrite batch_results, (collect_fold_last _ _ _ _ i Hi Hlast).
Qed.

Lemma batch_lookup_absent (h : SERPHandler) (oracle : nat -> nat -> @Response Data)
    (keywords : list string) (k : string) :
  k ∉ keywords ->
  (batch_validate_aio _parse_serp_response h oracle keywords).1 !! k = None.
Proof.
  intros Hk. by rewrite batch_results, collect_fold_absent.
Qed.

Lemma fst_of_paired {A B : Type} (f : A -> B) (l : list A) :
  ((fun x => (x, f x)) <$> l).*1 = l.
Proof. induction l as [|x l IH]; [done|]. rewrite !fmap_cons. simpl. by f_equal. Qed.

(** X14.  In the command-line run, once the configuration is valid and
    Search Console and Google Ads both gave rows, [run_full_analysis]
    runs the four steps and returns the completed summary, whatever the SERP
    requests and the report generator do; every row of the validated frame
    carries a flag (the one of the probe of the last occurrence of its
    keyword), never a missing value; and the count of triggering keywords
    is between 0 and the number of rows. *)
Theorem cli_run_completes_with_a_flag_on_every_row
    (handler : SERPHandler) (round2 : PyNum -> PyNum) (env : Analyzer.Env Data)
    (gsc_data : list GscRow) (expanded_data : list AdsRow)
    (Hvalid : Analyzer.configuration_valid env = true)
    (Hgsc : Analyzer.gsc env = Returns gsc_data)
    (Hads : Analyzer.ads env = Returns expanded_data)
    (Hseeds : gsc_data <> [])
    (Hideas : expanded_data <> []) :
  let validated := Analyzer.validate_aio_triggers _parse_serp_response handler env
                     expanded_data in
  Forall (fun row => exists i,
            (keyword_idea <$> expanded_data) !! i =
              Some (keyword_idea row.1)
            /\ row.2 = Some (flag _parse_serp_response handler (Analyzer.serp env) i
                               (keyword_idea row.1))) validated
  /\ validated.*1 = expanded_data
  /\ exists aio_keywords,
       Analyzer.run_full_analysis _parse_serp_response handler round2 env =
         ([Analyzer.Extraction; Analyzer.Expansion; Analyzer.Validation; Analyzer.Reporting],
          Tasks.Ok (Analyzer.Completed (Z.of_nat (length gsc_data))
                      (Z.of_nat (length expanded_data)) aio_keywords
                      (round2 (percentage aio_keywords (Z.of_nat (length expanded_data))))
                      (Analyzer.generate_comprehensive_report env)))
       /\ 0 <= aio_keywords <= Z.of_nat (length expanded_data).
Proof.
  cbv zeta.
  assert (Hrows : (Analyzer.validate_aio_triggers _parse_serp_response handler env
                     expanded_data).*1 = expanded_data).
  { unfold Analyzer.validate_aio_triggers. apply fst_of_paired. }
  split; [|split; [done|]].
  - unfold Analyzer.validate_aio_triggers. apply Forall_fmap, Forall_forall.
    intros row Hrow. simpl.
    destruct (batch_lookup handler (Analyzer.serp env)
                (keyword_idea <$> expanded_data) (keyword_idea row))
      as (i & Hi & ->); [|by exists i].
    apply list_elem_of_fmap. by exists row.
  - unfold Analyzer.run_full_analysis, Analyzer.extract_seed_keywords,
      Analyzer.expand_keywords.
    rewrite Hvalid, Hgsc, Hads.
    destruct gsc_data as [|g gs]; [done|]. destruct expanded_data as [|e es]; [done|].
    cbv beta iota zeta. rewrite fmap_cons. cbv beta iota.
    eexists. split.
    + rewrite <- (length_fmap fst (Analyzer.validate_aio_triggers _ _ _ _)), Hrows.
      reflexivity.
    + split; [lia|].
      pose proof (length_filter (fun row : AdsRow * option bool => row.2 = Some true)
                    (Analyzer.validate_aio_triggers _parse_serp_response handler env
                       (e :: es))) as Hle.
      rewrite <- (length_fmap fst (Analyzer.validate_aio_triggers _ _ _ _)), Hrows in Hle.
      lia.
Qed.

Lemma preview_validation_with_a_key
    (api_key : string) (provider : Provider) (coin : nat -> bool)
    (oracle : nat -> nat -> @Response Data)
    (expanded_data : list LocalPreview.ExpandedRow) :
  expanded_data <> [] -> api_key <> "demo-key" ->
  LocalPreview._execute_aio_validation _parse_serp_response api_key provider coin oracle
    expanded_data =
  if bool_decide (api_key = "" \/ api_key = "YOUR_SERP_API_KEY")
  then Tasks.Raised "SERP API key 未正確設置"
  else
    let validation_results :=
      batch_validate_aio _parse_serp_response (LocalPreview.serp_config provider) oracle
        (take 10 (LocalPreview.keyword_idea <$> expanded_data)) in
    Tasks.Ok ((fun row => (row, validation_results.1 !! LocalPreview.keyword_idea row))
                <$> expanded_data,
              validation_results.2).
Proof.
  intros Hrows Hkey. unfold LocalPreview._execute_aio_validation.
  destruct expanded_data as [|row0 rows]; [done|].
  by rewrite (bool_decide_eq_false_2 (api_key = "demo-key")) by done.
Qed.

(** X15.  With a real key, the local preview probes the first ten
    keywords of the expanded frame and no others; a row whose keyword is
    among them carries the flag of its probe, every other row has no value
    in [triggers_aio], which the report writes as "Y". *)
Theorem preview_probes_the_first_ten_keywords_only
    (api_key : string) (provider : Provider) (coin : nat -> bool)
    (oracle : nat -> nat -> @Response Data)
    (expanded_data : list LocalPreview.ExpandedRow)
    (validated : list (LocalPreview.ExpandedRow * option bool))
    (probes : list (string * list Event))
    (Hkey : api_key <> "demo-key")
    (Hrun : LocalPreview._execute_aio_validation _parse_serp_response api_key provider coin
              oracle expanded_data = Tasks.Ok (validated, probes)) :
  let keywords := LocalPreview.keyword_idea <$> expanded_data in
  validated.*1 = expanded_data
  /\ probes.*1 = take 10 keywords
  /\ (length probes <= 10)%nat
  /\ Forall (fun row =>
       if bool_decide (LocalPreview.keyword_idea row.1 ∈ take 10 keywords)
       then exists i, take 10 keywords !! i = Some (LocalPreview.keyword_idea row.1)
              /\ row.2 = Some (flag _parse_serp_response (LocalPreview.serp_config provider)
                                 oracle i (LocalPreview.keyword_idea row.1))
       else row.2 = None /\ LocalPreview.report_flag row.2 = "Y") validated.
Proof.
  cbv zeta. destruct (decide (expanded_data = [])) as [->|Hrows].
  { injection Hrun as <- <-. repeat split; [simpl; lia|constructor]. }
  rewrite preview_validation_with_a_key in Hrun by done.
  case_bool_decide; [done|]. cbv zeta in Hrun.
  set (keywords := take 10 (LocalPreview.keyword_idea <$> expanded_data)) in *.
  assert (validated =
            (fun row => (row, (batch_validate_aio _parse_serp_response
                                 (LocalPreview.serp_config provider) oracle keywords).1
                              !! LocalPreview.keyword_idea row)) <$> expanded_data) as ->
    by congruence.
  assert (probes = (batch_validate_aio _parse_serp_response
                      (LocalPreview.serp_config provider) oracle keywords).2) as ->
    by congruence.
  split; [|split; [|split]].
  - apply fst_of_paired.
  - rewrite batch_log, fmap_imap. rewrite <- (list_fmap_id keywords) at 2.
    rewrite <- imap_const. by apply imap_ext.
  - rewrite batch_log, length_imap. unfold keywords. rewrite length_take. lia.
  - apply Forall_fmap, Forall_forall. intros row Hrow. simpl.
    case_bool_decide as Hin.
    + destruct (batch_lookup (LocalPreview.serp_config provider) oracle keywords
                  (LocalPreview.keyword_idea row) Hin) as (i & Hi & ->).
      by exists i.
    + by rewrite batch_lookup_absent.
Qed.

End CallerProperties.

(** ** The configuration *)

Section SettingsProperties.
Import Py Settings.

Lemma dict_get_set (key : string) (value : Value) (d : Dict) :
  dict_get key (dict_set key value d) = Some value.
Proof.
  induction d as [|[k v] d IH]; simpl.
  - by rewrite decide_True.
  - destruct (decide (k = key)) as [->|Hne]; simpl.
    + by rewrite decide_True.
    + by rewrite decide_False.
Qed.

Lemma dict_get_set_ne (key key' : string) (value : Value) (d : Dict) :
  key <> key' -> dict_get key' (dict_set key value d) = dict_get key' d.
Proof.
  intros Hne. induction d as [|[k v] d IH]; simpl.
  - by rewrite decide_False.
  - destruct (decide (k = key)) as [->|Hk]; simpl.
    + by rewrite !decide_False.
    + destruct (decide (k = key')); [done|apply IH].
Qed.

Lemma dict_get_elem (key : string) (d : Dict) (v : Value) :
  dict_get key d = Some v -> (key, v) ∈ d.
Proof.
  induction d as [|[k v'] d IH]; simpl; [done|].
  destruct (decide (k = key)) as [->|Hne].
  - intros [= ->]. by left.
  - intros H. right. by apply IH.
Qed.

Lemma dict_get_absent (key : string) (d : Dict) :
  key ∉ d.*1 -> dict_get key d = None.
Proof.
  induction d as [|[k v] d IH]; simpl; [done|].
  intros [Hne Hd]%not_elem_of_cons. by rewrite decide_False by done; apply IH.
Qed.

Lemma split_cons (sep : Ascii.ascii) (s : string) :
  exists first others, split sep s = first :: others.
Proof.
  induction s as [|c s (first & others & IH)]; simpl; [by eexists _, _|].
  destruct (decide (c = sep)); [by eexists _, _|]. rewrite IH. by eexists _, _.
Qed.

(** *** [get] after [set] *)






(** *** Merging the custom file *)

Lemma merge_config_cons (base : Dict) (key : string) (value : Value) (rest : Dict) :
  _merge_config base ((key, value) :: rest) =
  _merge_config (dict_set key (merged_entry (dict_get key base) value) base) rest.
Proof.
  unfold _merge_config, merged_entry. simpl.
  destruct (dict_get key base) as [[| | | | | |b]|]; try done. by destruct value.
Qed.

Lemma merge_config_get (custom : Dict) :
  NoDup (custom.*1) ->
  forall base key,
    dict_get key (_merge_config base custom) =
    match dict_get key custom with
    | Some v => Some (merged_entry (dict_get key base) v)
    | None => dict_get key base
    end.
Proof.
  induction custom as [|[k v] custom IH]; intros Hnd base key; [done|].
  apply NoDup_cons in Hnd as [Hk Hnd]. rewrite merge_config_cons, (IH Hnd). simpl.
  destruct (decide (k = key)) as [->|Hne].
  - by rewrite dict_get_absent, dict_get_set.
  - by rewrite dict_get_set_ne.
Qed.

Lemma well_formed_items (items : Dict) :
  well_formed (VDict items) ->
  NoDup (items.*1) /\ forall key v, dict_get key items = Some v -> well_formed v.
Proof.
  intros [Hnd Hall]. split; [done|]. clear Hnd.
  induction items as [|[k v'] items IH]; intros key v; simpl; [done|].
  destruct Hall as [Hv Hall]. destruct (decide (k = key)).
  - by intros [= <-].
  - by apply IH.
Qed.

Lemma not_mentioned_get (keys : list string) :
  forall custom, not_mentioned keys custom = true -> get_path keys custom = None.
Proof.
  induction keys as [|key keys IH]; intros custom; [done|].
  destruct custom as [| | | | | |d]; try done. simpl.
  destruct (dict_get key d) as [v|]; [apply IH|done].
Qed.

Lemma get_path_dict (keys : list string) (v v' : Value) :
  keys <> [] -> get_path keys v = Some v' -> is_dict v = true.
Proof. destruct keys; [done|]. by destruct v. Qed.

Lemma merged_get_custom (keys : list string) :
  forall base custom v,
    well_formed (VDict custom) ->
    get_path keys (VDict custom) = Some v -> is_dict v = false ->
    get_path keys (VDict (_merge_config base custom)) = Some v.
Proof.
  induction keys as [|key keys IH]; intros base custom v Hwf; [by intros [= <-]|].
  destruct (well_formed_items custom Hwf) as [Hnd Hsub].
  cbn [get_path]. rewrite (merge_config_get custom Hnd).
  destruct (dict_get key custom) as [v0|] eqn:E; [|done].
  intros Hv Hleaf. unfold merged_entry.
  destruct (dict_get key base) as [[| | | | | |b]|]; try done.
  destruct v0 as [| | | | | |c]; try done.
  apply IH; [|done..]. by apply (Hsub key).
Qed.

Lemma merged_get_base (keys : list string) :
  forall base custom,
    well_formed (VDict custom) ->
    not_mentioned keys (VDict custom) = true ->
    get_path keys (VDict (_merge_config base custom)) = get_path keys (VDict base).
Proof.
  induction keys as [|key keys IH]; intros base custom Hwf; [done|].
  destruct (well_formed_items custom Hwf) as [Hnd Hsub].
  cbn [get_path not_mentioned]. rewrite (merge_config_get custom Hnd).
  destruct (dict_get key custom) as [v0|] eqn:E; [|done].
  intros Hnot. destruct keys as [|key2 keys]; [by destruct v0|].
  destruct v0 as [| | | | | |c]; try done. unfold merged_entry.
  destruct (dict_get key base) as [[| | | | | |b]|];
    try by apply (not_mentioned_get (key2 :: keys) (VDict c)).
  apply IH; [|done]. by apply (Hsub key).
Qed.

(** X17.  Merging a custom configuration replaces the defaults setting
    by setting, not section by section: every value of the custom
    dictionary that is not itself a dictionary is found at its path after
    the merge, and every path the custom dictionary says nothing about keeps
    what the defaults had there; a custom file that cannot be read, or that
    does not hold a dictionary, leaves the defaults as they are. *)
Theorem custom_file_overrides_defaults_key_by_key (base custom : Dict)
    (Hunique : well_formed (VDict custom)) :
  let merged := VDict (_merge_config base custom) in
  (forall keys v,
     get_path keys (VDict custom) = Some v -> is_dict v = false ->
     get_path keys merged = Some v)
  /\ (forall keys,
        not_mentioned keys (VDict custom) = true ->
        get_path keys merged = get_path keys (VDict base))
  /\ (forall nothing, is_dict nothing = false ->
        _load_custom_config (Some nothing) base = base)
  /\ _load_custom_config None base = base.
Proof.
  cbv zeta. split; [|split; [|split]].
  - intros keys v. by apply merged_get_custom.
  - intros keys. by apply merged_get_base.
  - by intros [| | | | | |d].
  - done.
Qed.

(** *** The environment *)

Lemma load_variable_raised (getenv : string -> option string) (ms : list (string * (string * string))) :
  foldl (load_variable getenv) None ms = None.
Proof. by induction ms. Qed.

Lemma load_variable_sets (getenv : string -> option string) (_config _config' : Dict)
    (env_var section key value : string) :
  load_variable getenv (Some _config) (env_var, (section, key)) = Some _config' ->
  getenv env_var = Some value -> value <> "" ->
  get_path [section; key] (VDict _config') = Some (VStr value).
Proof.
  unfold load_variable. intros H Hvar Hvalue. rewrite Hvar in H.
  rewrite bool_decide_eq_false_2 in H by done. cbv zeta in H.
  destruct (dict_get section _) as [[| | | | | |d]|] eqn:E in H; try done.
  injection H as <-. simpl. by rewrite !dict_get_set.
Qed.

Lemma load_variable_keeps (getenv : string -> option string) (_config _config' : Dict)
    (mapping : string * (string * string)) (section key : string) :
  load_variable getenv (Some _config) mapping = Some _config' ->
  mapping.2 <> (section, key) \/ getenv mapping.1 = None \/ getenv mapping.1 = Some "" ->
  get_path [section; key] (VDict _config') = get_path [section; key] (VDict _config).
Proof.
  destruct mapping as [env_var [section' key']]. unfold load_variable. simpl.
  intros H Hor. destruct (getenv env_var) as [value|]; [|by injection H as <-].
  case_bool_decide as Hvalue; [by injection H as <-|].
  destruct Hor as [Hne|[?|[= ?]]]; [|done..].
  cbv zeta in H.
  destruct (dict_get section' _config) as [old|] eqn:Eold.
  - rewrite Eold in H. destruct old as [| | | | | |d]; try done. injection H as <-.
    destruct (decide (section' = section)) as [->|Hs].
    + rewrite dict_get_set, Eold. rewrite dict_get_set_ne; [done|congruence].
    + by rewrite dict_get_set_ne.
  - rewrite dict_get_set in H. injection H as <-.
    destruct (decide (section' = section)) as [->|Hs].
    + rewrite dict_get_set, Eold. simpl. rewrite decide_False; [done|congruence].
    + by rewrite !dict_get_set_ne.
Qed.

Lemma load_variables_keep (getenv : string -> option string)
    (ms : list (string * (string * string))) (section key : string) :
  forall _config _config',
    foldl (load_variable getenv) (Some _config) ms = Some _config' ->
    (forall m, m ∈ ms ->
       m.2 <> (section, key) \/ getenv m.1 = None \/ getenv m.1 = Some "") ->
    get_path [section; key] (VDict _config') = get_path [section; key] (VDict _config).
Proof.
  induction ms as [|m ms IH]; intros _config _config'; cbn [foldl].
  - by intros [= <-].
  - destruct (load_variable getenv (Some _config) m) as [c1|] eqn:E;
      [|by rewrite load_variable_raised].
    intros Hfold Hall. rewrite (IH _ _ Hfold).
    + apply (load_variable_keeps _ _ _ _ _ _ E). apply Hall. by left.
    + intros m' Hm'. apply Hall. by right.
Qed.

Lemma load_variables_set (getenv : string -> option string)
    (ms : list (string * (string * string))) (env_var section key value : string) :
  NoDup (ms.*2) ->
  (env_var, (section, key)) ∈ ms ->
  getenv env_var = Some value -> value <> "" ->
  forall _config _config',
    foldl (load_variable getenv) (Some _config) ms = Some _config' ->
    get_path [section; key] (VDict _config') = Some (VStr value).
Proof.
  intros Hnd Hin Hvar Hvalue. induction ms as [|m ms IH]; intros _config _config';
    [by apply elem_of_nil in Hin|].
  cbn [foldl]. rewrite fmap_cons in Hnd. apply NoDup_cons in Hnd as [Hm Hnd].
  destruct (load_variable getenv (Some _config) m) as [c1|] eqn:E;
    [|by rewrite load_variable_raised].
  intros Hfold. apply elem_of_cons in Hin as [<-|Hin].
  - rewrite (load_variables_keep _ _ _ _ _ _ Hfold).
    + by apply (load_variable_sets _ _ _ _ _ _ _ E).
    + intros m' Hm'. left. intros Heq. apply Hm. simpl. rewrite <- Heq.
      apply list_elem_of_fmap. by exists m'.
  - by apply (IH Hnd Hin _ _ Hfold).
Qed.

Lemma env_mappings_distinct : NoDup (env_mappings.*2).
Proof.
  unfold env_mappings. simpl.
  repeat (apply NoDup_cons_2;
          [rewrite ?not_elem_of_cons; repeat split; try discriminate; apply not_elem_of_nil|]).
  apply NoDup_nil_2.
Qed.

Lemma environment_value (getenv : string -> option string) (c c' : Dict)
    (env_var section key : string) :
  foldl (load_variable getenv) (Some c) env_mappings = Some c' ->
  (env_var, (section, key)) ∈ env_mappings ->
  get_path [section; key] (VDict c') =
    match getenv env_var with
    | Some value =>
        if bool_decide (value = "") then get_path [section; key] (VDict c)
        else Some (VStr value)
    | None => get_path [section; key] (VDict c)
    end.
Proof.
  intros Hfold Hmap.
  assert (Hkeep : getenv env_var = None \/ getenv env_var = Some "" ->
            get_path [section; key] (VDict c') = get_path [section; key] (VDict c)).
  { intros Hno. apply (load_variables_keep _ _ _ _ _ _ Hfold).
    intros m Hm. destruct (decide (m.2 = (section, key))) as [Heq|]; [|by left].
    right. assert (m = (env_var, (section, key))) as ->; [|done].
    pose proof env_mappings_distinct as Hnd.
    apply list_elem_of_lookup in Hm as [i Hi]. apply list_elem_of_lookup in Hmap as [j Hj].
    assert (i = j) as ->.
    { apply (NoDup_lookup _ i j (section, key) Hnd); rewrite list_lookup_fmap.
      - by rewrite Hi; simpl; rewrite Heq.
      - by rewrite Hj. }
    rewrite Hi in Hj. by injection Hj. }
  destruct (getenv env_var) as [value|] eqn:Hvar.
  - case_bool_decide as Hvalue.
    + subst value. apply Hkeep. by right.
    + by apply (load_variables_set getenv env_mappings env_var section key value
                  env_mappings_distinct Hmap Hvar Hvalue _ _ Hfold).
  - apply Hkeep. by left.
Qed.

(** X18.  When the constructor of [Config] returns, each of the eight
    settings that has an environment variable holds the value of the
    variable if it is set and not empty, and otherwise what the custom file
    and the defaults gave. *)
Theorem environment_overrides_files_and_defaults
    (config_path project_path : string -> string)
    (config_file : option (option Value)) (getenv : string -> option string)
    (_config : Dict) (env_var section key : string)
    (Hinit : __init__ config_path project_path config_file getenv = Some _config)
    (Hmap : (env_var, (section, key)) ∈ env_mappings) :
  let from_files :=
    match config_file with
    | Some custom_config =>
        _load_custom_config custom_config (_load_default_config config_path project_path)
    | None => _load_default_config config_path project_path
    end in
  match getenv env_var with
  | Some value =>
      get_path [section; key] (VDict _config) =
        if bool_decide (value = "") then get_path [section; key] (VDict from_files)
        else Some (VStr value)
  | None => get_path [section; key] (VDict _config) = get_path [section; key] (VDict from_files)
  end.
Proof.
  cbv zeta. unfold __init__, _load_from_environment in Hinit. cbv zeta in Hinit.
  rewrite (environment_value getenv _ _ env_var section key Hinit Hmap).
  by destruct (getenv env_var) as [value|]; [case_bool_decide|].
Qed.

End SettingsProperties.

(** ** The configuration the handlers are built from *)

Section ConstructionProperties.
Import Py PyOps Settings.

Variable config_path project_path : string -> string.
Variable getenv : string -> option string.

Local Abbreviation defaults := (_load_default_config config_path project_path).

Lemma defaults_sections : sections_are_dicts defaults.
Proof.
  intros section v H. unfold _load_default_config in H. simpl in H.
  repeat (case_decide; [by injection H as <-|]). done.
Qed.

Lemma load_variable_returns (_config : Dict) (mapping : string * (string * string)) :
  sections_are_dicts _config ->
  exists _config', load_variable getenv (Some _config) mapping = Some _config'
                   /\ sections_are_dicts _config'.
Proof.
  intros Hd. destruct mapping as [env_var [section key]]. unfold load_variable.
  destruct (getenv env_var) as [value|]; [|by exists _config].
  case_bool_decide; [by exists _config|]. cbv zeta.
  destruct (dict_get section _config) as [old|] eqn:Eold.
  - rewrite Eold. pose proof (Hd _ _ Eold) as Hold. destruct old as [| | | | | |d]; try done.
    eexists. split; [done|]. intros s v.
    destruct (decide (section = s)) as [->|Hs].
    + rewrite dict_get_set. by intros [= <-].
    + rewrite dict_get_set_ne by done. apply Hd.
  - rewrite dict_get_set. eexists. split; [done|]. intros s v.
    destruct (decide (section = s)) as [->|Hs].
    + rewrite dict_get_set. by intros [= <-].
    + rewrite !dict_get_set_ne by done. apply Hd.
Qed.

Lemma load_variables_return (ms : list (string * (string * string))) :
  forall _config, sections_are_dicts _config ->
    exists _config', foldl (load_variable getenv) (Some _config) ms = Some _config'.
Proof.
  induction ms as [|m ms IH]; intros _config Hd; cbn [foldl]; [by eexists|].
  destruct (load_variable_returns _config m Hd) as (c1 & -> & Hd1). by apply IH.
Qed.

Lemma init_returns : exists _config, __init__ config_path project_path None getenv = Some _config.
Proof. apply load_variables_return, defaults_sections. Qed.

(** The settings of the defaults that no variable of the environment
    reaches. *)
Lemma untouched_setting (_config : Dict) (section key : string) :
  __init__ config_path project_path None getenv = Some _config ->
  (forall m, m ∈ env_mappings -> m.2 <> (section, key)) ->
  get_path [section; key] (VDict _config) = get_path [section; key] (VDict defaults).
Proof.
  intros Hinit Hno. apply (load_variables_keep _ _ _ _ _ _ Hinit).
  intros m Hm. left. by apply Hno.
Qed.

Lemma default_setting (_config : Dict) (env_var section key default : string) :
  __init__ config_path project_path None getenv = Some _config ->
  (env_var, (section, key)) ∈ env_mappings ->
  get_path [section; key] (VDict defaults) = Some (VStr default) ->
  get_path [section; key] (VDict _config) = Some (VStr (effective getenv env_var default)).
Proof.
  intros Hinit Hmap Hdefault.
  rewrite (environment_value getenv _ _ env_var section key Hinit Hmap). unfold effective.
  destruct (getenv env_var) as [value|]; [|done]. by case_bool_decide.
Qed.

Lemma section_of_setting (_config : Dict) (section key : string) (v : Value) :
  get_path [section; key] (VDict _config) = Some v ->
  exists d, dict_get section _config = Some (VDict d) /\ dict_get key d = Some v.
Proof.
  simpl. destruct (dict_get section _config) as [[| | | | | |d]|]; try done.
  destruct (dict_get key d) eqn:E; [|done]. intros [= <-]. by exists d.
Qed.

Lemma section_lookup (_config : Dict) (section key : string) (d : Dict) :
  dict_get section _config = Some (VDict d) ->
  dict_get key d = get_path [section; key] (VDict _config).
Proof. simpl. intros ->. by destruct (dict_get key d). Qed.

Lemma get_section (_config : Dict) (section : string) (v default : Value) :
  dict_get section _config = Some v ->
  split "." section = [section] ->
  Settings.get (VDict _config) section default = v.
Proof. unfold Settings.get. intros H ->. simpl. by rewrite H. Qed.

Lemma get_field (_config : Dict) (section : string) (keys : list string) (v default : Value) :
  get_path keys (VDict _config) = Some v ->
  split "." section = keys ->
  Settings.get (VDict _config) section default = v.
Proof. unfold Settings.get. intros H ->. by rewrite H. Qed.

Ltac not_mapped :=
  let m := fresh "m" in let Hm := fresh "Hm" in
  intros m Hm; unfold env_mappings in Hm;
  repeat (apply elem_of_cons in Hm as [->|Hm]; [discriminate|]);
  by apply elem_of_nil in Hm.

Ltac mapped := unfold env_mappings; set_solver.

(** X22.  With no custom file, whatever the environment holds, the
    constructor of [Config] returns, and the [SERPHandler] built from that
    configuration raises unless [SERP_API_KEY] is set to something other
    than the empty string and the placeholder of the defaults.  When it is
    built its key is the value of the variable and its provider is
    [serper], the default of the constructor, while its endpoint is the one
    of SerpApi, the default of the settings; it has 10 slots, one request
    per second, a timeout of 30 seconds and 3 attempts one second apart. *)
Theorem default_configuration_builds_a_serper_handler :
  exists _config,
    __init__ config_path project_path None getenv = Some _config
    /\ match getenv "SERP_API_KEY" with
       | Some key =>
           if bool_decide (key = "" \/ key = "YOUR_SERP_API_KEY")
           then Construction.__init__ (VDict _config) = None
           else exists a,
                  Construction.__init__ (VDict _config) = Some a
                  /\ Construction.api_key a = VStr key
                  /\ Construction.api_provider a = VStr "serper"
                  /\ Construction.endpoint a = VStr "https://serpapi.com/search.json"
                  /\ Construction.concurrent_requests a = VInt 10
                  /\ Construction.rate_limit a = VFloat 1
                  /\ Construction.timeout a = VInt 30
                  /\ Construction.retry_attempts a = VInt 3
                  /\ Construction.retry_delay a = VInt 1
       | None => Construction.__init__ (VDict _config) = None
       end.
Proof.
  destruct init_returns as [c Hinit]. exists c. split; [done|].
  pose proof (default_setting c "SERP_API_KEY" "serp" "api_key" "YOUR_SERP_API_KEY" Hinit
                ltac:(mapped) eq_refl) as Hkey.
  destruct (section_of_setting _ _ _ _ Hkey) as (serp & Hserp & Hapi_key).
  assert (Hrest : forall key, key <> "api_key" ->
            dict_get key serp = get_path ["serp"; key] (VDict defaults)).
  { intros key Hne. rewrite (section_lookup c "serp" key serp Hserp).
    apply (untouched_setting _ _ _ Hinit).
    intros m Hm. unfold env_mappings in Hm.
    repeat (apply elem_of_cons in Hm as [->|Hm]; [simpl; congruence|]).
    by apply elem_of_nil in Hm. }
  pose proof (untouched_setting c "performance" "timeout" Hinit ltac:(not_mapped)) as Htimeout.
  destruct (section_of_setting _ _ _ _ Htimeout) as (performance & Hperformance & _).
  assert (Hperf : forall key,
            dict_get key performance = get_path ["performance"; key] (VDict defaults)).
  { intros key. rewrite (section_lookup c "performance" key performance Hperformance).
    apply (untouched_setting _ _ _ Hinit).
    intros m Hm. unfold env_mappings in Hm.
    repeat (apply elem_of_cons in Hm as [->|Hm]; [simpl; congruence|]).
    by apply elem_of_nil in Hm. }
  unfold Construction.__init__.
  rewrite (get_section c "serp" (VDict serp) (VDict []) Hserp eq_refl).
  rewrite (get_section c "performance" (VDict performance) (VDict []) Hperformance eq_refl).
  unfold PyOps.get. rewrite Hapi_key, !Hrest by done. rewrite !Hperf. simpl.
  unfold Construction._validate_config, effective.
  destruct (getenv "SERP_API_KEY") as [key|]; [|done].
  destruct (decide (key = "")) as [->|Hempty].
  { by rewrite bool_decide_eq_true_2 by by left. }
  rewrite (bool_decide_eq_false_2 (key = "")) by done. simpl.
  rewrite (bool_decide_eq_false_2 (key = "")) by done. simpl.
  destruct (decide (key = "YOUR_SERP_API_KEY")) as [->|Hplaceholder].
  { by rewrite bool_decide_eq_true_2 by by right. }
  rewrite (bool_decide_eq_false_2 (key = "YOUR_SERP_API_KEY")) by done.
  rewrite bool_decide_eq_false_2 by by intros [?|?]. simpl.
  eexists. split; [done|]. by simpl.
Qed.

Lemma rejected_by_the_driver (env_var default : string) :
  default <> "" -> default <> "YOUR_API_KEY" ->
  negb (truthy (VStr (effective getenv env_var default)))
  || eq_str (VStr (effective getenv env_var default)) "YOUR_API_KEY"
  = bool_decide (getenv env_var = Some "YOUR_API_KEY").
Proof.
  intros Hempty Hplaceholder. unfold effective. simpl.
  destruct (getenv env_var) as [value|].
  - destruct (decide (value = "")) as [->|Hvalue].
    + rewrite (bool_decide_eq_true_2 ("" = "")) by done.
      rewrite (bool_decide_eq_false_2 (default = "")) by done.
      rewrite (bool_decide_eq_false_2 (default = _)) by done.
      by rewrite bool_decide_eq_false_2 by discriminate.
    + rewrite !(bool_decide_eq_false_2 (value = "")) by done. simpl.
      apply bool_decide_ext. split; [by intros ->|by intros [= ->]].
  - rewrite (bool_decide_eq_false_2 (default = "")) by done.
    rewrite (bool_decide_eq_false_2 (default = _)) by done.
    by rewrite bool_decide_eq_false_2 by discriminate.
Qed.

Lemma rejected_by_validate (env_var default : string) :
  default <> "" -> default <> "YOUR_API_KEY" -> default <> "your-domain.com" ->
  negb (truthy (VStr (effective getenv env_var default)))
  || eq_str (VStr (effective getenv env_var default)) "YOUR_API_KEY"
  || eq_str (VStr (effective getenv env_var default)) "your-domain.com"
  = bool_decide (getenv env_var = Some "YOUR_API_KEY" \/ getenv env_var = Some "your-domain.com").
Proof.
  intros Hempty Hplaceholder Hdomain. unfold effective. simpl.
  destruct (getenv env_var) as [value|].
  - destruct (decide (value = "")) as [->|Hvalue].
    + rewrite (bool_decide_eq_true_2 ("" = "")) by done.
      rewrite (bool_decide_eq_false_2 (default = "")) by done.
      rewrite !(bool_decide_eq_false_2 (default = _)) by done.
      by rewrite bool_decide_eq_false_2 by by intros [?|?].
    + rewrite !(bool_decide_eq_false_2 (value = "")) by done. simpl.
      rewrite <- bool_decide_or. apply bool_decide_ext.
      split; [by intros [->| ->]; [left|right]|by intros [[= ->]|[= ->]]; [left|right]].
  - rewrite (bool_decide_eq_false_2 (default = "")) by done.
    rewrite !(bool_decide_eq_false_2 (default = _)) by done.
    by rewrite bool_decide_eq_false_2 by by intros [?|?].
Qed.

Lemma driver_setting (_config : Dict) (section key : string) (v : Value) :
  get_path [section; key] (VDict _config) = Some v ->
  split "." section = [section] ->
  AnalyzerConfig.setting (VDict _config) section key = Some v.
Proof.
  intros H Hsplit. destruct (section_of_setting _ _ _ _ H) as (d & Hd & Hv).
  unfold AnalyzerConfig.setting. rewrite (get_section _ _ _ _ Hd Hsplit). simpl.
  by rewrite Hv.
Qed.

(** X23.  With no custom file, [validate_configuration] never raises and
    returns [False] only when one of the five variables of the environment
    is literally [YOUR_API_KEY] or one of the two files does not exist: the
    placeholders of the defaults (the site [sc-domain:your-domain.com], the
    customer id [123-456-7890], the key [YOUR_SERP_API_KEY]) all pass. *)
Theorem validate_configuration_accepts_the_default_site
    (path_exists : Value -> option bool) (file_exists : string -> bool)
    (Hexists : forall path, path_exists (VStr path) = Some (file_exists path))
    (Hcredentials : config_path "credentials.json" <> ""
                    /\ config_path "credentials.json" <> "YOUR_API_KEY")
    (Hyaml : config_path "google-ads.yaml" <> ""
             /\ config_path "google-ads.yaml" <> "YOUR_API_KEY") :
  exists _config,
    __init__ config_path project_path None getenv = Some _config
    /\ AnalyzerConfig.validate_configuration path_exists (VDict _config) =
         Some (forallb (fun env_var =>
                          negb (bool_decide (getenv env_var = Some "YOUR_API_KEY")))
                 ["GSC_CREDENTIALS_FILE"; "GOOGLE_ADS_YAML_FILE"; "SERP_API_KEY"; "SITE_URL";
                  "CUSTOMER_ID"]
               && file_exists (effective getenv "GSC_CREDENTIALS_FILE"
                                 (config_path "credentials.json"))
               && file_exists (effective getenv "GOOGLE_ADS_YAML_FILE"
                                 (config_path "google-ads.yaml"))).
Proof.
  destruct init_returns as [c Hinit]. exists c. split; [done|].
  destruct Hcredentials as [Hc1 Hc2]. destruct Hyaml as [Hy1 Hy2].
  unfold AnalyzerConfig.validate_configuration.
  rewrite (driver_setting c "gsc" "credentials_file" _
             (default_setting c "GSC_CREDENTIALS_FILE" "gsc" "credentials_file"
                (config_path "credentials.json") Hinit ltac:(mapped) eq_refl)
             eq_refl).
  rewrite (driver_setting c "ads" "yaml_file" _
             (default_setting c "GOOGLE_ADS_YAML_FILE" "ads" "yaml_file"
                (config_path "google-ads.yaml") Hinit ltac:(mapped) eq_refl)
             eq_refl).
  rewrite (driver_setting c "serp" "api_key" _
             (default_setting c "SERP_API_KEY" "serp" "api_key" "YOUR_SERP_API_KEY" Hinit ltac:(mapped) eq_refl) eq_refl).
  rewrite (driver_setting c "analysis" "site_url" _
             (default_setting c "SITE_URL" "analysis" "site_url" "sc-domain:your-domain.com"
                Hinit ltac:(mapped) eq_refl) eq_refl).
  rewrite (driver_setting c "analysis" "customer_id" _
             (default_setting c "CUSTOMER_ID" "analysis" "customer_id" "123-456-7890" Hinit ltac:(mapped) eq_refl) eq_refl).
  cbn [mbind option_bind existsb forallb].
  rewrite !rejected_by_the_driver by done.
  rewrite !orb_false_r, !andb_true_r.
  destruct (bool_decide (getenv "GSC_CREDENTIALS_FILE" = _)); [done|].
  destruct (bool_decide (getenv "GOOGLE_ADS_YAML_FILE" = _)); [done|].
  destruct (bool_decide (getenv "SERP_API_KEY" = _)); [done|].
  destruct (bool_decide (getenv "SITE_URL" = _)); [done|].
  destruct (bool_decide (getenv "CUSTOMER_ID" = _)); [done|].
  cbn [orb negb andb AnalyzerConfig.files_exist].
  assert (Htruthy : forall env_var default, default <> "" ->
            truthy (VStr (effective getenv env_var default)) = true).
  { intros env_var default Hd. unfold truthy. rewrite bool_decide_eq_false_2; [done|].
    unfold effective. destruct (getenv env_var) as [value|]; [|done]. by case_bool_decide. }
  rewrite !Htruthy, !Hexists by done.
  by destruct (file_exists _), (file_exists _).
Qed.

(** X24.  [Config.validate] on a configuration built with no custom file
    is [True] unless one of the five variables of the environment is
    literally [YOUR_API_KEY] or [your-domain.com]: the placeholders the
    defaults ship with are not the ones it looks for. *)
Theorem validate_accepts_the_shipped_placeholders
    (Hcredentials : config_path "credentials.json" <> ""
                    /\ config_path "credentials.json" <> "YOUR_API_KEY"
                    /\ config_path "credentials.json" <> "your-domain.com")
    (Hyaml : config_path "google-ads.yaml" <> ""
             /\ config_path "google-ads.yaml" <> "YOUR_API_KEY"
             /\ config_path "google-ads.yaml" <> "your-domain.com") :
  exists _config,
    __init__ config_path project_path None getenv = Some _config
    /\ validate (VDict _config) =
         forallb (fun env_var =>
                    negb (bool_decide (getenv env_var = Some "YOUR_API_KEY"
                                       \/ getenv env_var = Some "your-domain.com")))
           ["GSC_CREDENTIALS_FILE"; "GOOGLE_ADS_YAML_FILE"; "SERP_API_KEY"; "SITE_URL";
            "CUSTOMER_ID"].
Proof.
  destruct init_returns as [c Hinit]. exists c. split; [done|].
  destruct Hcredentials as (Hc1 & Hc2 & Hc3). destruct Hyaml as (Hy1 & Hy2 & Hy3).
  unfold validate, required_fields. cbn [forallb].
  rewrite (get_field c "gsc.credentials_file" _ _ VNone
             (default_setting c "GSC_CREDENTIALS_FILE" "gsc" "credentials_file"
                (config_path "credentials.json") Hinit ltac:(mapped) eq_refl)
             eq_refl).
  rewrite (get_field c "ads.yaml_file" _ _ VNone
             (default_setting c "GOOGLE_ADS_YAML_FILE" "ads" "yaml_file"
                (config_path "google-ads.yaml") Hinit ltac:(mapped) eq_refl)
             eq_refl).
  rewrite (get_field c "serp.api_key" _ _ VNone
             (default_setting c "SERP_API_KEY" "serp" "api_key" "YOUR_SERP_API_KEY" Hinit ltac:(mapped) eq_refl) eq_refl).
  rewrite (get_field c "analysis.site_url" _ _ VNone
             (default_setting c "SITE_URL" "analysis" "site_url" "sc-domain:your-domain.com"
                Hinit ltac:(mapped) eq_refl) eq_refl).
  rewrite (get_field c "analysis.customer_id" _ _ VNone
             (default_setting c "CUSTOMER_ID" "analysis" "customer_id" "123-456-7890" Hinit ltac:(mapped) eq_refl) eq_refl).
  cbv zeta. by rewrite !rejected_by_validate.
Qed.

End ConstructionProperties.

(** ** The parser of the SERP body *)

Section ParserProperties.
Import Py PyOps SerpHandler Parser.

Variable str_lower : string -> string.
Variable str_isdigit : string -> bool.
Variable int_of_str : string -> option Z.

Local Abbreviation parse := (Parser._parse_serp_response str_lower str_isdigit int_of_str).

(** *** The content is cut to 500 characters *)

Lemma chars_one_char (s : string) :
  Forall one_char (chars s)
  /\ match s, chars s with
     | String c _, first :: _ => exists rest, first = String c rest
     | EmptyString, [] => True
     | _, _ => False
     end.
Proof.
  induction s as [|c rest [IH1 IH2]]; [by split; [constructor|]|].
  cbn [chars]. cbv zeta.
  destruct rest as [|c' r]; [by split; [repeat constructor|eexists]|].
  destruct (chars (String c' r)) as [|first more]; [done|].
  destruct IH2 as [t ->]. apply Forall_cons in IH1 as [H1 Hmore].
  destruct (continuation c') eqn:E.
  - split; [|by eexists]. constructor; [|done]. simpl in *. by rewrite E.
  - split; [|by eexists]. by repeat constructor.
Qed.

Lemma char_count_app (s t : string) :
  char_count (s +:+ t) = (char_count s + char_count t)%nat.
Proof. induction s as [|c s IH]; [done|]. simpl. rewrite IH. lia. Qed.

Lemma char_count_one_char (s : string) : one_char s -> (char_count s <= 1)%nat.
Proof. destruct s as [|c s]; simpl; [lia|]. intros ->. destruct (continuation c); lia. Qed.

Lemma char_count_concat (l : list string) :
  Forall one_char l -> (char_count (String.concat "" l) <= length l)%nat.
Proof.
  induction 1 as [|x l Hx _ IH]; [done|].
  pose proof (char_count_one_char x Hx).
  destruct l as [|y l]; [simpl; lia|].
  change (String.concat "" (x :: y :: l)) with (x +:+ String.concat "" (y :: l)).
  rewrite char_count_app. simpl length in *. lia.
Qed.

Lemma first_at_most (n : nat) (v v' : Value) : first n v = Some v' -> at_most n v'.
Proof.
  destruct v as [| | | |s|items|d]; try done; intros [= <-]; simpl.
  - etransitivity; [apply char_count_concat|].
    + apply Forall_take. apply chars_one_char.
    + rewrite length_take. lia.
  - rewrite length_take. lia.
Qed.

(** X19.  Whatever the body, the result of [_parse_serp_response] carries
    the keyword it was given; if its error is set it is the bare result of
    the [except] clause ([has_aio = False], no content, no count), so a flag
    and an error never come together; and its content is [None], a string
    of at most 500 characters or a list of at most 500 items. *)
Theorem parser_gives_a_flag_or_an_error (provider : Provider) (kw : string) (data : Value) :
  let r := parse provider kw data in
  keyword r = kw
  /\ (error r = true -> r = parse_error kw)
  /\ (has_aio r = true -> error r = false)
  /\ at_most 500 (aio_content r).
Proof.
  cbv zeta. unfold Parser._parse_serp_response, parsed.
  destruct (match provider with serper => _ | other_provider => _ end)
    as [[[flag content] total]|]; [|done].
  simpl. destruct (truthy content).
  - destruct (first 500 content) as [cut|] eqn:E; [|done]. simpl.
    repeat split; [done|]. by apply (first_at_most 500 content).
  - simpl. by repeat split.
Qed.

(** *** Each provider's branch reads its own keys *)

(** X20.  The result of the parser on a JSON object depends on five of
    its keys only, those of the configured provider; an object with none of
    them is reported as showing no overview, without an error, so a body
    in the format of the other provider is never recognised. *)
Theorem parser_reads_the_keys_of_its_provider_only (provider : Provider) (kw : string)
    (d d' : Dict)
    (Hsame : forall key, key ∈ read_keys provider -> dict_get key d = dict_get key d') :
  parse provider kw (VDict d) = parse provider kw (VDict d')
  /\ ((forall key, key ∈ read_keys provider -> dict_get key d' = None) ->
      parse provider kw (VDict d) = no_overview kw).
Proof.
  assert (Hkeys : forall d1 d2 : Dict,
            (forall key, key ∈ read_keys provider -> dict_get key d1 = dict_get key d2) ->
            parse provider kw (VDict d1) = parse provider kw (VDict d2)).
  { intros d1 d2 H. unfold Parser._parse_serp_response, parsed.
    destruct provider; simpl in H.
    - pose proof (H "aiOverview" ltac:(set_solver)) as H1.
      pose proof (H "answerBox" ltac:(set_solver)) as H2.
      pose proof (H "knowledgeGraph" ltac:(set_solver)) as H3.
      pose proof (H "organic" ltac:(set_solver)) as H4.
      pose proof (H "searchInformation" ltac:(set_solver)) as H5.
      unfold serper_overview, serper_knowledge_graph, organic, serper_total_results,
        contains, item, PyOps.get.
      by rewrite H1, H2, H3, H4, H5.
    - pose proof (H "ai_overview" ltac:(set_solver)) as H1.
      pose proof (H "knowledge_graph" ltac:(set_solver)) as H2.
      pose proof (H "answer_box" ltac:(set_solver)) as H3.
      pose proof (H "organic_results" ltac:(set_solver)) as H4.
      pose proof (H "search_information" ltac:(set_solver)) as H5.
      unfold other_overview, organic, other_total_results, contains, item, PyOps.get.
      by rewrite H1, H2, H3, H4, H5. }
  split; [by apply Hkeys|]. intros Hnone.
  rewrite (Hkeys d []).
  - by destruct provider.
  - intros key Hkey. rewrite (Hsame key Hkey). by apply Hnone.
Qed.

(** *** A body that is not an object *)

(** X21.  A body that is not a JSON object (a list, a string, a number,
    [null]) always ends in the [except] clause: [has_aio = False] with the
    error set. *)
Theorem body_that_is_no_object_is_a_parse_error (provider : Provider) (kw : string)
    (data : Value)
    (Hother : is_dict data = false) :
  parse provider kw data = parse_error kw.
Proof.
  unfold Parser._parse_serp_response, parsed.
  destruct data as [| | | |s|items|d]; try done; destruct provider; try done.
  all: unfold serper_overview, serper_knowledge_graph, other_overview, organic,
         serper_total_results, other_total_results, contains, item, PyOps.get; simpl;
       repeat (match goal with
               | |- context [existsb ?f ?l] => destruct (existsb f l)
               | |- context [infix ?a ?b] => destruct (infix a b)
               end; simpl; try done).
Qed.

End ParserProperties.

(** ** The properties on concrete runs *)

Section Examples.
Import SerpHandler.

(** C1, on a list with a repeated keyword and failing probes. *)
Example batch_keys_example :
  dom (batch_validate_aio Demo.parse Demo.default_handler Demo.one_bad ["a"; "b"; "a"; "c"]).1
  = ({["a"; "b"; "c"]} : gset string).
Proof.
  rewrite batch_results, collect_fold_dom. set_solver.
Qed.

(** C2, at the configuration of [tasks.py] (three slots, one request per
    two seconds): on the schedule [Demo.race] the requests start at 1000, 1002
    and 1002, so two consecutive starts are 0 seconds apart where
    [1 / rate_limit] is 2. *)
Theorem pacing_gate_race :
  option_map (fun s => (Qred <$> (EventLoop.starts s).*2, EventLoop.paced Tasks.serp_config s))
    (EventLoop.run Demo.parse Tasks.serp_config ["a"; "b"; "c"]
       (EventLoop.initial Tasks.serp_config ["a"; "b"; "c"] 1000) Demo.race)
  = Some ([1000; 1002; 1002]%Q, false).
Proof. vm_compute. reflexivity. Qed.

(** C3 on the schedule [Demo.busy], with the three slots of [tasks.py]. *)
Lemma in_flight_never_exceeds_concurrency_witness :
  match EventLoop.run Demo.parse Tasks.serp_config ["a"; "b"; "c"; "d"]
          (EventLoop.initial Tasks.serp_config ["a"; "b"; "c"; "d"] 1000) Demo.busy with
  | Some s => (EventLoop.in_flight s <= 3)%nat
  | None => False
  end.
Proof.
  destruct (EventLoop.run Demo.parse Tasks.serp_config ["a"; "b"; "c"; "d"]
              (EventLoop.initial Tasks.serp_config ["a"; "b"; "c"; "d"] 1000) Demo.busy)
    as [s|] eqn:E.
  - exact (proj1 (proj2 (proj2
             (in_flight_never_exceeds_concurrency Demo.parse Tasks.serp_config
                ["a"; "b"; "c"; "d"] 1000 Demo.busy s E)))).
  - vm_compute in E. discriminate E.
Defined.

(** C5 on two keywords, the first of which is rate limited on every
    attempt. *)
Lemma exhausted_keyword_is_isolated_witness :
  (batch_validate_aio Demo.parse Demo.default_handler Demo.one_bad ["a"; "b"]).1 !! "a"
  = Some false.
Proof.
  refine (proj1 (proj2
    (exhausted_keyword_is_isolated Demo.parse Demo.default_handler Demo.one_bad
       ["a"; "b"] "a" _ _))).
  - apply list_elem_of_here.
  - intros [|[|i]] a Hi _; [reflexivity|discriminate Hi|discriminate Hi].
Defined.

(** C5 as the specification words it does not hold: of two keywords, "a"
    rate limited on all three attempts and "b" answered at once without an
    overview, the first ends with the error set and the second without one in
    the result of [_make_serp_request], but the dictionary the batch returns
    holds the same bare [False] for both: the outcome of the batch has no
    error field. *)
Lemma exhausted_keyword_counterexample :
  let batch :=
    batch_validate_aio Demo.parse Demo.default_handler Demo.limited_or_plain ["a"; "b"] in
  error (_make_serp_request Demo.parse Demo.default_handler "a"
           (Demo.limited_or_plain 0)).1 = Some (RequestFailed 3)
  /\ error (_make_serp_request Demo.parse Demo.default_handler "b"
              (Demo.limited_or_plain 1)).1 = None
  /\ batch.1 !! "a" = Some false
  /\ batch.1 !! "b" = Some false
  /\ map_to_list batch.1 = [("a", false); ("b", false)].
Proof. vm_compute. repeat split. Qed.

(** C6.  After a 429 with an integer [Retry-After] the client sleeps the
    hinted seconds and then, when attempts remain, the backoff
    [retry_delay * (attempt + 1)] as well, before the next request; at the
    defaults of [config/settings.py] (three attempts, delay 1) and
    [Retry-After: 5] on the first attempt it sleeps 5 seconds and then 1
    second more. *)
Theorem retry_after_hint_is_followed_by_backoff :
  (forall (Data : Type) (parse : string -> Data -> SERPResult) h kw responses
          remaining attempt n,
     responses attempt = Status429 (HeaderInt n) ->
     Z.of_nat attempt < retry_attempts h - 1 ->
     (retry_loop parse h kw responses (S remaining) attempt).2 =
       Request kw attempt :: Sleep (inject_Z n)
       :: Sleep (retry_delay h * inject_Z (Z.of_nat attempt + 1))
       :: (retry_loop parse h kw responses remaining (S attempt)).2)
  /\ (_make_serp_request Demo.parse Demo.default_handler "kw" Demo.hinted).2
     = [Request "kw" 0; Sleep 5; Sleep 1; Request "kw" 1].
Proof.
  split; [|vm_compute; reflexivity].
  intros Data parse h kw responses remaining attempt n Hr Hlt.
  simpl. rewrite Hr. simpl. unfold backoff_sleep.
  by rewrite bool_decide_eq_true_2 by done.
Qed.

(** C10, on a list of five in which "a" occurs twice: five probes, two of
    them for "a"; the first of the two finds an overview, the second does
    not, and the dictionary holds the flag of the second. *)
Example repeated_keyword_example :
  let r := batch_validate_aio Demo.parse Demo.default_handler Demo.first_three
             ["k"; "a"; "b"; "c"; "a"] in
  length r.2 = 5%nat
  /\ length (filter (fun t => t.1 = "a") r.2) = 2%nat
  /\ r.1 !! "a" = Some false
  /\ has_aio (_make_serp_request Demo.parse Demo.default_handler "a"
               (Demo.first_three 1)).1 = true.
Proof. vm_compute. repeat split. Qed.

(** C7 on a second extraction of the same two rows. *)
Lemma validation_outcome_written_once_witness :
  Tasks.keywords (Tasks.extract_gsc_data Demo.all_fine 0 1 Demo.extracted_once).1
  = Tasks.keywords Demo.extracted_once.
Proof.
  refine (proj1
    (validation_outcome_written_once Demo.parse Demo.all_fine 0 1 Demo.extracted_once
       [Demo.gsc_row "what is x"; Demo.gsc_row "how to y"] eq_refl _)).
  intros row Hrow.
  apply elem_of_cons in Hrow as [-> | Hrow]; [apply list_elem_of_here|].
  apply elem_of_cons in Hrow as [-> | Hrow];
    [apply list_elem_of_further, list_elem_of_here|].
  by apply elem_of_nil in Hrow.
Defined.



(** C4, as the code has it, on a new project. *)
Lemma empty_extraction_still_runs_every_stage_witness :
  Tasks.trace
    (Tasks.run_stages Demo.parse Demo.nothing_found 0 1 2 (Tasks.started Tasks.new_db)).1
  = [Tasks.Delayed "gsc_extraction"; Tasks.GscQueried; Tasks.Delayed "keyword_expansion";
     Tasks.Delayed "aio_validation"].
Proof.
  refine (proj1 (proj2
    (empty_extraction_still_runs_every_stage Demo.parse Demo.report Demo.nothing_found
       Tasks.new_db eq_refl _))).
  intros kd Hkd. by apply elem_of_nil in Hkd.
Defined.

(** C4 as the specification words it does not hold: with no rows from
    Search Console, on a new project, the orchestrator dispatches expansion,
    validation and reporting all the same, and the command-line driver
    returns the status failed. *)
Lemma empty_extraction_counterexample :
  Tasks.gsc Demo.nothing_found 0%nat = Returns []
  /\ Tasks.trace
       (Tasks.run_complete_analysis Demo.parse Demo.report Demo.nothing_found Tasks.new_db).1
     = [Tasks.Delayed "gsc_extraction"; Tasks.GscQueried; Tasks.Delayed "keyword_expansion";
        Tasks.Delayed "aio_validation"; Tasks.Delayed "report_generation"]
  /\ Analyzer.gsc Demo.cli_nothing_found = Returns []
  /\ (Analyzer.run_full_analysis Demo.parse Demo.default_handler (fun x => x)
        Demo.cli_nothing_found).1 = [Analyzer.Extraction]
  /\ (Analyzer.status <$>
        match (Analyzer.run_full_analysis Demo.parse Demo.default_handler (fun x => x)
                 Demo.cli_nothing_found).2 with
        | Tasks.Ok summary => Some summary
        | Tasks.Raised _ => None
        end) = Some "failed".
Proof. vm_compute. repeat split. Qed.

(** C9.  The percentage is [count / total * 100] in binary64 arithmetic
    when [total] is positive and the integer 0 otherwise; it is what the
    validation stage stores and returns and what the report's summary holds;
    3 of 10 gives exactly 30.0, by the formula, through the validation stage
    on ten keywords of which three trigger, and in the summary statistics. *)
Theorem triggered_percentage :
  (forall count, percentage count 0 = PyInt 0)
  /\ (forall count total, total <= 0 -> percentage count total = PyInt 0)
  /\ (forall count total, 0 < total ->
        percentage count total =
          PyFloat (float_of_int count / float_of_int total * 100)%float)
  /\ percentage 3 10 = PyFloat 30
  /\ (forall (Data : Type) (parse : string -> Data -> SERPResult) env retries task_id db
             verified_count aio_count pct,
        (Tasks.validate_aio_triggers parse env retries task_id db).2 =
          Tasks.Success (Tasks.ValidationDone verified_count (Some (aio_count, pct))) ->
        pct = percentage aio_count verified_count)
  /\ (Tasks.validate_aio_triggers Demo.parse Demo.all_fine 0 0 Demo.ten_unverified).2 =
       Tasks.Success (Tasks.ValidationDone 10 (Some (3, PyFloat 30)))
  /\ ReportGenerator.summary_stats Demo.validated_frame = Some (10, 3, PyFloat 30)
  /\ ReportGenerator.summary_stats [] = None.
Proof.
  split; [reflexivity|]. split.
  { intros count total Hle. unfold percentage. by rewrite bool_decide_eq_false_2 by lia. }
  split.
  { intros count total Hlt. unfold percentage. by rewrite bool_decide_eq_true_2 by lia. }
  split; [vm_compute; reflexivity|]. split.
  { intros Data parse env retries task_id db v a pct.
    unfold Tasks.validate_aio_triggers. cbv beta iota zeta.
    destruct (filter _ _) as [|kd kds]; [done|].
    unfold Tasks.on_failure.
    destruct (bool_decide (Tasks.serp_api_key env = ""));
      [by destruct (bool_decide _)|].
    destruct (bool_decide (Tasks.serp_api_key env = "YOUR_SERP_API_KEY"));
      [by destruct (bool_decide _)|].
    destruct (test_api_connection _ _ _); [|by destruct (bool_decide _)].
    simpl. by intros [= <- <- <-]. }
  repeat split; vm_compute; reflexivity.
Qed.

(** X1 on the schedule [Demo.busy], in which task 0 gets one reply. *)
Lemma finished_task_result_witness :
  match EventLoop.run Demo.parse Tasks.serp_config ["a"; "b"; "c"; "d"]
          (EventLoop.initial Tasks.serp_config ["a"; "b"; "c"; "d"] 1000) Demo.busy with
  | Some s =>
      EventLoop.tasks s !! 0%nat =
      Some (EventLoop.Finished
              (_make_serp_request Demo.parse Tasks.serp_config "a"
                 (answers (EventLoop.replies_to 0 Demo.busy))).1)
  | None => False
  end.
Proof.
  destruct (EventLoop.run Demo.parse Tasks.serp_config ["a"; "b"; "c"; "d"]
              (EventLoop.initial Tasks.serp_config ["a"; "b"; "c"; "d"] 1000) Demo.busy)
    as [s|] eqn:E; [|vm_compute in E; discriminate E].
  assert (H : EventLoop.tasks s !! 0%nat =
              Some (EventLoop.Finished (Demo.parse "a" true))).
  { vm_compute in E. injection E as <-. reflexivity. }
  rewrite H.
  exact (f_equal (fun r => Some (EventLoop.Finished r))
           (finished_task_result Demo.parse Tasks.serp_config ["a"; "b"; "c"; "d"] 1000
              Demo.busy s 0 "a" (Demo.parse "a" true) E eq_refl H)).
Defined.

(** After a complete run that stored twelve keywords, three of them
    triggering, the project row says completed with every counter at 0. *)
Example counters_after_a_full_run :
  let out := (Tasks.run_complete_analysis Demo.parse Demo.report Demo.all_fine
                Tasks.new_db).1 in
  Tasks.status (Tasks.project out) = "completed"
  /\ length (Tasks.keywords out) = 12%nat
  /\ length (filter (fun kd => Tasks.aio_triggers kd = Some true) (Tasks.keywords out)) = 3%nat
  /\ Tasks.completed_steps (Tasks.project out) = 0
  /\ Tasks.total_keywords (Tasks.project out) = 0
  /\ Tasks.aio_keywords (Tasks.project out) = 0.
Proof. vm_compute. repeat split. Qed.


(** X4 at the defaults of [config/settings.py] (three attempts, delay 1),
    against a server that answers 429 without a [Retry-After] header every
    time: after each request the probe sleeps [int(retry_delay)] = 1 second,
    then the backoff of 1 and of 2 seconds; after the third request it
    sleeps one second more, although no request follows. *)
Lemma backoff_between_failed_attempts_is_linear_witness :
  (_make_serp_request Demo.parse Demo.default_handler "kw" Demo.always_limited).2
  = [Request "kw" 0; Sleep 1; Sleep 1; Request "kw" 1; Sleep 1; Sleep 2;
     Request "kw" 2; Sleep 1].
Proof.
  etrans.
  - exact (proj1 (backoff_between_failed_attempts_is_linear Demo.parse Demo.default_handler
                    "kw" Demo.always_limited (fun _ _ => eq_refl))).
  - vm_compute. reflexivity.
Defined.

(** X6 on the schedule [Demo.in_turn]. *)
Lemma one_slot_paces_first_requests_witness :
  match EventLoop.run Demo.parse Demo.single_slot ["a"; "b"]
          (EventLoop.initial Demo.single_slot ["a"; "b"] 1000) Demo.in_turn with
  | Some s => EventLoop.first_requests_paced Demo.single_slot s = true
  | None => False
  end.
Proof.
  destruct (EventLoop.run Demo.parse Demo.single_slot ["a"; "b"]
              (EventLoop.initial Demo.single_slot ["a"; "b"] 1000) Demo.in_turn)
    as [s|] eqn:E.
  - exact (one_slot_paces_first_requests Demo.parse Demo.single_slot ["a"; "b"] 1000
             Demo.in_turn s eq_refl eq_refl E).
  - vm_compute in E. discriminate E.
Defined.

(** X7 with a Search Console that refuses the credentials. *)
Lemma extraction_failure_stops_the_pipeline_witness :
  (Tasks.run_complete_analysis Demo.parse Demo.report Demo.gsc_down Tasks.new_db).2
  = Tasks.Raised "invalid_grant".
Proof.
  exact (proj1 (extraction_failure_stops_the_pipeline Demo.parse Demo.report Demo.gsc_down
                  Tasks.new_db "invalid_grant" (fun _ => eq_refl))).
Defined.

(** X8 with a Search Console that times out once. *)
Lemma retried_extraction_keeps_the_error_message_witness :
  let out := Tasks.delay_get (fun retries => Tasks.extract_gsc_data Demo.gsc_flaky retries 0)
               3 0 Demo.one_task in
  Tasks.task_status <$> Tasks.tasks out.1 !! 0%nat = Some "completed"
  /\ Tasks.task_error_message <$> Tasks.tasks out.1 !! 0%nat = Some "timed out".
Proof.
  pose proof (retried_extraction_keeps_the_error_message Demo.gsc_flaky 0 Demo.one_task
                "timed out" [Demo.gsc_row "what is x"] eq_refl eq_refl) as H.
  destruct H as (_ & Hstatus & Hmessage & _); [simpl; lia|].
  split; [exact Hstatus|exact Hmessage].
Defined.

(** X9 on the two seed keywords of [Demo.all_fine]. *)
Lemma extraction_stores_every_new_query_once_witness :
  exists more,
    Tasks.keywords (Tasks.extract_gsc_data Demo.all_fine 0 0 Demo.one_task).1 = more
    /\ NoDup (Tasks.kd_keyword <$> more).
Proof.
  destruct (extraction_stores_every_new_query_once Demo.all_fine 0 0 Demo.one_task
              [Demo.gsc_row "what is x"; Demo.gsc_row "how to y"] eq_refl)
    as (more & _ & Hmore & _ & Hunique & _); [discriminate|].
  exists more. split; [exact Hmore|exact Hunique].
Defined.

(** X10 on a run of the three stages from an empty table. *)
Lemma stages_never_store_a_keyword_twice_witness :
  NoDup (Tasks.stored_keywords
           (Tasks.run_stages Demo.parse Demo.all_fine 0 1 2 Tasks.new_db).1).
Proof.
  apply (stages_never_store_a_keyword_twice Demo.parse Demo.all_fine 0 1 2 Tasks.new_db).
  apply NoDup_nil_2.
Defined.

(** X12 on ten keywords of which the first three trigger an overview. *)
Lemma successful_validation_verifies_every_keyword_witness :
  Forall (fun kd => Tasks.unverified kd = false)
    (Tasks.keywords
       (Tasks.validate_aio_triggers Demo.parse Demo.all_fine 0 0 Demo.ten_unverified).1).
Proof.
  refine (proj1 (successful_validation_verifies_every_keyword Demo.parse Demo.all_fine 0 0
                   Demo.ten_unverified
                   (Tasks.ValidationDone 10 (Some (3, percentage 3 10))) _)).
  vm_compute. reflexivity.
Defined.

(** X13 on ten keywords of which the first is rate limited on both
    attempts. *)
Lemma failed_probe_is_stored_as_no_overview_witness :
  Tasks.keywords
    (Tasks.validate_aio_triggers Demo.parse Demo.first_limited 0 0 Demo.ten_unverified).1
    !! 0%nat
  = Some (Tasks.set_verified false (Tasks.ads_defaults (Demo.ads_row "k0"))).
Proof.
  refine (failed_probe_is_stored_as_no_overview Demo.parse Demo.first_limited 0 0
            Demo.ten_unverified (Tasks.ValidationDone 10 (Some (1, percentage 1 10))) "k0"
            _ _ 0%nat (Tasks.ads_defaults (Demo.ads_row "k0")) eq_refl eq_refl eq_refl).
  - vm_compute. reflexivity.
  - intros [|i] a Hi _; [reflexivity|].
    vm_compute in Hi. do 9 (destruct i as [|i]; [discriminate Hi|]). discriminate Hi.
Defined.

(** X14 on the command-line run of [Demo.cli_all_fine]. *)
Lemma cli_run_completes_with_a_flag_on_every_row_witness :
  (Analyzer.validate_aio_triggers Demo.parse Demo.default_handler Demo.cli_all_fine
     (Demo.ads_row <$> Demo.ten_keywords)).*1
  = Demo.ads_row <$> Demo.ten_keywords.
Proof.
  refine (proj1 (proj2
    (cli_run_completes_with_a_flag_on_every_row Demo.parse Demo.default_handler (fun x => x)
       Demo.cli_all_fine [Demo.gsc_row "what is x"; Demo.gsc_row "how to y"]
       (Demo.ads_row <$> Demo.ten_keywords) eq_refl eq_refl eq_refl _ _)));
    discriminate.
Defined.

(** X15 on twelve rows: ten probes. *)
Lemma preview_probes_the_first_ten_keywords_only_witness :
  match LocalPreview._execute_aio_validation Demo.parse "real-key" serper (fun _ => true)
          Demo.first_three Demo.preview_rows with
  | Tasks.Ok (validated, probes) =>
      probes.*1 = Demo.ten_keywords
      /\ LocalPreview.report_flag <$> (drop 10 validated).*2 = ["Y"; "Y"]
  | Tasks.Raised _ => False
  end.
Proof.
  destruct (LocalPreview._execute_aio_validation Demo.parse "real-key" serper (fun _ => true)
              Demo.first_three Demo.preview_rows) as [[validated probes]|exc] eqn:E.
  - split.
    + exact (proj1 (proj2
        (preview_probes_the_first_ten_keywords_only Demo.parse "real-key" serper
           (fun _ => true) Demo.first_three Demo.preview_rows validated probes
           ltac:(discriminate) E))).
    + vm_compute in E. injection E as <- _. reflexivity.
  - vm_compute in E. discriminate E.
Defined.


(** X17 with a custom file that gives the key of the SERP API: the key is
    the one of the file, the endpoint is still the default. *)
Lemma custom_file_overrides_defaults_key_by_key_witness :
  let merged :=
    Py.VDict (Settings._merge_config (Settings._load_default_config id id) Demo.custom_key) in
  Settings.get_path ["serp"; "api_key"] merged = Some (Py.VStr "from-file")
  /\ Settings.get_path ["serp"; "endpoint"] merged
     = Some (Py.VStr "https://serpapi.com/search.json").
Proof.
  assert (Hunique : Py.well_formed (Py.VDict Demo.custom_key)).
  { simpl. repeat split; repeat constructor; set_solver. }
  destruct (custom_file_overrides_defaults_key_by_key (Settings._load_default_config id id)
              Demo.custom_key Hunique) as (Hcustom & Hbase & _).
  split.
  - exact (Hcustom ["serp"; "api_key"] (Py.VStr "from-file") eq_refl eq_refl).
  - exact (Hbase ["serp"; "endpoint"] eq_refl).
Defined.

(** X18 with the custom file of X17 and [SERP_API_KEY] in the
    environment: the variable wins. *)
Lemma environment_overrides_files_and_defaults_witness :
  match Settings.__init__ id id (Some (Some (Py.VDict Demo.custom_key))) Demo.environment with
  | Some _config =>
      Settings.get_path ["serp"; "api_key"] (Py.VDict _config) = Some (Py.VStr "from-env")
  | None => False
  end.
Proof.
  destruct (Settings.__init__ id id (Some (Some (Py.VDict Demo.custom_key)))
              Demo.environment) as [_config|] eqn:E.
  - refine (environment_overrides_files_and_defaults id id
              (Some (Some (Py.VDict Demo.custom_key))) Demo.environment _config
              "SERP_API_KEY" "serp" "api_key" E _).
    unfold Settings.env_mappings. set_solver.
  - vm_compute in E. discriminate E.
Defined.

(** X20 on a body in the format of SerpApi read with the provider
    [serper]: the overview it holds is not seen. *)
Lemma parser_reads_the_keys_of_its_provider_only_witness :
  Parser._parse_serp_response id (fun _ => false) (fun _ => None) serper "kw"
    (Py.VDict Demo.serpapi_body)
  = Parser.no_overview "kw".
Proof.
  refine (proj2 (parser_reads_the_keys_of_its_provider_only id (fun _ => false)
                   (fun _ => None) serper "kw" Demo.serpapi_body [] _) _).
  - intros key Hkey. simpl in Hkey.
    repeat (apply elem_of_cons in Hkey as [->|Hkey]; [reflexivity|]).
    by apply elem_of_nil in Hkey.
  - reflexivity.
Defined.

(** X21 on a body that is a JSON list. *)
Lemma body_that_is_no_object_is_a_parse_error_witness :
  Parser._parse_serp_response id (fun _ => false) (fun _ => None) serper "kw"
    (Py.VList [Py.VStr "aiOverview"])
  = Parser.parse_error "kw".
Proof.
  exact (body_that_is_no_object_is_a_parse_error id (fun _ => false) (fun _ => None) serper
           "kw" (Py.VList [Py.VStr "aiOverview"]) eq_refl).
Defined.

(** X23 for an installation whose two files exist, with the key in the
    environment: the configuration is accepted, its site and its customer
    id being the placeholders of the defaults. *)
Lemma validate_configuration_accepts_the_default_site_witness :
  exists _config,
    Settings.__init__ Demo.config_path id None Demo.environment = Some _config
    /\ AnalyzerConfig.validate_configuration (fun _ => Some true) (Py.VDict _config)
       = Some true.
Proof.
  destruct (validate_configuration_accepts_the_default_site Demo.config_path id
              Demo.environment (fun _ => Some true) (fun _ => true) (fun _ => eq_refl))
    as (_config & Hinit & Hvalid); [split; discriminate..|].
  exists _config. split; [exact Hinit|]. rewrite Hvalid. vm_compute. reflexivity.
Defined.

(** X24 in the same installation. *)
Lemma validate_accepts_the_shipped_placeholders_witness :
  exists _config,
    Settings.__init__ Demo.config_path id None Demo.environment = Some _config
    /\ Settings.validate (Py.VDict _config) = true.
Proof.
  destruct (validate_accepts_the_shipped_placeholders Demo.config_path id Demo.environment)
    as (_config & Hinit & Hvalid); [repeat split; discriminate..|].
  exists _config. split; [exact Hinit|]. rewrite Hvalid. vm_compute. reflexivity.
Defined.

End Examples.
